(** * convhull_3d: the 3-D quickhull of hrtf_builder, and its specification

    A shallow embedding of [convexhull_3d/convhull_3d.h] (the routine
    [convhull_3d_build] and the helpers it calls) and the proofs of the
    properties the specification states about it.

    Layout of the embedding:
    - [CH_FLOAT] arithmetic is an interface ([CH_FLOAT_ops]); the code is
      written once over it.  Two instances are given: IEEE binary64
      (Rocq's primitive floats, what the C code runs on) and the real numbers
      (exact arithmetic, for the statements that are about geometry).
    - what the C library provides ([qsort], [rand], [RAND_MAX]) is an
      interface too ([Libc]).
    - an array read whose index is data dependent is a [lookup] that ends the
      run in [Fault] when the index is outside the array.
    - the arrays are lists and the embedding is about their contents:
      allocation, [realloc] and [free] are left out, and so is the
      [sort_int] of the scratch vector [fVec] in the simplex loop, whose
      result the code does not read.

    The second part embeds what is around the hull: the exporters and the
    reader of [convhull_3d.h] ([convhull_3d_export_obj],
    [convhull_3d_export_m], [extractVerticesFromObjFile]) and
    the whole of [hrtf_builder.cpp], the program that reads a folder of wav
    files, builds the hull of the measurement positions and writes
    [hrir_base.bin].
    - a file that is written is the list of its lines (one constructor for
      each [fprintf]) or of its bytes; a file that is read is its bytes, or
      its characters for the obj file that [extractVerticesFromObjFile]
      reads.
    - a C++ run returns, throws a [std::runtime_error] or has undefined
      behaviour ([run]).
    - [float] is an interface ([FLOAT_ops], and [FLOAT_io] for [atof] and
      the bytes of an object); [char] is signed and objects are little
      endian, as on the platforms the tool is built for. *)

From Stdlib Require Import String Ascii.
From Stdlib.Strings Require Import Byte.
From Stdlib Require Import PrimFloat.
From Stdlib Require Uint63 FloatAxioms.
From Stdlib Require Import ZArith List Bool Lia Permutation Sorted.
From Stdlib Require Import Reals Lra.
Import ListNotations.

Local Open Scope Z_scope.

(* ------------------------------------------------------------------ *)
(** ** Outcomes: a run either returns or performs an out-of-bounds access *)

Inductive outcome (A : Type) : Type :=
| Ok (a : A)
| Fault.
Arguments Ok {A} a.
Arguments Fault {A}.

Definition bind {A B : Type} (m : outcome A) (k : A -> outcome B) : outcome B :=
  match m with
  | Ok a => k a
  | Fault => Fault
  end.

Notation "x <- m ;; k" := (bind m (fun x => k))
  (at level 61, m at next level, right associativity).
Notation "' pat <- m ;; k" := (bind m (fun x => match x with pat => k end))
  (at level 61, pat pattern, m at next level, right associativity).

(** [a[i]] for an [int] index [i]. *)
Definition lookup {A : Type} (a : list A) (i : Z) : outcome A :=
  if i <? 0 then Fault
  else match nth_error a (Z.to_nat i) with
       | Some x => Ok x
       | None => Fault
       end.

Fixpoint mapM {A B : Type} (f : A -> outcome B) (l : list A) : outcome (list B) :=
  match l with
  | [] => Ok []
  | a :: l' => b <- f a ;; bs <- mapM f l' ;; Ok (b :: bs)
  end.

(* ------------------------------------------------------------------ *)
(** ** The arithmetic of [CH_FLOAT] *)

Class CH_FLOAT_ops (F : Type) : Type := {
  fzero : F;                      (* 0.0 *)
  fone : F;                       (* 1.0 *)
  fadd : F -> F -> F;
  fsub : F -> F -> F;
  fmul : F -> F -> F;
  fdiv : F -> F -> F;
  fneg : F -> F;
  fsqrt : F -> F;
  flt : F -> F -> bool;           (* a < b *)
  feq : F -> F -> bool;           (* a == b *)
  of_int : Z -> F;                (* an int converted to CH_FLOAT *)
  of_int_float : Z -> F;          (* (float)n, promoted to CH_FLOAT *)
  CH_NOISE_VAL : F;               (* 0.0000001 *)
  lit_2_23em13 : F;               (* 2.23e-13 *)
  lit_2_23ep13 : F                (* 2.23e+13 *)
}.

(** What [convhull_3d.h] takes from the C library.  [rand n] is the value the
    [n]-th call of [rand()] returns. *)
Class Libc : Type := {
  qsort : forall {A : Type}, (A -> A -> Z) -> list A -> list A;
  rand : nat -> Z;
  RAND_MAX : Z
}.

(** The contract of [qsort]: the array is permuted, and when the comparison
    is a total preorder on the elements of the array the result is in order. *)
Class LibcSpec (L : Libc) : Prop := {
  qsort_perm : forall (A : Type) (cmp : A -> A -> Z) (l : list A),
      Permutation l (qsort cmp l);
  qsort_sorted : forall (A : Type) (cmp : A -> A -> Z) (l : list A),
      (forall a b, In a l -> In b l -> cmp a b <= 0 \/ cmp b a <= 0) ->
      (forall a b c, In a l -> In b l -> In c l ->
                     cmp a b <= 0 -> cmp b c <= 0 -> cmp a c <= 0) ->
      StronglySorted (fun a b => cmp a b <= 0) (qsort cmp l)
}.

Declare Scope ch_scope.
Delimit Scope ch_scope with ch.
Infix "+" := fadd : ch_scope.
Infix "-" := fsub : ch_scope.
Infix "*" := fmul : ch_scope.
Infix "/" := fdiv : ch_scope.
Notation "- x" := (fneg x) : ch_scope.
Infix "<?" := flt : ch_scope.
Infix "==?" := feq (at level 70) : ch_scope.

Definition CH_MAX_NUM_FACES : Z := 50000.

(** The number of dimensions, [d = 3] in [convhull_3d_build]. *)
Definition d : Z := 3.

(* structs for qsort *)
Record float_w_idx (F : Type) : Type := mk_float_w_idx { fw_val : F; fw_idx : Z }.
Arguments mk_float_w_idx {F} _ _.
Arguments fw_val {F} _.
Arguments fw_idx {F} _.

Record int_w_idx : Type := mk_int_w_idx { iw_val : Z; iw_idx : Z }.

Record ch_vertex (F : Type) : Type := mk_vertex { vx : F; vy : F; vz : F }.
Arguments mk_vertex {F} _ _ _.
Arguments vx {F} _.
Arguments vy {F} _.
Arguments vz {F} _.

(** [in_vertices[i].v[j]] *)
Definition v_ {F : Type} (p : ch_vertex F) : list F := [vx p; vy p; vz p].

Section Helpers.
Context {F : Type} {ops : CH_FLOAT_ops F} {libc : Libc}.
Local Open Scope nat_scope.
Local Open Scope ch_scope.

Definition MIN (a b : F) : F := if a <? b then a else b.
Definition MAX (a b : F) : F := if b <? a then a else b.

(** [pow(x, 2.0)] *)
Definition pow2 (x : F) : F := x * x.

Definition cmp_asc_float (a1 a2 : float_w_idx F) : Z :=
  if fw_val a1 <? fw_val a2 then (-1)%Z
  else if fw_val a2 <? fw_val a1 then 1%Z
  else 0%Z.

Definition cmp_desc_float (a1 a2 : float_w_idx F) : Z :=
  if fw_val a2 <? fw_val a1 then (-1)%Z
  else if fw_val a1 <? fw_val a2 then 1%Z
  else 0%Z.

Definition cmp_asc_int (a1 a2 : int_w_idx) : Z :=
  if (iw_val a1 <? iw_val a2)%Z then (-1)%Z
  else if (iw_val a2 <? iw_val a1)%Z then 1%Z
  else 0%Z.

Definition cmp_desc_int (a1 a2 : int_w_idx) : Z :=
  if (iw_val a2 <? iw_val a1)%Z then (-1)%Z
  else if (iw_val a1 <? iw_val a2)%Z then 1%Z
  else 0%Z.

(** [start, start+1, ..., start+n-1] *)
Fixpoint iota_from (start : Z) (n : nat) : list Z :=
  match n with
  | O => []
  | S n' => start :: iota_from (start + 1)%Z n'
  end.

(** [0, 1, ..., n-1] as [int]s. *)
Definition iota (n : nat) : list Z := iota_from 0 n.

(** [sort_float(in_vec, out_vec, new_idices, len, descendFLAG)]: the sorted
    values and, for each, the index it had in [in_vec]. *)
Definition sort_float (in_vec : list F) (descendFLAG : bool) : list F * list Z :=
  let data := map (fun vi => mk_float_w_idx (fst vi) (snd vi))
                  (combine in_vec (iota (length in_vec))) in
  let data' := if descendFLAG then qsort cmp_desc_float data
               else qsort cmp_asc_float data in
  (map fw_val data', map fw_idx data').

Definition sort_int (in_vec : list Z) (descendFLAG : bool) : list Z * list Z :=
  let data := map (fun vi => mk_int_w_idx (fst vi) (snd vi))
                  (combine in_vec (iota (length in_vec))) in
  let data' := if descendFLAG then qsort cmp_desc_int data
               else qsort cmp_asc_int data in
  (map iw_val data', map iw_idx data').

(** [m[i]] in a scratch buffer that was filled before it is read. *)
Definition at_ (m : list F) (i : nat) : F := nth i m fzero.

(* calculates the determinent of a 4x4 matrix *)
Definition det_4x4 (m : list F) : F :=
  let m := at_ m in
  m 3 * m 6 * m 9 * m 12 - m 2 * m 7 * m 9 * m 12 -
  m 3 * m 5 * m 10 * m 12 + m 1 * m 7 * m 10 * m 12 +
  m 2 * m 5 * m 11 * m 12 - m 1 * m 6 * m 11 * m 12 -
  m 3 * m 6 * m 8 * m 13 + m 2 * m 7 * m 8 * m 13 +
  m 3 * m 4 * m 10 * m 13 - m 0 * m 7 * m 10 * m 13 -
  m 2 * m 4 * m 11 * m 13 + m 0 * m 6 * m 11 * m 13 +
  m 3 * m 5 * m 8 * m 14 - m 1 * m 7 * m 8 * m 14 -
  m 3 * m 4 * m 9 * m 14 + m 0 * m 7 * m 9 * m 14 +
  m 1 * m 4 * m 11 * m 14 - m 0 * m 5 * m 11 * m 14 -
  m 2 * m 5 * m 8 * m 15 + m 1 * m 6 * m 8 * m 15 +
  m 2 * m 4 * m 9 * m 15 - m 0 * m 6 * m 9 * m 15 -
  m 1 * m 4 * m 10 * m 15 + m 0 * m 5 * m 10 * m 15.

(** [pdiff[i][j]] of [plane_3d]. *)
Definition pdiff (p : list F) (i j : nat) : F :=
  at_ p ((i + 1) * 3 + j) - at_ p (i * 3 + j).

(** Row [j] of [pdiff_s] in round [i] of [plane_3d]: [pdiff[j]] without
    column [i]. *)
Definition pdiff_s (p : list F) (i j : nat) : list F :=
  map (pdiff p j) (filter (fun k => negb (Nat.eqb k i)) (seq 0 3)).

(** [det] in round [i] of [plane_3d]. *)
Definition plane_det (p : list F) (i : nat) : F :=
  at_ (pdiff_s p i 0) 0 * at_ (pdiff_s p i 1) 1
  - at_ (pdiff_s p i 1) 0 * at_ (pdiff_s p i 0) 1.

(** Calculates the coefficients of the equation of a PLANE in 3D:
    [plane_3d(p, c, d)] returns [(c, d)]. *)
Definition plane_3d (p : list F) : list F * F :=
  let sign0 := fone in
  let c0 := sign0 * plane_det p 0 in
  let sign1 := sign0 * - fone in
  let c1 := sign1 * plane_det p 1 in
  let sign2 := sign1 * - fone in
  let c2 := sign2 * plane_det p 2 in
  let norm_c := fsqrt (fzero + pow2 c0 + pow2 c1 + pow2 c2) in
  let c := [c0 / norm_c; c1 / norm_c; c2 / norm_c] in
  let d_ := fzero + - at_ p 0 * at_ c 0 + - at_ p 1 * at_ c 1 + - at_ p 2 * at_ c 2 in
  (c, d_).

(** [ismember(pLeft, pRight, pOut, ...)]: [pOut[i]] is 1 when [pLeft[i]]
    occurs in [pRight], and 0 otherwise. *)
Definition ismember (pLeft pRight : list Z) : list Z :=
  map (fun x => if existsb (Z.eqb x) pRight then 1%Z else 0%Z) pLeft.

End Helpers.

(* ------------------------------------------------------------------ *)
(** ** [convhull_3d_build] *)

(** One face of the hull: row [k] of the arrays [faces] (its [d] vertex
    indices), [cf] (the [d] coefficients of its plane) and [df] (the offset
    of its plane), which the code always updates together. *)
Record ch_face (F : Type) : Type := mk_face {
  fverts : list Z;
  fcf : list F;
  fdf : F
}.
Arguments mk_face {F} _ _ _.
Arguments fverts {F} _.
Arguments fcf {F} _.
Arguments fdf {F} _.

(** The variables of [convhull_3d_build] that live across iterations of the
    main loop. *)
Record hull_state (F : Type) : Type := mk_state {
  mesh : list (ch_face F);
  nFaces : Z;
  pleft : list Z;
  FUCKED : bool
}.
Arguments mk_state {F} _ _ _ _.
Arguments mesh {F} _.
Arguments nFaces {F} _.
Arguments pleft {F} _.
Arguments FUCKED {F} _.

Definition faces {F : Type} (st : hull_state F) : list (list Z) := map fverts (mesh st).
Definition cf {F : Type} (st : hull_state F) : list (list F) := map fcf (mesh st).
Definition df {F : Type} (st : hull_state F) : list F := map fdf (mesh st).
Definition num_pleft {F : Type} (st : hull_state F) : Z := Z.of_nat (length (pleft st)).

(** The rows of [l] whose flag satisfies [keep]. *)
Definition select_by {A : Type} (keep : Z -> bool) (flags : list Z) (l : list A) : list A :=
  map snd (filter (fun p => keep (fst p)) (combine flags l)).

Section Build.
Context {F : Type} {ops : CH_FLOAT_ops F} {libc : Libc}.
Local Open Scope nat_scope.
Local Open Scope ch_scope.

(** *** Preprocessing *)

(** [span[j]]: [max_p - min_p] after the scan of axis [j]. *)
Definition span_axis (in_vertices : list (ch_vertex F)) (j : nat) : F :=
  let mm := fold_left
              (fun (mm : F * F) v =>
                 (MAX (fst mm) (at_ (v_ v) j), MIN (snd mm) (at_ (v_ v) j)))
              in_vertices (lit_2_23em13, lit_2_23ep13) in
  fst mm - snd mm.

Definition span (in_vertices : list (ch_vertex F)) : list F :=
  map (span_axis in_vertices) (seq 0 3).

(** [CH_NOISE_VAL*rand()/(float)RAND_MAX], at the [call]-th call of [rand]. *)
Definition noise (call : nat) : F :=
  CH_NOISE_VAL * of_int (rand call) / of_int_float RAND_MAX.

(** Row [i] of [points]: the perturbed coordinates and a last column of ones. *)
Definition point_row (i : nat) (v : ch_vertex F) : list F :=
  map (fun j => at_ (v_ v) j + noise (i * 3 + j)) (seq 0 3) ++ [fone].

Definition make_points (in_vertices : list (ch_vertex F)) : list (list F) :=
  map (fun iv => point_row (fst iv) (snd iv))
      (combine (seq 0 (length in_vertices)) in_vertices).

(** *** The initial simplex *)

(** [p_s]: the [d] coordinates of each of the [d] points of a face. *)
Definition face_xyz (points : list (list F)) (f : list Z) : outcome (list F) :=
  rows <- mapM (lookup points) f ;;
  Ok (concat (map (firstn 3) rows)).

(** [A]: the rows of the points of a face, then the row of point [p]. *)
Definition simplex_matrix (points : list (list F)) (f : list Z) (p : Z)
  : outcome (list F) :=
  rows <- mapM (lookup points) f ;;
  r <- lookup points p ;;
  Ok (concat rows ++ r).

(** The face that omits point [i]: the entries of [aVec] other than [i]. *)
Definition initial_face (aVec : list Z) (i : Z) : list Z :=
  filter (fun a => negb (a =? i)%Z) aVec.

Definition new_face (points : list (list F)) (f : list Z) : outcome (ch_face F) :=
  p_s <- face_xyz points f ;;
  Ok (mk_face f (fst (plane_3d p_s)) (snd (plane_3d p_s))).

(** Reverse the order of the last two vertices. *)
Definition flip_face (f : list Z) : list Z :=
  [nth 0 f 0%Z; nth 2 f 0%Z; nth 1 f 0%Z].

(** The orientation fix, given the determinant [v] of the face against its
    reference point: a face with [v < 0] has its last two vertices swapped
    and its plane negated. *)
Definition orient_fix (v : F) (fc : ch_face F) : ch_face F :=
  if v <? fzero
  then mk_face (flip_face (fverts fc)) (map fneg (fcf fc)) (- fdf fc)
  else fc.

(** Round [k] of the orientation loop over the simplex. *)
Definition orient_simplex_face (points : list (list F)) (k : Z) (fc : ch_face F)
  : outcome (ch_face F) :=
  A <- simplex_matrix points (fverts fc) k ;;
  Ok (orient_fix (det_4x4 A) fc).

Definition simplex (points : list (list F)) : outcome (list (ch_face F)) :=
  let aVec := iota 4 in
  fs <- mapM (fun i => new_face points (initial_face aVec i)) (iota 4) ;;
  mapM (fun kf => orient_simplex_face points (fst kf) (snd kf))
       (combine (iota 4) fs).

(** The determinant the orientation loop computes in round [k]: face [k] as
    it is built, against point [k]. *)
Definition simplex_det (points : list (list F)) (k : Z) : outcome F :=
  A <- simplex_matrix points (initial_face (iota 4) k) k ;;
  Ok (det_4x4 A).

(** *** The queue of the points left *)

Definition meanp (points : list (list F)) (nVert : Z) : list F :=
  map (fun j =>
         fold_left (fun acc row => acc + at_ row j) (skipn 4 points) fzero
         / of_int (nVert - d - 1))
      (seq 0 3).

Definition absdist (points : list (list F)) (nVert : Z) (span_ : list F)
  : list (list F) :=
  map (fun row => map (fun j => (at_ row j - at_ (meanp points nVert) j) / at_ span_ j)
                      (seq 0 3))
      (skipn 4 points).

Definition reldist (points : list (list F)) (nVert : Z) (span_ : list F) : list F :=
  map (fun a => fold_left (fun acc x => acc + pow2 x) a fzero)
      (absdist points nVert span_).

(** [pleft] as the main loop first finds it. *)
Definition initial_pleft (points : list (list F)) (nVert : Z) (span_ : list F)
  : list Z :=
  let ind := snd (sort_float (reldist points nVert span_) true) in
  map (fun x => (x + d + 1)%Z) ind.

(** *** One iteration of the main loop *)

(** [points_cf[j]]: the product of the point and the normal of face [j]. *)
Definition points_cf (points_s : list F) (c : list F) : F :=
  fold_left (fun acc k => acc + at_ points_s k * at_ c k) (seq 0 3) fzero.

(** [visible_ind[j]] *)
Definition visible_flag (points_s : list F) (fc : ch_face F) : Z :=
  if fzero <? points_cf points_s (fcf fc) + fdf fc then 1%Z else 0%Z.

Definition count_ones (flags : list Z) : Z :=
  fold_left (fun n x => if (x =? 1)%Z then (n + 1)%Z else n) flags 0%Z.

(** [visible]: the indices of the visible faces. *)
Definition visible_indices (visible_ind : list Z) : list nat :=
  filter (fun j => (nth j visible_ind 0 =? 1)%Z) (seq 0 (length visible_ind)).

Definition f0_sum (flags : list Z) : Z := fold_left Z.add flags 0%Z.

(** The edges the visible face [face_vis] adds to the horizon: for each
    nonvisible face [u[k]] with [d-1] of its entries in [face_vis], those
    entries. *)
Definition horizon_of (face_vis : list Z) (nonvisible_faces : list (list Z))
  : list (list Z) :=
  let face_s := fst (sort_int face_vis false) in
  let f0 := map (fun g => ismember g face_s) nonvisible_faces in
  let u := filter (fun k => (f0_sum (nth k f0 []) =? d - 1)%Z)
                  (seq 0 (length nonvisible_faces)) in
  map (fun k => let gVec := nth k nonvisible_faces [] in
                select_by (fun b => negb (b =? 0)%Z) (nth k f0 []) gVec)
      u.

Definition create_horizon (faces_ : list (list Z)) (visible_ind : list Z)
  : list (list Z) :=
  let visible := visible_indices visible_ind in
  let nonvisible_faces := select_by (fun b => (b =? 0)%Z) visible_ind faces_ in
  flat_map (fun vis => horizon_of (nth vis faces_ []) nonvisible_faces) visible.

(** The loop that adds the faces connecting the horizon to point [i]; it
    stops at the face that takes [nFaces] over [CH_MAX_NUM_FACES].  Returns
    the faces appended to the arrays, [nFaces] and [FUCKED]. *)
Fixpoint add_faces (points : list (list F)) (i : Z) (horizon : list (list Z))
         (nFaces_ : Z)
  : outcome (list (ch_face F) * Z * bool) :=
  match horizon with
  | [] => Ok ([], nFaces_, false)
  | e :: horizon' =>
      let nFaces' := (nFaces_ + 1)%Z in
      fc <- new_face points (e ++ [i]) ;;
      if (CH_MAX_NUM_FACES <? nFaces')%Z
      then Ok ([fc], 0%Z, true)
      else
        rest <- add_faces points i horizon' nFaces' ;;
        Ok (fc :: fst (fst rest), snd (fst rest), snd rest)
  end.

(** The search [while(detA==0.0)] for a reference point: [pp] is what is
    left of the candidates from [pp[index]] on.  Returns [detA] and what is
    left of the candidates after the search. *)
Fixpoint find_ref (points : list (list F)) (f : list Z) (pp : list Z) (detA : F)
  : outcome (F * list Z) :=
  if detA ==? fzero then
    match pp with
    | [] => Fault
    | q :: pp' =>
        A <- simplex_matrix points f q ;;
        find_ref points f pp' (det_4x4 A)
    end
  else Ok (detA, pp).

(** [pp]: the indices below [nFaces] that are not vertices of the face. *)
Definition candidates (nFaces_ : Z) (f : list Z) : list Z :=
  let face_s := fst (sort_int f false) in
  let hVec := iota (Z.to_nat nFaces_) in
  let hVec_mem_face := ismember hVec face_s in
  select_by (fun b => (b =? 0)%Z) hVec_mem_face hVec.

(** Round [k] of the loop that orients the new faces.  After the search
    [index] is one past the reference point found, and the branch that
    reverses the face reads [pp[index]] once more. *)
Definition orient_new_face (points : list (list F)) (nFaces_ : Z) (fc : ch_face F)
  : outcome (ch_face F) :=
  let pp := candidates nFaces_ (fverts fc) in
  found <- find_ref points (fverts fc) pp fzero ;;
  let detA := fst found in
  if detA <? fzero then
    match snd found with
    | [] => Fault
    | q :: _ =>
        A <- simplex_matrix points (flip_face (fverts fc)) q ;;
        Ok (orient_fix detA fc)
    end
  else Ok (orient_fix detA fc).

Definition iteration (points : list (list F)) (st : hull_state F)
  : outcome (hull_state F) :=
  (* i is the first point of the points left; delete the point selected *)
  let i := nth 0 (pleft st) 0%Z in
  let pleft' := map (fun j => nth (j + 1) (pleft st) 0%Z)
                    (seq 0 (length (pleft st) - 1)) in
  (* find visible faces *)
  row <- lookup points i ;;
  let points_s := firstn 3 row in
  let visible_ind := map (visible_flag points_s) (mesh st) in
  let num_visible_ind := count_ones visible_ind in
  if (num_visible_ind =? 0)%Z
  then Ok (mk_state (mesh st) (nFaces st) pleft' (FUCKED st))
  else
    let horizon := create_horizon (faces st) visible_ind in
    (* delete visible faces *)
    let kept := select_by (fun b => (b =? 0)%Z) visible_ind (mesh st) in
    let nFaces1 := (nFaces st - num_visible_ind)%Z in
    let start := nFaces1 in
    added <- add_faces points i horizon nFaces1 ;;
    let mesh2 := kept ++ fst (fst added) in
    let nFaces2 := snd (fst added) in
    let n_orient := Z.to_nat (nFaces2 - start) in
    oriented <- mapM (orient_new_face points nFaces2)
                     (firstn n_orient (skipn (Z.to_nat start) mesh2)) ;;
    Ok (mk_state (firstn (Z.to_nat start) mesh2 ++ oriented
                    ++ skipn (Z.to_nat start + n_orient) mesh2)
                 nFaces2 pleft' (snd added)).

(** [while(num_pleft>0)], with the [break] on [FUCKED]. *)
Fixpoint main_loop (points : list (list F)) (fuel : nat) (st : hull_state F)
  : outcome (hull_state F) :=
  match fuel with
  | O => Ok st
  | S fuel' =>
      if (0 <? num_pleft st)%Z then
        st' <- iteration points st ;;
        if FUCKED st' then Ok st' else main_loop points fuel' st'
      else Ok st
  end.

(** What is stored through [out_faces] and [nOut_faces]; [None] is [NULL]. *)
Definition output (st : hull_state F) : option (list (list Z)) * Z :=
  if FUCKED st then (None, 0%Z) else (Some (faces st), nFaces st).

(** The state in which the main loop starts. *)
Definition initial_state (in_vertices : list (ch_vertex F)) (nVert : Z)
  : outcome (list (list F) * hull_state F) :=
  let span_ := span in_vertices in
  let points := make_points in_vertices in
  m <- simplex points ;;
  Ok (points, mk_state m (d + 1)%Z (initial_pleft points nVert span_) false).

Definition convhull_3d_build (in_vertices : option (list (ch_vertex F))) (nVert : Z)
  : outcome (option (list (list Z)) * Z) :=
  match in_vertices with
  | None => Ok (None, 0%Z)
  | Some vs =>
      if (nVert <? 3)%Z then Ok (None, 0%Z)
      else if (Z.of_nat (length vs) <? nVert)%Z then Fault
      else
        ps <- initial_state (firstn (Z.to_nat nVert) vs) nVert ;;
        st <- main_loop (fst ps) (length (pleft (snd ps))) (snd ps) ;;
        Ok (output st)
  end.

End Build.

(* ------------------------------------------------------------------ *)
(** ** The horizon, in the words of the specification *)

(** The vertices of face [g] that are vertices of face [f] too, in the order
    they have in [g]. *)
Definition shared_vertices (g f : list Z) : list Z :=
  filter (fun x => existsb (Z.eqb x) f) g.

(** [e] is a horizon edge of the mesh [m] for the point [points_s]: the
    vertices shared by a visible face and a not-visible face that share
    exactly two. *)
Definition horizon_edge {F : Type} {ops : CH_FLOAT_ops F}
    (m : list (ch_face F)) (points_s : list F) (e : list Z) : Prop :=
  exists V N,
    In V m /\ In N m
    /\ visible_flag points_s V = 1 /\ visible_flag points_s N = 0
    /\ length (shared_vertices (fverts N) (fverts V)) = 2%nat
    /\ e = shared_vertices (fverts N) (fverts V).

(** The horizon as a list: for every visible face in turn, and every
    not-visible face in turn, the shared vertices when there are two. *)
Definition horizon_list {F : Type} {ops : CH_FLOAT_ops F}
    (m : list (ch_face F)) (points_s : list F) : list (list Z) :=
  flat_map
    (fun V =>
       flat_map
         (fun N =>
            if (length (shared_vertices (fverts N) (fverts V)) =? 2)%nat
            then [shared_vertices (fverts N) (fverts V)] else [])
         (filter (fun N => visible_flag points_s N =? 0) m))
    (filter (fun V => visible_flag points_s V =? 1) m).

(** A vertex index that is a row of [points]. *)
Definition valid_index {A : Type} (points : list A) (x : Z) : Prop :=
  0 <= x < Z.of_nat (length points).

(** What holds of the state every time the main loop is at its head: the
    arrays have [nFaces] rows, and every face has [d] vertices that are rows
    of [points]. *)
Definition state_inv {F : Type} (points : list (list F)) (st : hull_state F) : Prop :=
  nFaces st = Z.of_nat (length (mesh st))
  /\ forall fc, In fc (mesh st) ->
                length (fverts fc) = 3%nat
                /\ forall x, In x (fverts fc) -> valid_index points x.

(* ------------------------------------------------------------------ *)
(** ** Instances of the interfaces *)

(** *** IEEE binary64: [double] *)

Module Binary64.

Definition int_to_double (z : Z) : PrimFloat.float :=
  if z <? 0 then PrimFloat.opp (PrimFloat.of_uint63 (Uint63.of_Z (- z)))
  else PrimFloat.of_uint63 (Uint63.of_Z z).

(** The nearest integer with 24 significant bits, ties to even: the value
    of a non-negative [int] after the cast to [float]. *)
Definition round_to_float (n : Z) : Z :=
  let len := Z.log2 n + 1 in
  if len <=? 24 then n
  else
    let s := len - 24 in
    let q := Z.shiftr n s in
    let r := Z.land n (Z.ones s) in
    let half := Z.shiftl 1 (s - 1) in
    let q' := if (half <? r) || ((r =? half) && Z.odd q) then q + 1 else q in
    Z.shiftl q' s.

Definition int_to_float (z : Z) : PrimFloat.float :=
  if z <? 0 then PrimFloat.opp (int_to_double (round_to_float (- z)))
  else int_to_double (round_to_float z).

#[global] Instance ops : CH_FLOAT_ops PrimFloat.float := {|
  fzero := 0%float;
  fone := 1%float;
  fadd := PrimFloat.add;
  fsub := PrimFloat.sub;
  fmul := PrimFloat.mul;
  fdiv := PrimFloat.div;
  fneg := PrimFloat.opp;
  fsqrt := PrimFloat.sqrt;
  flt := PrimFloat.ltb;
  feq := PrimFloat.eqb;
  of_int := int_to_double;
  of_int_float := int_to_float;
  CH_NOISE_VAL := 0x1.ad7f29abcaf48p-24%float;
  lit_2_23em13 := 0x1.f626bf6d707fap-43%float;
  lit_2_23ep13 := 0x1.4481f9418p+44%float
|}.

End Binary64.

(** *** The real numbers: exact arithmetic *)

Module Exact.

Definition Rltb (a b : R) : bool := if Rlt_dec a b then true else false.
Definition Reqb (a b : R) : bool := if Req_dec_T a b then true else false.

#[global] Instance ops : CH_FLOAT_ops R := {|
  fzero := 0%R;
  fone := 1%R;
  fadd := Rplus;
  fsub := Rminus;
  fmul := Rmult;
  fdiv := Rdiv;
  fneg := Ropp;
  fsqrt := sqrt;
  flt := Rltb;
  feq := Reqb;
  of_int := IZR;
  of_int_float := IZR;
  CH_NOISE_VAL := (1 / 10000000)%R;
  lit_2_23em13 := (223 / 1000000000000000)%R;
  lit_2_23ep13 := 22300000000000%R
|}.

End Exact.

(** *** A C library: insertion sort for [qsort], a fixed sequence for [rand] *)

Module SimpleLibc.

Fixpoint insert {A : Type} (cmp : A -> A -> Z) (x : A) (l : list A) : list A :=
  match l with
  | [] => [x]
  | y :: l' => if cmp x y <=? 0 then x :: y :: l' else y :: insert cmp x l'
  end.

Fixpoint isort {A : Type} (cmp : A -> A -> Z) (l : list A) : list A :=
  match l with
  | [] => []
  | x :: l' => insert cmp x (isort cmp l')
  end.

(** [rand()] returns [r] at every call. *)
Definition constant_rand (r rand_max : Z) : Libc := {|
  qsort := @isort;
  rand := fun _ => r;
  RAND_MAX := rand_max
|}.

End SimpleLibc.

(* ------------------------------------------------------------------ *)
(** ** Concrete inputs *)

Module Examples.

(** [rand()] returns 0 at every call: the points are not perturbed. *)
Definition libc0 : Libc := SimpleLibc.constant_rand 0 32767.

Definition V (x y z : Z) : ch_vertex PrimFloat.float :=
  mk_vertex (Binary64.int_to_double x) (Binary64.int_to_double y)
            (Binary64.int_to_double z).

Definition empty_state : hull_state PrimFloat.float := mk_state [] 0 [] false.

Definition state_of (r : outcome (list (list PrimFloat.float) * hull_state PrimFloat.float))
  : hull_state PrimFloat.float :=
  match r with
  | Ok ps => snd ps
  | Fault => empty_state
  end.

(** A tetrahedron and a point inside it. *)
Definition tetra5 : list (ch_vertex PrimFloat.float) :=
  [V 0 0 0; V 4 0 0; V 0 4 0; V 0 0 4; V 1 1 1].

Definition tetra5_points : list (list PrimFloat.float) :=
  Eval vm_compute in @make_points _ Binary64.ops libc0 tetra5.

Definition tetra5_state : hull_state PrimFloat.float :=
  Eval vm_compute in state_of (@initial_state _ Binary64.ops libc0 tetra5 5).

(** A tetrahedron and a point outside it, beyond the face opposite to
    point 0. *)
Definition tetra_out : list (ch_vertex PrimFloat.float) :=
  [V 0 0 0; V 4 0 0; V 0 4 0; V 0 0 4; V 4 4 4].

Definition tetra_out_points : list (list PrimFloat.float) :=
  Eval vm_compute in @make_points _ Binary64.ops libc0 tetra_out.

Definition tetra_out_state : hull_state PrimFloat.float :=
  Eval vm_compute in state_of (@initial_state _ Binary64.ops libc0 tetra_out 5).

(** Eighteen points, the first four in the plane [z = 0]: a degenerate
    simplex, after which the mesh is not a closed surface and the number of
    faces grows from iteration to iteration. *)
Definition crowd : list (ch_vertex PrimFloat.float) :=
  [V 0 4 0; V 4 2 0; V 1 4 0; V 0 0 0; V 3 4 3; V 1 3 2; V 4 0 2; V 0 3 4; V 2 0 2;
   V 2 3 1; V 4 3 3; V 4 1 2; V 2 0 3; V 1 3 0; V 4 2 4; V 4 2 0; V 3 0 4; V 3 1 3].

Definition crowd_points : list (list PrimFloat.float) :=
  Eval vm_compute in @make_points _ Binary64.ops libc0 crowd.

Definition crowd_state0 : hull_state PrimFloat.float :=
  Eval vm_compute in state_of (@initial_state _ Binary64.ops libc0 crowd 18).

(** The state after six iterations. *)
Definition crowd_state6 : hull_state PrimFloat.float :=
  Eval vm_compute in
    match @main_loop _ Binary64.ops libc0 crowd_points 6 crowd_state0 with
    | Ok st => st
    | Fault => empty_state
    end.

(** [rand()] returns [RAND_MAX] at every call: the largest perturbation. *)
Definition libc_max : Libc := SimpleLibc.constant_rand 2147483647 2147483647.

(** Seven points, six of them in one plane.  Every coordinate is a multiple
    of 2^40 and at least 2^40, where the spacing of binary64 numbers is far
    above [CH_NOISE_VAL]: the perturbation is rounded away. *)
Definition W (x y z : Z) : ch_vertex PrimFloat.float :=
  V (2 ^ 40 * (x + 1)) (2 ^ 40 * (y + 1)) (2 ^ 40 * (z + 1)).

Definition flat7 : list (ch_vertex PrimFloat.float) :=
  [W 0 0 0; W 4 0 0; W 1 1 0; W 0 4 0; W 1 1 1; W 4 4 0; W 2 2 0].

Definition flat7_points : list (list PrimFloat.float) :=
  Eval vm_compute in @make_points _ Binary64.ops libc_max flat7.

Definition flat7_state0 : hull_state PrimFloat.float :=
  Eval vm_compute in state_of (@initial_state _ Binary64.ops libc_max flat7 7).

(** The state after the first iteration, which inserts point 4. *)
Definition flat7_state1 : hull_state PrimFloat.float :=
  Eval vm_compute in
    match @main_loop _ Binary64.ops libc_max flat7_points 1 flat7_state0 with
    | Ok st => st
    | Fault => empty_state
    end.

Definition flat7_reldist : list PrimFloat.float :=
  Eval vm_compute in
    @reldist _ Binary64.ops flat7_points 7 (@span _ Binary64.ops flat7).

(** The array [sort_float] hands to [qsort] for [flat7]. *)
Definition flat7_data : list (float_w_idx PrimFloat.float) :=
  Eval vm_compute in
    map (fun vi => mk_float_w_idx (fst vi) (snd vi))
        (combine flat7_reldist (iota (length flat7_reldist))).

(** The coordinates that occur in [flat7]. *)
Definition far_values : list PrimFloat.float :=
  map (fun k => Binary64.int_to_double (2 ^ 40 * k)) [1; 2; 3; 5].

(** Adding the perturbation made from [rand() = r], with [RAND_MAX] 32767,
    to [x] gives [x] back. *)
Definition absorbs (x : PrimFloat.float) (r : Z) : bool :=
  PrimFloat.Leibniz.eqb
    (PrimFloat.add x
       (PrimFloat.div
          (PrimFloat.mul 0x1.ad7f29abcaf48p-24%float (Binary64.int_to_double r))
          (Binary64.int_to_float 32767)))
    x.

End Examples.

(* ================================================================== *)
(** * Around the hull: the exporters and hrtf_builder *)

(** What holds, besides [state_inv], every time the main loop is at its
    head: the number of faces is within the ceiling, no point is twice in the
    queue, and every face has three different vertices, none of which is
    still in the queue. *)
Definition mesh_inv {F : Type} (points : list (list F)) (st : hull_state F) : Prop :=
  state_inv points st
  /\ nFaces st <= CH_MAX_NUM_FACES
  /\ NoDup (pleft st)
  /\ forall fc, In fc (mesh st) ->
                NoDup (fverts fc) /\ forall x, In x (fverts fc) -> ~ In x (pleft st).

(** The determinant of a 3x3 matrix, by its first row. *)
Definition det3 (a b c d e f g h i : R) : R :=
  (a * (e * i - f * h) - b * (d * i - f * g) + c * (d * h - e * g))%R.

(* ------------------------------------------------------------------ *)
(** ** [cross], and the export of a hull *)

(** The constant of the export that [CH_FLOAT_ops] does not have. *)
Class CH_EXPORT_ops (F : Type) : Type := {
  lit_2_23em9 : F                 (* 2.23e-9 *)
}.

(** The lines of an obj file, one for each [fprintf]. *)
Inductive obj_line (F : Type) : Type :=
| obj_o                                (* "o\n" *)
| obj_v (x y z : F)                    (* "v %f %f %f\n" *)
| obj_vn (x y z : F)                   (* "vn %f %f %f\n" *)
| obj_f (v0 n0 v1 n1 v2 n2 : Z).       (* "f %u//%u %u//%u %u//%u\n" *)
Arguments obj_o {F}.
Arguments obj_v {F} x y z.
Arguments obj_vn {F} x y z.
Arguments obj_f {F} v0 n0 v1 n1 v2 n2.

(** The lines of an m file. *)
Inductive m_line (F : Type) : Type :=
| m_vertices_open                      (* "vertices = [\n" *)
| m_vertex (x y z : F)                 (* "%f, %f, %f;\n" *)
| m_close                              (* "];\n\n\n" *)
| m_faces_open                         (* "faces = [\n" *)
| m_face (a b c : Z).                  (* " %u, %u, %u;\n" *)
Arguments m_vertices_open {F}.
Arguments m_vertex {F} x y z.
Arguments m_close {F}.
Arguments m_faces_open {F}.
Arguments m_face {F} a b c.

(** An [int] printed with [%u]. *)
Definition as_unsigned (z : Z) : Z := z mod 2 ^ 32.

(** [path]: the file name copied into a buffer of 256 characters, with the
    extension appended by [strcat].  The copy and the [strcat] stay in the
    buffer when the name, the extension and the final zero fit. *)
Definition path_with (filename extension : string) : outcome string :=
  if Z.of_nat (String.length filename) + Z.of_nat (String.length extension) <? 256
  then Ok (filename ++ extension)%string
  else Fault.

Section Exporters.
Context {F : Type} {ops : CH_FLOAT_ops F} {eops : CH_EXPORT_ops F}.
Local Open Scope ch_scope.

Definition cross (v1 v2 : ch_vertex F) : ch_vertex F :=
  mk_vertex (vy v1 * vz v2 - vz v1 * vy v2)
            (vz v1 * vx v2 - vx v1 * vz v2)
            (vx v1 * vy v2 - vy v1 * vx v2).

(** [vertices[faces[k]]] *)
Definition face_vertex (vertices : list (ch_vertex F)) (faces_ : list Z) (k : Z)
  : outcome (ch_vertex F) :=
  f <- lookup faces_ k ;;
  lookup vertices f.

(** The line of the normal of face [i]. *)
Definition obj_normal (vertices : list (ch_vertex F)) (faces_ : list Z) (i : Z)
  : outcome (obj_line F) :=
  (* calculate cross product between v1-v0 and v2-v0 *)
  v1 <- face_vertex vertices faces_ (i * 3 + 1)%Z ;;
  v2 <- face_vertex vertices faces_ (i * 3 + 2)%Z ;;
  v0 <- face_vertex vertices faces_ (i * 3)%Z ;;
  let v1 := mk_vertex (vx v1 - vx v0) (vy v1 - vy v0) (vz v1 - vz v0) in
  let v2 := mk_vertex (vx v2 - vx v0) (vy v2 - vy v0) (vz v2 - vz v0) in
  let normal := cross v1 v2 in
  (* normalise to unit length *)
  let scale := fone / (fsqrt (pow2 (vx normal) + pow2 (vy normal) + pow2 (vz normal))
                       + lit_2_23em9) in
  Ok (obj_vn (vx normal * scale) (vy normal * scale) (vz normal * scale)).

(** The vertex lines: three for each face when only the used vertices are
    kept, and one for each of the [nVert] vertices otherwise. *)
Definition obj_vertex_lines (vertices : list (ch_vertex F)) (nVert : Z)
    (faces_ : list Z) (nFaces_ : Z) (keepOnlyUsedVerticesFLAG : bool)
  : outcome (list (obj_line F)) :=
  if keepOnlyUsedVerticesFLAG
  then mapM (fun k => v <- face_vertex vertices faces_ k ;;
                      Ok (obj_v (vx v) (vy v) (vz v)))
            (flat_map (fun i => map (fun j => (i * 3 + j)%Z) (iota 3))
                      (iota (Z.to_nat nFaces_)))
  else mapM (fun i => v <- lookup vertices i ;;
                      Ok (obj_v (vx v) (vy v) (vz v)))
            (iota (Z.to_nat nVert)).

(** The face lines: vertices are in the same order as the faces when only
    the used vertices are kept; normals are in order in both cases. *)
Definition obj_face_lines (faces_ : list Z) (nFaces_ : Z)
    (keepOnlyUsedVerticesFLAG : bool)
  : outcome (list (obj_line F)) :=
  if keepOnlyUsedVerticesFLAG
  then Ok (map (fun i => obj_f (as_unsigned (i * 3 + 1)) (as_unsigned (i + 1))
                               (as_unsigned (i * 3 + 1 + 1)) (as_unsigned (i + 1))
                               (as_unsigned (i * 3 + 2 + 1)) (as_unsigned (i + 1)))
               (iota (Z.to_nat nFaces_)))
  else mapM (fun i => a <- lookup faces_ (i * 3)%Z ;;
                      b <- lookup faces_ (i * 3 + 1)%Z ;;
                      c <- lookup faces_ (i * 3 + 2)%Z ;;
                      Ok (obj_f (as_unsigned (a + 1)) (as_unsigned (i + 1))
                                (as_unsigned (b + 1)) (as_unsigned (i + 1))
                                (as_unsigned (c + 1)) (as_unsigned (i + 1))))
            (iota (Z.to_nat nFaces_)).

(** [convhull_3d_export_obj]: the name of the file written and its lines.
    [faces_] is the flat array of [nFaces_ x 3] indices. *)
Definition convhull_3d_export_obj (vertices : list (ch_vertex F)) (nVert : Z)
    (faces_ : list Z) (nFaces_ : Z) (keepOnlyUsedVerticesFLAG : bool)
    (obj_filename : string)
  : outcome (string * list (obj_line F)) :=
  path <- path_with obj_filename ".obj" ;;
  (* export vertices *)
  vs <- obj_vertex_lines vertices nVert faces_ nFaces_ keepOnlyUsedVerticesFLAG ;;
  (* export the face normals *)
  ns <- mapM (obj_normal vertices faces_) (iota (Z.to_nat nFaces_)) ;;
  (* export the face indices *)
  fs <- obj_face_lines faces_ nFaces_ keepOnlyUsedVerticesFLAG ;;
  Ok (path, obj_o :: vs ++ ns ++ fs).

(** [convhull_3d_export_m]: the name of the file written and its lines. *)
Definition convhull_3d_export_m (vertices : list (ch_vertex F)) (nVert : Z)
    (faces_ : list Z) (nFaces_ : Z) (m_filename : string)
  : outcome (string * list (m_line F)) :=
  path <- path_with m_filename ".m" ;;
  vs <- mapM (fun i => v <- lookup vertices i ;;
                       Ok (m_vertex (vx v) (vy v) (vz v)))
             (iota (Z.to_nat nVert)) ;;
  fs <- mapM (fun i => a <- lookup faces_ (3 * i + 0)%Z ;;
                       b <- lookup faces_ (3 * i + 1)%Z ;;
                       c <- lookup faces_ (3 * i + 2)%Z ;;
                       Ok (m_face (as_unsigned (a + 1)) (as_unsigned (b + 1))
                                  (as_unsigned (c + 1))))
             (iota (Z.to_nat nFaces_)) ;;
  Ok (path, m_vertices_open :: vs ++ [m_close; m_faces_open] ++ fs ++ [m_close]).

End Exporters.

(** The vertex references and the normal references of an [f] line. *)
Definition vertex_refs {F : Type} (l : obj_line F) : list Z :=
  match l with
  | obj_f v0 _ v1 _ v2 _ => [v0; v1; v2]
  | _ => []
  end.

Definition normal_refs {F : Type} (l : obj_line F) : list Z :=
  match l with
  | obj_f _ n0 _ n1 _ n2 => [n0; n1; n2]
  | _ => []
  end.

(** The line a reference [r] of an obj file stands for: references count
    from 1. *)
Definition referenced {F : Type} (lines : list (obj_line F)) (r : Z) : option (obj_line F) :=
  if r <=? 0 then None else nth_error lines (Z.to_nat (r - 1)).

#[global] Instance Binary64_export : CH_EXPORT_ops PrimFloat.float := {|
  lit_2_23em9 := 0x1.327d26568be9ep-29%float
|}.

#[global] Instance Exact_export : CH_EXPORT_ops R := {|
  lit_2_23em9 := (223 / 100000000000)%R
|}.

(** The three entries of a face line of an m file. *)
Definition m_face_entries {F : Type} (l : m_line F) : list Z :=
  match l with
  | m_face a b c => [a; b; c]
  | _ => []
  end.

(* ================================================================== *)
(** * hrtf_builder.cpp *)

(** A run of the C++ code returns, throws [runtime_error(what)], or reads
    outside an array. *)
Inductive run (A : Type) : Type :=
| Returns (a : A)
| Throws (what : string)
| Undefined.
Arguments Returns {A} a.
Arguments Throws {A} what.
Arguments Undefined {A}.

Definition rbind {A B : Type} (m : run A) (k : A -> run B) : run B :=
  match m with
  | Returns a => k a
  | Throws what => Throws what
  | Undefined => Undefined
  end.

Notation "x <~ m ;; k" := (rbind m (fun x => k))
  (at level 61, m at next level, right associativity).
Notation "' pat <~ m ;; k" := (rbind m (fun x => match x with pat => k end))
  (at level 61, pat pattern, m at next level, right associativity).

(** A call of the C code from the C++ code. *)
Definition of_outcome {A : Type} (m : outcome A) : run A :=
  match m with
  | Ok a => Returns a
  | Fault => Undefined
  end.

Fixpoint rmapM {A B : Type} (f : A -> run B) (l : list A) : run (list B) :=
  match l with
  | [] => Returns []
  | a :: l' => b <~ f a ;; bs <~ rmapM f l' ;; Returns (b :: bs)
  end.

(** ** Bytes and integers *)

(** The objects of the integer types are read and written through
    [reinterpret_cast<char*>]: least significant byte first, on the machines
    the tool is built for; [char] is signed there. *)
Definition byte_val (b : byte) : Z := Z.of_N (Byte.to_N b).

Definition byte_of (z : Z) : byte :=
  match Byte.of_N (Z.to_N (z mod 256)) with
  | Some b => b
  | None => "000"%byte
  end.

(** The unsigned integer whose object is [bs]. *)
Fixpoint le_uint (bs : list byte) : Z :=
  match bs with
  | [] => 0
  | b :: bs' => byte_val b + 256 * le_uint bs'
  end.

(** The object of [len] bytes of the unsigned integer [z]. *)
Fixpoint le_bytes (len : nat) (z : Z) : list byte :=
  match len with
  | O => []
  | S len' => byte_of z :: le_bytes len' (z / 256)
  end.

(** A [size_t] or an [int] cast to [uint32_t]. *)
Definition to_uint32 (z : Z) : Z := z mod 2 ^ 32.

(** [*ptr] for a [const char* ptr]. *)
Definition char_val (b : byte) : Z :=
  if byte_val b <? 128 then byte_val b else byte_val b - 256.

(** [*bit16] for a [const short* bit16]. *)
Definition short_val (b0 b1 : byte) : Z :=
  if le_uint [b0; b1] <? 32768 then le_uint [b0; b1] else le_uint [b0; b1] - 65536.

(** ** The arithmetic of [float] *)

(** The operations on [float] that hrtf_builder.cpp uses. *)
Class FLOAT_ops (F32 : Type) : Type := {
  float_of_int : Z -> F32;                (* static_cast<float>(n); 180.0f, 90.0f, 1.0 *)
  float_sub : F32 -> F32 -> F32;
  float_mul : F32 -> F32 -> F32;
  float_div : F32 -> F32 -> F32;
  float_neg : F32 -> F32;
  float_sin : F32 -> F32;
  float_cos : F32 -> F32;
  Pi : F32                                (* 3.1415926535f *)
}.

(** How a [float] is read from a string and written to a file. *)
Class FLOAT_io (F32 : Type) : Type := {
  float_atof : string -> F32;             (* static_cast<float>(atof(s.c_str())) *)
  float_bytes : F32 -> list byte          (* the object of a float *)
}.

(** A [float] is an object of four bytes. *)
Class FLOAT_io_spec {F32 : Type} (io : FLOAT_io F32) : Prop := {
  float_bytes_length : forall v : F32, length (float_bytes v) = 4%nat
}.

(** [ch_v.x = v.m_Position.x]: a [float] converted to [CH_FLOAT]. *)
Class FLOAT_to_CH_FLOAT (F32 F : Type) : Type := {
  to_CH_FLOAT : F32 -> F
}.

(** ** The wav files *)

Record WavHeader : Type := mk_WavHeader {
  chunk_id : list byte;
  chunk_size : Z;
  format : list byte;
  (* fmt  chunk *)
  fmt_chunk_id : list byte;
  fmt_chunk_size : Z;
  audio_format : Z;
  num_channels : Z;
  sample_rate : Z;
  byte_rate : Z;
  block_align : Z;
  bits_per_sample : Z;
  (* data chunk *)
  data_chunk_id : list byte;
  data_chunk_size : Z
}.

(** [ReadExact(stream, v)] for a [v] of [len] bytes: the bytes read and what
    is left of the stream.  The stream is at [eof] after a read that asked
    for more bytes than it had. *)
Definition ReadExact (len : nat) (stream : list byte) : run (list byte * list byte) :=
  if (len <=? length stream)%nat
  then Returns (firstn len stream, skipn len stream)
  else Throws "invalid wav".

(** [ReadExact] into an unsigned integer of [len] bytes. *)
Definition ReadExact_uint (len : nat) (stream : list byte) : run (Z * list byte) :=
  '(bs, stream') <~ ReadExact len stream ;;
  Returns (le_uint bs, stream').

(** [WriteExact(stream, v)] for an unsigned integer [v] of [len] bytes. *)
Definition WriteExact_uint (len : nat) (v : Z) : list byte := le_bytes len v.

Definition read_WavHeader (f : list byte) : run (WavHeader * list byte) :=
  '(chunk_id_, f) <~ ReadExact 4 f ;;
  '(chunk_size_, f) <~ ReadExact_uint 4 f ;;
  '(format_, f) <~ ReadExact 4 f ;;
  '(fmt_chunk_id_, f) <~ ReadExact 4 f ;;
  '(fmt_chunk_size_, f) <~ ReadExact_uint 4 f ;;
  '(audio_format_, f) <~ ReadExact_uint 2 f ;;
  '(num_channels_, f) <~ ReadExact_uint 2 f ;;
  '(sample_rate_, f) <~ ReadExact_uint 4 f ;;
  '(byte_rate_, f) <~ ReadExact_uint 4 f ;;
  '(block_align_, f) <~ ReadExact_uint 2 f ;;
  '(bits_per_sample_, f) <~ ReadExact_uint 2 f ;;
  '(data_chunk_id_, f) <~ ReadExact 4 f ;;
  '(data_chunk_size_, f) <~ ReadExact_uint 4 f ;;
  Returns (mk_WavHeader chunk_id_ chunk_size_ format_ fmt_chunk_id_ fmt_chunk_size_
                        audio_format_ num_channels_ sample_rate_ byte_rate_
                        block_align_ bits_per_sample_ data_chunk_id_ data_chunk_size_,
           f).

(** [strncmp((char* )id, tag, sizeof(id)) != 0] for a tag of four characters,
    none of them zero. *)
Definition differs (id : list byte) (tag : string) : bool :=
  negb (if list_eq_dec Byte.byte_eq_dec id (list_byte_of_string tag) then true else false).

Record SoundBuffer : Type := mk_SoundBuffer {
  m_Data : list byte;
  m_SampleSize : Z;
  m_SampleRate : Z
}.

(** The constructor of [SoundBuffer]; [file] is the content of the file
    [file_name], or [None] when it cannot be opened. *)
Definition SoundBuffer_of (file_name : string) (file : option (list byte))
  : run SoundBuffer :=
  match file with
  | None => Throws ("unable to open" ++ file_name)
  | Some f =>
      '(wav, f) <~ read_WavHeader f ;;
      if differs (chunk_id wav) "RIFF" then Throws "wav: invalid chunk id"
      else if differs (data_chunk_id wav) "data" then Throws "invalid wav"
      else if differs (fmt_chunk_id wav) "fmt " then Throws "wav: invalid fmt chunk id"
      else if differs (format wav) "WAVE" then Throws "wav: invalid format"
      else if negb (audio_format wav =? 1)
      then Throws "wav: compressed formats not supported!"
      else if negb (num_channels wav =? 2) then Throws "hrtf must have two channels!"
      else
        '(data, _) <~ ReadExact (Z.to_nat (data_chunk_size wav)) f ;;
        Returns (mk_SoundBuffer data (bits_per_sample wav / 8) (sample_rate wav))
  end.

(** The [len] bytes of a file from offset [off] on, and the unsigned integer
    they are the object of. *)
Definition bytes_at (f : list byte) (off len : nat) : list byte :=
  firstn len (skipn off f).

Definition uint_at (f : list byte) (off len : nat) : Z := le_uint (bytes_at f off len).

(** ** The samples *)

Definition SampleLimit (sampleSize : Z) : run Z :=
  if sampleSize =? 1 then Returns 127
  else if sampleSize =? 2 then Returns 32767
  else Throws "sample size unsupported".

(** [ReadSamplePair(ptr, sampleSize)]: [ptr] is given by the bytes from it to
    the end of the buffer. *)
Definition ReadSamplePair (ptr : list byte) (sampleSize : Z) : run (Z * Z) :=
  if sampleSize =? 1 then
    match ptr with
    | l :: r :: _ => Returns (char_val l, char_val r)
    | _ => Undefined
    end
  else if sampleSize =? 2 then
    match ptr with
    | l0 :: l1 :: r0 :: r1 :: _ => Returns (short_val l0 l1, short_val r0 r1)
    | _ => Undefined
    end
  else Throws "sample size unsupported".

Record Vec3 (F32 : Type) : Type := mk_Vec3 { Vec3_x : F32; Vec3_y : F32; Vec3_z : F32 }.
Arguments mk_Vec3 {F32} _ _ _.
Arguments Vec3_x {F32} _.
Arguments Vec3_y {F32} _.
Arguments Vec3_z {F32} _.

Record HrtfVertex (F32 : Type) : Type := mk_HrtfVertex {
  hv_SampleRate : Z;
  m_Position : Vec3 F32;
  m_LeftHRIR : list F32;
  m_RightHRIR : list F32
}.
Arguments mk_HrtfVertex {F32} _ _ _ _.
Arguments hv_SampleRate {F32} _.
Arguments m_Position {F32} _.
Arguments m_LeftHRIR {F32} _.
Arguments m_RightHRIR {F32} _.

Record HrtfSphere (F32 : Type) : Type := mk_HrtfSphere {
  m_Vertices : list (HrtfVertex F32);
  m_Indices : list Z
}.
Arguments mk_HrtfSphere {F32} _ _.
Arguments m_Vertices {F32} _.
Arguments m_Indices {F32} _.

Definition FileMagic : list byte := list_byte_of_string "HRIR".

Section HrtfBuilder.
Context {F32 : Type} {fops : FLOAT_ops F32} {io : FLOAT_io F32}.

(** The loop [while (ptr != end)] of [main]: [ptr] is given by the bytes from
    it to [end].  It runs at most once for each byte left. *)
Fixpoint read_samples (fuel : nat) (ptr : list byte) (sampleSize : Z) (sampleLimit : F32)
  : run (list F32 * list F32) :=
  match ptr with
  | [] => Returns ([], [])
  | _ :: _ =>
      match fuel with
      | O => Undefined
      | S fuel' =>
          pair <~ ReadSamplePair ptr sampleSize ;;
          rest <~ read_samples fuel' (skipn (Z.to_nat (2 * sampleSize)) ptr)
                               sampleSize sampleLimit ;;
          Returns (float_div (float_of_int (fst pair)) sampleLimit :: fst rest,
                   float_div (float_of_int (snd pair)) sampleLimit :: snd rest)
      end
  end.

Definition SphericalToCartesian (azimuth elevation radius : F32) : Vec3 F32 :=
  (* Translates spherical to cartesian, where Y - up, Z - forward, X - right *)
  let x_ := float_mul (float_mul radius (float_sin elevation)) (float_sin azimuth) in
  let y_ := float_mul radius (float_cos elevation) in
  let z_ := float_mul (float_mul (float_neg radius) (float_sin elevation))
                      (float_cos azimuth) in
  mk_Vec3 x_ y_ z_.

Definition ToRadians (degrees : F32) : F32 :=
  float_mul (float_div degrees (float_of_int 180)) Pi.

Definition ParseFileName (fileName : string) : run (Vec3 F32) :=
  match index 0 "_T" fileName with
  | None => Throws "invalid file name"
  | Some azimuth_location =>
      let azimuth := float_atof (substring (azimuth_location + 2) 3 fileName) in
      match index 0 "_P" fileName with
      | None => Throws "invalid file name"
      | Some elevation_location =>
          let elevation :=
            float_sub (float_of_int 90)
                      (float_atof (substring (elevation_location + 2) 3 fileName)) in
          Returns (SphericalToCartesian (ToRadians azimuth) (ToRadians elevation)
                                        (float_of_int 1))
      end
  end.

(** The body of the loop of [main] over the entries of the folder. *)
Definition read_entry (entry : string * option (list byte)) : run (HrtfVertex F32) :=
  let path := fst entry in
  position <~ ParseFileName path ;;
  buffer <~ SoundBuffer_of path (snd entry) ;;
  limit <~ SampleLimit (m_SampleSize buffer) ;;
  let sampleLimit := float_of_int limit in
  hrirs <~ read_samples (length (m_Data buffer)) (m_Data buffer) (m_SampleSize buffer)
                        sampleLimit ;;
  Returns (mk_HrtfVertex (m_SampleRate buffer) position (fst hrirs) (snd hrirs)).

(** The loop of [HrtfSphere::Validate]. *)
Fixpoint Validate_loop (expectedHrirLen : nat) (expectedSampleRate : Z)
         (vs : list (HrtfVertex F32)) : run unit :=
  match vs with
  | [] => Returns tt
  | v :: vs' =>
      if negb (length (m_LeftHRIR v) =? expectedHrirLen)%nat
         || negb (length (m_RightHRIR v) =? expectedHrirLen)%nat
      then Throws "HRIR length must be same across all files!"
      else if negb (hv_SampleRate v =? expectedSampleRate)
      then Throws "HRIR must have same sample rate across all files!"
      else Validate_loop expectedHrirLen expectedSampleRate vs'
  end.

Definition Validate (s : HrtfSphere F32) : run unit :=
  match m_Vertices s with
  | [] => Throws "sphere is empty!"
  | v0 :: _ =>
      Validate_loop (length (m_LeftHRIR v0)) (hv_SampleRate v0) (m_Vertices s)
  end.

(** What [Save] writes for one vertex. *)
Definition vertex_bytes (v : HrtfVertex F32) : list byte :=
  float_bytes (Vec3_x (m_Position v)) ++ float_bytes (Vec3_y (m_Position v))
  ++ float_bytes (Vec3_z (m_Position v))
  ++ flat_map float_bytes (m_LeftHRIR v) ++ flat_map float_bytes (m_RightHRIR v).

(** [HrtfSphere::Save]: the bytes written to the file. *)
Definition Save (s : HrtfSphere F32) : run (list byte) :=
  match m_Vertices s with
  | [] => Undefined
  | v0 :: _ =>
      let sampleRate := hv_SampleRate v0 in
      let hrirLen := to_uint32 (Z.of_nat (length (m_LeftHRIR v0))) in
      let vertexCount := to_uint32 (Z.of_nat (length (m_Vertices s))) in
      let indexCount := to_uint32 (Z.of_nat (length (m_Indices s))) in
      Returns
        ((* Header *)
         FileMagic
         ++ WriteExact_uint 4 sampleRate
         ++ WriteExact_uint 4 hrirLen
         ++ WriteExact_uint 4 vertexCount
         ++ WriteExact_uint 4 indexCount
         (* Index buffer *)
         ++ flat_map (WriteExact_uint 4) (m_Indices s)
         (* Vertices *)
         ++ flat_map vertex_bytes (m_Vertices s))
  end.

Section Triangulate.
Context {F : Type} {ops : CH_FLOAT_ops F} {eops : CH_EXPORT_ops F} {libc : Libc}
        {conv : FLOAT_to_CH_FLOAT F32 F}.

(** [vertices]: the positions of the sphere as [ch_vertex]. *)
Definition ch_vertices (s : HrtfSphere F32) : list (ch_vertex F) :=
  map (fun v => mk_vertex (to_CH_FLOAT (Vec3_x (m_Position v)))
                          (to_CH_FLOAT (Vec3_y (m_Position v)))
                          (to_CH_FLOAT (Vec3_z (m_Position v))))
      (m_Vertices s).

(** [HrtfSphere::Triangulate]: the sphere with its indices, and the file
    [test.obj] written on the way. *)
Definition Triangulate (s : HrtfSphere F32)
  : run (HrtfSphere F32 * (string * list (obj_line F))) :=
  let vertices := ch_vertices s in
  let nVert := Z.of_nat (length vertices) in
  '(outIndices, faceCount) <~ of_outcome (convhull_3d_build (Some vertices) nVert) ;;
  let out := match outIndices with
             | Some fs => concat fs
             | None => []
             end in
  indices <~ of_outcome (mapM (lookup out) (iota (Z.to_nat (faceCount * 3)))) ;;
  file <~ of_outcome (convhull_3d_export_obj vertices nVert out faceCount false "test") ;;
  Returns (mk_HrtfSphere (m_Vertices s) (map to_uint32 indices), file).

(** [main]: [argc], whether [arcv[1]] is a directory, and the files of the
    directory in the order the iterator gives them.  Returns the bytes of
    [hrir_base.bin] and the file [test.obj]; what is thrown is what [main]
    prints on [cerr]. *)
Definition main (argc : Z) (is_directory : bool)
    (entries : list (string * option (list byte)))
  : run (list byte * (string * list (obj_line F))) :=
  if negb (argc =? 2) then Throws "no path specified"
  else if negb is_directory then Throws "path must be a folder!"
  else
    vs <~ rmapM read_entry entries ;;
    let sphere := mk_HrtfSphere vs [] in
    _ <~ Validate sphere ;;
    '(sphere, obj) <~ Triangulate sphere ;;
    output <~ Save sphere ;;
    Returns (output, obj).

End Triangulate.

End HrtfBuilder.

(** *** [float] in exact arithmetic *)

Module ExactFloat.

#[global] Instance ops : FLOAT_ops R := {|
  float_of_int := IZR;
  float_sub := Rminus;
  float_mul := Rmult;
  float_div := Rdiv;
  float_neg := Ropp;
  float_sin := sin;
  float_cos := cos;
  Pi := (31415926535 / 10000000000)%R
|}.

#[global] Instance conv : FLOAT_to_CH_FLOAT R R := {| to_CH_FLOAT := fun v => v |}.

End ExactFloat.

(** *** A reading and a writing of [float] for the examples *)

Module SimpleFloatIO.

(** The value of the decimal digits a string starts with. *)
Fixpoint digits_value (acc : Z) (s : string) : Z :=
  match s with
  | EmptyString => acc
  | String c s' =>
      let n := Z.of_N (N_of_ascii c) in
      if (48 <=? n) && (n <=? 57) then digits_value (10 * acc + (n - 48)) s' else acc
  end.

(** Whole numbers are read, and every object is written as four zero
    bytes. *)
Definition whole_numbers : FLOAT_io R := {|
  float_atof := fun s => IZR (digits_value 0 s);
  float_bytes := fun _ => ["000"; "000"; "000"; "000"]%byte
|}.

End SimpleFloatIO.

(** *** A folder for the examples *)

Module HrtfExamples.

(** A wav file of one pair of 8-bit samples: 16 and -16. *)
Definition wav8 : list byte :=
  list_byte_of_string "RIFF" ++ le_bytes 4 38 ++ list_byte_of_string "WAVE"
  ++ list_byte_of_string "fmt " ++ le_bytes 4 16 ++ le_bytes 2 1 ++ le_bytes 2 2
  ++ le_bytes 4 44100 ++ le_bytes 4 88200 ++ le_bytes 2 2 ++ le_bytes 2 8
  ++ list_byte_of_string "data" ++ le_bytes 4 2 ++ [byte_of 16; byte_of 240].

Definition entry (name : string) : string * option (list byte) := (name, Some wav8).

Definition folder1 : list (string * option (list byte)) :=
  [entry "IRC_1002_C_R0195_T000_P000.wav"].

Definition folder3 : list (string * option (list byte)) :=
  [entry "IRC_1002_C_R0195_T000_P000.wav"; entry "IRC_1002_C_R0195_T090_P000.wav";
   entry "IRC_1002_C_R0195_T000_P090.wav"].

(** Three vertices and one face, in exact arithmetic. *)
Definition triangle : list (ch_vertex R) :=
  [mk_vertex 0 0 0; mk_vertex 1 0 0; mk_vertex 0 1 0]%R.

(** A sphere of one vertex, as [main] builds it from [folder1]. *)
Definition sphere1 : HrtfSphere R :=
  mk_HrtfSphere [mk_HrtfVertex 44100 (mk_Vec3 0 0 1) [16 / 127] [- 16 / 127]]%R [].

End HrtfExamples.

(* ------------------------------------------------------------------ *)
(** ** [extractVerticesFromObjFile] *)

(** [atof] into a [CH_FLOAT]. *)
Class CH_ATOF (F : Type) : Type := {
  atof : list ascii -> F
}.

(** [a[i] = x] for an [int] index [i]. *)
Definition store {A : Type} (a : list A) (i : Z) (x : A) : outcome (list A) :=
  if (i <? 0) || (Z.of_nat (length a) <=? i) then Fault
  else Ok (firstn (Z.to_nat i) a ++ x :: skipn (S (Z.to_nat i)) a).

(** [fgets(line, size, f)] on a file that is not at its end: the characters
    up to and including the first newline, [room = size - 1] of them at
    most, and what is left of the file. *)
Fixpoint fgets_chars (room : nat) (f : list ascii) : list ascii * list ascii :=
  match room, f with
  | S room', c :: f' =>
      if Ascii.eqb c "010" then ([c], f')
      else let (l, r) := fgets_chars room' f' in (c :: l, r)
  | _, _ => ([], f)
  end.

Definition fgets (size : nat) (f : list ascii) : option (list ascii * list ascii) :=
  match f with
  | [] => None
  | _ :: _ => Some (fgets_chars (size - 1) f)
  end.

(** The string a buffer holds: its characters before the first zero. *)
Fixpoint c_str (buf : list ascii) : list ascii :=
  match buf with
  | [] => []
  | c :: buf' => if Ascii.eqb c "000" then [] else c :: c_str buf'
  end.

(** The strings [line] of the loop [while (fgets(line, sizeof(line),
    obj_file))], [line] being an array of 256 characters.  Every [fgets]
    takes a character at least, so the loop runs at most once for each
    character of the file. *)
Fixpoint read_lines (fuel : nat) (f : list ascii) : list (list ascii) :=
  match fuel with
  | O => []
  | S fuel' =>
      match fgets 256 f with
      | None => []
      | Some (line, f') => c_str line :: read_lines fuel' f'
      end
  end.

(** [strstr(line, "v ") != NULL] *)
Fixpoint vexists (line : list ascii) : bool :=
  match line with
  | a :: ((b :: _) as line') =>
      (Ascii.eqb a "v" && Ascii.eqb b " ") || vexists line'
  | _ => false
  end.

(** [isdigit], in the C locale; the characters above 127 are no digits. *)
Definition isdigit (c : ascii) : bool :=
  (48 <=? nat_of_ascii c)%nat && (nat_of_ascii c <=? 57)%nat.

(** [isdigit(line[j])||line[j]=='.'||line[j]=='-'||line[j]=='+'||line[j]=='E'||line[j]=='e'] *)
Definition number_char (c : ascii) : bool :=
  isdigit c || Ascii.eqb c "." || Ascii.eqb c "-" || Ascii.eqb c "+"
  || Ascii.eqb c "E" || Ascii.eqb c "e".

(** A vertex as [malloc] leaves it: no coordinate is written. *)
Definition blank {F : Type} : list (option F) := [None; None; None].

Section ExtractVertices.
Context {F : Type} {A : CH_ATOF F}.

(** The loop [for(size_t j=0; j<strlen(line)-1; j++)] from [j] on: [line] is
    given from [line[j]] on, and [v] is [( *out_vertices)[i].v], where [None]
    is a coordinate that is as [malloc] left it.  The result is [None] after
    "not a valid file", and otherwise what [vert_char] and [v] hold at the
    end.  [vert_char] is an array of 256 characters that ends with a zero;
    [v] has three elements, so that a store into [v[3]] or [v[4]] is a store
    outside [v]. *)
Fixpoint scan_line (line vert_char : list ascii) (prev_char_isDigit : bool) (vertID : Z)
    (v : list (option F)) : outcome (option (list ascii * list (option F))) :=
  match line with
  | [] => Fault                            (* strlen(line)-1 wraps around *)
  | c :: line' =>
      match line' with
      | [] => Ok (Some (vert_char, v))     (* j = strlen(line)-1 *)
      | _ :: after =>
          let current_char_isDigit := number_char c in
          vert_char <- (if current_char_isDigit
                        then if (length vert_char <? 255)%nat
                             then Ok (vert_char ++ [c])
                             else Fault
                        else Ok vert_char) ;;
          if (prev_char_isDigit && negb current_char_isDigit)
             || (match after with [] => true | _ :: _ => false end)
          then
            let vertID := vertID + 1 in
            if vertID >? 4 then
              (* not a valid file *)
              Ok None
            else
              v <- store v vertID (Some (atof vert_char)) ;;
              scan_line line' [] current_char_isDigit vertID v
          else scan_line line' vert_char current_char_isDigit vertID v
      end
  end.

(** The second loop over the lines, from vertex [i] on. *)
Fixpoint extract_loop (lines : list (list ascii)) (i : Z) (vert_char : list ascii)
    (out_vertices : list (list (option F))) : outcome (option (list (list (option F)))) :=
  match lines with
  | [] => Ok (Some out_vertices)
  | line :: lines' =>
      if vexists line then
        v <- lookup out_vertices i ;;
        r <- scan_line line vert_char false (-1) v ;;
        match r with
        | None => Ok None
        | Some (vert_char, v) =>
            out_vertices <- store out_vertices i v ;;
            extract_loop lines' (i + 1) vert_char out_vertices
        end
      else extract_loop lines' i vert_char out_vertices
  end.

(** [extractVerticesFromObjFile]: [file] is the content of the file
    [obj_filename.obj], or [None] when it cannot be opened.  Returns the file
    name as [strcat] leaves it in the caller's array (which is taken to have
    room for it), [*out_vertices] ([None] for [NULL]; the empty list is what
    [malloc] returns for no vertex at all) and [*out_nVert]. *)
Definition extractVerticesFromObjFile (obj_filename : string) (file : option (list ascii))
  : outcome (string * option (list (list (option F))) * Z) :=
  match file with
  | None => Fault
  | Some f =>
      (* determine number of vertices *)
      let lines := read_lines (length f) f in
      let nVert := length (filter vexists lines) in
      let out_vertices := repeat blank nVert in
      (* extract the vertices *)
      r <- extract_loop lines 0 [] out_vertices ;;
      match r with
      | None => Ok ((obj_filename ++ ".obj")%string, None, 0)
      | Some out_vertices =>
          Ok ((obj_filename ++ ".obj")%string, Some out_vertices, Z.of_nat nVert)
      end
  end.

End ExtractVertices.

(** The line that [convhull_3d_export_obj] writes for a vertex, the three
    numbers as [%f] prints them being [a], [b] and [c]. *)
Definition vertex_text (a b c : list ascii) : list ascii :=
  list_ascii_of_string "v " ++ a ++ list_ascii_of_string " " ++ b
  ++ list_ascii_of_string " " ++ c ++ ["010"%char].

(** A number as [line[j]] is tested for: one character at least, all of them
    digits, signs, points or exponent letters. *)
Definition number_token (t : list ascii) : bool :=
  negb (length t =? 0)%nat && forallb number_char t.

(** A line of a text file that holds no vertex: it ends with its only
    newline, has no zero character and fits in [line]. *)
Definition plain_line (l : list ascii) : bool :=
  match rev l with
  | [] => false
  | last :: body =>
      Ascii.eqb last "010"
      && forallb (fun c => negb (Ascii.eqb c "010") && negb (Ascii.eqb c "000")) body
      && negb (vexists l) && (length l <=? 255)%nat
  end.

(** The lines of an obj file as [convhull_3d_export_obj] writes it: vertex
    lines, and lines that hold no vertex. *)
Inductive text_line : Type :=
| other_line (l : list ascii)
| vertex_line (a b c : list ascii).

Definition line_text (l : text_line) : list ascii :=
  match l with
  | other_line l => l
  | vertex_line a b c => vertex_text a b c
  end.

Definition line_ok (l : text_line) : bool :=
  match l with
  | other_line l => plain_line l
  | vertex_line a b c =>
      number_token a && number_token b && number_token c
      && (length (vertex_text a b c) <=? 255)%nat
  end.

(** The vertex a line holds, every coordinate read by [atof]. *)
Definition line_vertex {F : Type} {A : CH_ATOF F} (l : text_line) : list (list (option F)) :=
  match l with
  | other_line _ => []
  | vertex_line a b c => [[Some (atof a); Some (atof b); Some (atof c)]]
  end.

Definition no_newline (c : ascii) : bool := negb (Ascii.eqb c "010").
Definition no_zero (c : ascii) : bool := negb (Ascii.eqb c "000").

(** A line that [fgets] returns whole: it ends with its only newline, has
    no zero character and at most 255 characters. *)
Definition whole_line (l : list ascii) : Prop :=
  exists body,
    l = body ++ ["010"%char]
    /\ forallb no_newline body = true
    /\ forallb no_zero body = true
    /\ (length l <= 255)%nat.

(** *** An obj file for the examples *)

Module ObjExamples.

(** [atof] on whole numbers. *)
#[global] Instance whole_numbers : CH_ATOF R := {|
  atof := fun s => IZR (SimpleFloatIO.digits_value 0 (string_of_list_ascii s))
|}.

Definition text (s : string) : list ascii := list_ascii_of_string s.

(** A triangle, as [convhull_3d_export_obj] writes it. *)
Definition triangle_obj : list text_line :=
  [other_line (text "o" ++ ["010"%char]);
   vertex_line (text "0.000000") (text "0.000000") (text "0.000000");
   vertex_line (text "1.000000") (text "0.000000") (text "0.000000");
   vertex_line (text "0.000000") (text "1.000000") (text "0.000000");
   other_line (text "vn 0.000000 0.000000 1.000000" ++ ["010"%char]);
   other_line (text "f 1//1 2//1 3//1" ++ ["010"%char])].

End ObjExamples.

(* ================================================================== *)
(** * Properties *)

(** ** The guard on the number of vertices *)

Section Guard.
Context {F : Type} {ops : CH_FLOAT_ops F} {libc : Libc}.

(** With fewer than three vertices, or no vertex array, the result is the
    empty hull and nothing else is run. *)
Lemma build_guard (in_vertices : option (list (ch_vertex F))) (nVert : Z) :
  nVert < 3 \/ in_vertices = None ->
  convhull_3d_build in_vertices nVert = Ok (None, 0).
Proof.
  intros [H | ->]; [| reflexivity].
  destruct in_vertices as [vs |]; [| reflexivity].
  unfold convhull_3d_build.
  apply Z.ltb_lt in H. now rewrite H.
Qed.

Lemma lookup_beyond {A : Type} (a : list A) (i : Z) :
  Z.of_nat (length a) <= i -> lookup a i = Fault.
Proof.
  intros H. unfold lookup.
  destruct (i <? 0); [reflexivity |].
  destruct (nth_error a (Z.to_nat i)) eqn:E; [| reflexivity].
  assert (Hlt : (Z.to_nat i < length a)%nat)
    by (apply nth_error_Some; congruence).
  lia.
Qed.

(** Three vertices pass the guard, and the simplex reads row 3 of the three
    rows of [points]. *)
Lemma build_three_vertices (v0 v1 v2 : ch_vertex F) :
  convhull_3d_build (Some [v0; v1; v2]) 3 = Fault.
Proof. reflexivity. Qed.

End Guard.

(** C1 (the code departs from the claim at N = 3): called on three points,
    [convhull_3d_build] does not return the empty hull; the guard [nVert<3]
    lets the call through and building the simplex reads the fourth row of
    a three-row [points] array. *)
Theorem C1_three_points_not_empty_hull :
  let V x y z := mk_vertex (Binary64.int_to_double x) (Binary64.int_to_double y)
                           (Binary64.int_to_double z) in
  @convhull_3d_build _ Binary64.ops (SimpleLibc.constant_rand 0 32767)
    (Some [V 0 0 0; V 1 0 0; V 0 1 0]) 3 = Fault
  /\ @convhull_3d_build _ Binary64.ops (SimpleLibc.constant_rand 0 32767)
       (Some [V 0 0 0; V 1 0 0; V 0 1 0]) 3 <> Ok (None, 0).
Proof.
  cbv zeta. rewrite build_three_vertices. split; [reflexivity | discriminate].
Qed.

(** ** The insertion sort meets the contract of [qsort] *)

Section InsertionSort.
Context {A : Type} (cmp : A -> A -> Z).

Lemma insert_perm (x : A) (l : list A) :
  Permutation (x :: l) (SimpleLibc.insert cmp x l).
Proof.
  induction l as [| y l IH]; simpl; [apply Permutation_refl |].
  destruct (cmp x y <=? 0); [apply Permutation_refl |].
  eapply perm_trans; [apply perm_swap | apply perm_skip, IH].
Qed.

Lemma isort_perm (l : list A) : Permutation l (SimpleLibc.isort cmp l).
Proof.
  induction l as [| x l IH]; simpl; [constructor |].
  eapply perm_trans; [apply perm_skip, IH | apply insert_perm].
Qed.

Lemma insert_in (x y : A) (l : list A) :
  In y (SimpleLibc.insert cmp x l) -> y = x \/ In y l.
Proof.
  intros H. apply (Permutation_in _ (Permutation_sym (insert_perm x l))) in H.
  destruct H as [<- | H]; auto.
Qed.

Lemma insert_sorted (x : A) (l : list A) :
  (forall a b, In a (x :: l) -> In b (x :: l) -> cmp a b <= 0 \/ cmp b a <= 0) ->
  (forall a b c, In a (x :: l) -> In b (x :: l) -> In c (x :: l) ->
                 cmp a b <= 0 -> cmp b c <= 0 -> cmp a c <= 0) ->
  StronglySorted (fun a b => cmp a b <= 0) l ->
  StronglySorted (fun a b => cmp a b <= 0) (SimpleLibc.insert cmp x l).
Proof.
  intros Htot Htrans Hs. induction Hs as [| y l Hs IH Hall]; simpl.
  - repeat constructor.
  - destruct (cmp x y <=? 0) eqn:E.
    + apply Z.leb_le in E. constructor; [now constructor |].
      constructor; [assumption |]. apply Forall_forall. intros z Hz.
      apply (Htrans x y z); simpl; auto.
      now apply (proj1 (Forall_forall _ _) Hall).
    + apply Z.leb_gt in E. constructor.
      * apply IH.
        -- intros a b Ha Hb. apply Htot; simpl in *; tauto.
        -- intros a b c Ha Hb Hc. apply Htrans; simpl in *; tauto.
      * apply Forall_forall. intros z Hz. apply insert_in in Hz as [-> | Hz].
        -- destruct (Htot x y); simpl; auto. lia.
        -- now apply (proj1 (Forall_forall _ _) Hall).
Qed.

Lemma isort_sorted (l : list A) :
  (forall a b, In a l -> In b l -> cmp a b <= 0 \/ cmp b a <= 0) ->
  (forall a b c, In a l -> In b l -> In c l ->
                 cmp a b <= 0 -> cmp b c <= 0 -> cmp a c <= 0) ->
  StronglySorted (fun a b => cmp a b <= 0) (SimpleLibc.isort cmp l).
Proof.
  induction l as [| x l IH]; intros Htot Htrans; simpl; [constructor |].
  assert (Hin : forall a, In a (x :: SimpleLibc.isort cmp l) -> In a (x :: l)).
  { intros a [<- | Ha]; [now left | right].
    now apply (Permutation_in _ (Permutation_sym (isort_perm l))). }
  apply insert_sorted.
  - intros a b Ha Hb. apply Htot; now apply Hin.
  - intros a b c Ha Hb Hc. apply Htrans; now apply Hin.
  - apply IH.
    + intros a b Ha Hb. apply Htot; now right.
    + intros a b c Ha Hb Hc. apply Htrans; now right.
Qed.

End InsertionSort.

Lemma constant_rand_spec (r rand_max : Z) :
  LibcSpec (SimpleLibc.constant_rand r rand_max).
Proof.
  split; simpl.
  - intros A cmp l. apply isort_perm.
  - intros A cmp l Htot Htrans. now apply isort_sorted.
Qed.

(** ** The orientation fix *)

Section Orientation.
Context {F : Type} {ops : CH_FLOAT_ops F} {libc : Libc}.

Lemma orient_fix_not_negative (v : F) (fc : ch_face F) :
  flt v fzero = false -> orient_fix v fc = fc.
Proof. intros H. unfold orient_fix. now rewrite H. Qed.

Lemma orient_fix_negative (v : F) (fc : ch_face F) :
  flt v fzero = true ->
  orient_fix v fc = mk_face (flip_face (fverts fc)) (map fneg (fcf fc)) (fneg (fdf fc)).
Proof. intros H. unfold orient_fix. now rewrite H. Qed.

(** C10: a face whose orientation determinant [v] is not negative comes out
    of the orientation fix with the same vertex order, normal and offset; this
    holds for the fix itself, for the round of the simplex loop that applies
    it, and for the round of the retriangulation loop that applies it. *)
Theorem C10_orientation_fix_keeps_oriented_face
    (points : list (list F)) (fc : ch_face F) (v : F) :
  flt v fzero = false ->
  orient_fix v fc = fc
  /\ (forall k A,
         simplex_matrix points (fverts fc) k = Ok A -> det_4x4 A = v ->
         orient_simplex_face points k fc = Ok fc)
  /\ (forall nFaces_ rest,
         find_ref points (fverts fc) (candidates nFaces_ (fverts fc)) fzero
         = Ok (v, rest) ->
         orient_new_face points nFaces_ fc = Ok fc).
Proof.
  intros Hv. split; [now apply orient_fix_not_negative |]. split.
  - intros k A HA Hdet. unfold orient_simplex_face. rewrite HA. simpl.
    rewrite Hdet. now rewrite orient_fix_not_negative.
  - intros n rest Hfind. unfold orient_new_face. rewrite Hfind. simpl.
    rewrite Hv. now rewrite orient_fix_not_negative.
Qed.

End Orientation.

(** A tetrahedron: face [1;2;3] is built outward, its determinant against
    point 0 is positive. *)
Lemma C10_witness :
  let V x y z := [Binary64.int_to_double x; Binary64.int_to_double y;
                  Binary64.int_to_double z; 1%float] in
  let points := [V 0 0 0; V 1 0 0; V 0 1 0; V 0 0 1] in
  let fc := mk_face [1; 2; 3] [1%float; 1%float; 1%float] (-1)%float in
  @orient_fix _ Binary64.ops 1%float fc = fc
  /\ @orient_simplex_face _ Binary64.ops points 0 fc = Ok fc.
Proof.
  cbv zeta.
  pose proof (@C10_orientation_fix_keeps_oriented_face _ Binary64.ops
                (SimpleLibc.constant_rand 0 32767)
                [[0%float; 0%float; 0%float; 1%float];
                 [1%float; 0%float; 0%float; 1%float];
                 [0%float; 1%float; 0%float; 1%float];
                 [0%float; 0%float; 1%float; 1%float]]
                (mk_face [1; 2; 3] [1%float; 1%float; 1%float] (-1)%float)
                1%float eq_refl) as [H1 [H2 _]].
  split; [exact H1 |].
  apply (H2 0 [1%float; 0%float; 0%float; 1%float;
               0%float; 1%float; 0%float; 1%float;
               0%float; 0%float; 1%float; 1%float;
               0%float; 0%float; 0%float; 1%float]); reflexivity.
Defined.

(** ** Visibility classification *)

Section Classification.
Context {F : Type} {ops : CH_FLOAT_ops F} {libc : Libc}.
Local Open Scope ch_scope.

(** [points_cf[j] + df[j]] is the product of the normal and the point, plus
    the offset. *)
Lemma visible_score (p0 p1 p2 c0 c1 c2 : F) :
  points_cf [p0; p1; p2] [c0; c1; c2] = fzero + p0 * c0 + p1 * c1 + p2 * c2.
Proof. reflexivity. Qed.

Lemma visible_flag_spec (points_s : list F) (fc : ch_face F) :
  visible_flag points_s fc = 1%Z
  <-> (fzero <? points_cf points_s (fcf fc) + fdf fc) = true.
Proof.
  unfold visible_flag.
  destruct (fzero <? points_cf points_s (fcf fc) + fdf fc);
    split; intros H; try reflexivity; discriminate.
Qed.

Lemma visible_flag_01 (points_s : list F) (fc : ch_face F) :
  visible_flag points_s fc = 0%Z \/ visible_flag points_s fc = 1%Z.
Proof.
  unfold visible_flag.
  destruct (fzero <? points_cf points_s (fcf fc) + fdf fc); auto.
Qed.

Lemma count_ones_acc (flags : list Z) (n : Z) :
  fold_left (fun n x => if (x =? 1)%Z then (n + 1)%Z else n) flags n
  = (n + count_ones flags)%Z.
Proof.
  unfold count_ones. revert n.
  induction flags as [| x flags IH]; intros n; simpl; [lia |].
  rewrite IH. rewrite (IH (if (x =? 1)%Z then 1%Z else 0%Z)).
  destruct (x =? 1)%Z; lia.
Qed.

Lemma count_ones_cons (x : Z) (flags : list Z) :
  count_ones (x :: flags)
  = ((if (x =? 1)%Z then 1 else 0) + count_ones flags)%Z.
Proof.
  unfold count_ones at 1. simpl. rewrite count_ones_acc.
  destruct (x =? 1)%Z; lia.
Qed.

Lemma count_ones_nonneg (flags : list Z) : (0 <= count_ones flags)%Z.
Proof.
  induction flags as [| x flags IH]; [unfold count_ones; simpl; lia |].
  rewrite count_ones_cons. destruct (x =? 1)%Z; lia.
Qed.

Lemma count_ones_zero (flags : list Z) :
  count_ones flags = 0%Z <-> (forall x, In x flags -> x <> 1%Z).
Proof.
  induction flags as [| x flags IH].
  - split; [intros _ y [] | reflexivity].
  - rewrite count_ones_cons. pose proof (count_ones_nonneg flags) as Hn.
    split.
    + intros H y [<- | Hy].
      * destruct (Z.eqb_spec x 1); [lia | assumption].
      * apply IH; [| assumption]. destruct (x =? 1)%Z; lia.
    + intros H. destruct (Z.eqb_spec x 1) as [-> | _].
      * exfalso. now apply (H 1%Z); [left |].
      * apply proj2 in IH. rewrite IH; [reflexivity |].
        intros y Hy. apply H. now right.
Qed.

Lemma map_nth_seq {A : Type} (l : list A) (dflt : A) :
  map (fun j => nth j l dflt) (seq 0 (length l)) = l.
Proof.
  induction l as [| x l IH]; [reflexivity |].
  simpl. rewrite <- seq_shift, map_map. now rewrite IH.
Qed.

(** The deletion of the selected point: every entry moves one place down. *)
Lemma pop_front (l : list Z) :
  map (fun j => nth (j + 1) l 0%Z) (seq 0 (length l - 1)) = tl l.
Proof.
  destruct l as [| x l]; [reflexivity |].
  simpl length. rewrite Nat.sub_succ, Nat.sub_0_r. simpl tl.
  rewrite <- (map_nth_seq l 0%Z) at 2. apply map_ext.
  intros j. now rewrite Nat.add_1_r.
Qed.

End Classification.

Section Discard.
Context {F : Type} {ops : CH_FLOAT_ops F} {libc : Libc}.
Local Open Scope ch_scope.

(** C4: a face is classified visible exactly when the product of its normal
    and the point, plus its offset, is greater than zero; and when no face is
    visible the iteration returns the mesh it found: the same vertex indices,
    plane coefficients, offsets and face count.  Only the point is removed
    from the queue. *)
Theorem C4_no_visible_face_leaves_the_mesh
    (points : list (list F)) (st : hull_state F) (row : list F) :
  lookup points (nth 0 (pleft st) 0%Z) = Ok row ->
  (forall fc, visible_flag (firstn 3 row) fc = 1%Z
              <-> (fzero <? points_cf (firstn 3 row) (fcf fc) + fdf fc) = true)
  /\ ((forall fc, In fc (mesh st) ->
                  (fzero <? points_cf (firstn 3 row) (fcf fc) + fdf fc) = false) ->
      exists st', iteration points st = Ok st'
                  /\ mesh st' = mesh st
                  /\ faces st' = faces st /\ cf st' = cf st /\ df st' = df st
                  /\ nFaces st' = nFaces st
                  /\ pleft st' = tl (pleft st)
                  /\ FUCKED st' = FUCKED st).
Proof.
  intros Hrow. split; [intros fc; apply visible_flag_spec |].
  intros Hnone.
  assert (Hcount : count_ones (map (visible_flag (firstn 3 row)) (mesh st)) = 0%Z).
  { apply count_ones_zero. intros x Hx.
    apply in_map_iff in Hx as [fc [<- Hfc]].
    intros Hvis. apply visible_flag_spec in Hvis.
    rewrite (Hnone fc Hfc) in Hvis. discriminate. }
  unfold iteration. rewrite Hrow. cbn [bind]. rewrite Hcount. cbn [Z.eqb].
  eexists. split; [reflexivity |]. simpl.
  repeat split; try reflexivity. apply pop_front.
Qed.

End Discard.

(** Point 4 of [tetra5] is inside the tetrahedron of points 0 to 3. *)
Lemma C4_witness :
  exists st', @iteration _ Binary64.ops Examples.libc0
                Examples.tetra5_points Examples.tetra5_state = Ok st'
              /\ mesh st' = mesh Examples.tetra5_state.
Proof.
  destruct (@C4_no_visible_face_leaves_the_mesh _ Binary64.ops Examples.libc0
              Examples.tetra5_points Examples.tetra5_state
              [1%float; 1%float; 1%float; 1%float] eq_refl) as [_ H].
  destruct H as [st' [H1 [H2 _]]].
  - intros fc Hfc. simpl in Hfc.
    repeat (destruct Hfc as [<- | Hfc]; [vm_compute; reflexivity |]).
    destruct Hfc.
  - exists st'. split; assumption.
Defined.

(** ** The perturbation of the input points *)

Section Perturbation.
Context {F : Type} {ops : CH_FLOAT_ops F} {libc : Libc}.
Local Open Scope ch_scope.

Lemma point_rows_nth_error (vs : list (ch_vertex F)) (s i : nat) :
  nth_error (map (fun iv => point_row (fst iv) (snd iv))
                 (combine (seq s (length vs)) vs)) i
  = option_map (point_row (s + i)) (nth_error vs i).
Proof.
  revert s i. induction vs as [| v vs IH]; intros s i.
  - now destruct i.
  - destruct i as [| i]; simpl.
    + now rewrite Nat.add_0_r.
    + rewrite IH. now rewrite Nat.add_succ_r.
Qed.

(** Row [i] of [points] is vertex [i] with one call of [rand] per coordinate. *)
Lemma make_points_nth_error (vs : list (ch_vertex F)) (i : nat) :
  nth_error (make_points vs) i = option_map (point_row i) (nth_error vs i).
Proof. unfold make_points. now rewrite point_rows_nth_error. Qed.

Lemma make_points_length (vs : list (ch_vertex F)) :
  length (make_points vs) = length vs.
Proof.
  unfold make_points. rewrite length_map, length_combine, length_seq.
  apply Nat.min_id.
Qed.

Lemma point_row_coordinate (i j : nat) (v : ch_vertex F) :
  (j < 3)%nat -> at_ (point_row i v) j = at_ (v_ v) j + noise (i * 3 + j).
Proof.
  intros Hj. destruct j as [| [| [| j]]]; try reflexivity. lia.
Qed.

End Perturbation.

(** In exact arithmetic the offset lies between 0 and [CH_NOISE_VAL]. *)
Lemma noise_between (L : Libc) (n : nat) :
  (0 < RAND_MAX)%Z -> (0 <= rand n <= RAND_MAX)%Z ->
  (0 <= @noise R Exact.ops L n <= 1 / 10000000)%R.
Proof.
  intros HM [Hr0 HrM]. unfold noise. simpl.
  apply IZR_lt in HM. apply IZR_le in Hr0, HrM.
  set (r := IZR (rand n)) in *. set (m := IZR RAND_MAX) in *.
  assert (Hq : (0 <= r / m <= 1)%R).
  { split.
    - apply Rmult_le_pos; [assumption |].
      left. now apply Rinv_0_lt_compat.
    - apply (Rmult_le_reg_r m); [assumption |].
      unfold Rdiv. rewrite Rmult_assoc, Rinv_l; lra. }
  replace (1 / 10000000 * r / m)%R with (1 / 10000000 * (r / m))%R
    by (unfold Rdiv; ring).
  lra.
Qed.




(** ** The initial simplex *)

Section Simplex.
Context {F : Type} {ops : CH_FLOAT_ops F} {libc : Libc}.
Local Open Scope ch_scope.

Lemma lookup_nth_error {A : Type} (a : list A) (i : nat) (x : A) :
  nth_error a i = Some x -> lookup a (Z.of_nat i) = Ok x.
Proof.
  intros H. unfold lookup.
  destruct (Z.ltb_spec (Z.of_nat i) 0); [lia |].
  now rewrite Nat2Z.id, H.
Qed.

(** The simplex of a [points] array with at least four rows: face [k] omits
    point [k], has the plane through its three points, and has gone through
    the orientation fix with its determinant against point [k]. *)
Lemma simplex_of_rows (r0 r1 r2 r3 : list F) (rest : list (list F)) :
  let points := r0 :: r1 :: r2 :: r3 :: rest in
  let built ra rb rc f :=
    mk_face f (fst (plane_3d (concat (map (firstn 3) [ra; rb; rc]))))
              (snd (plane_3d (concat (map (firstn 3) [ra; rb; rc])))) in
  simplex points
  = Ok [orient_fix (det_4x4 (concat [r1; r2; r3] ++ r0)) (built r1 r2 r3 [1; 2; 3]%Z);
        orient_fix (det_4x4 (concat [r0; r2; r3] ++ r1)) (built r0 r2 r3 [0; 2; 3]%Z);
        orient_fix (det_4x4 (concat [r0; r1; r3] ++ r2)) (built r0 r1 r3 [0; 1; 3]%Z);
        orient_fix (det_4x4 (concat [r0; r1; r2] ++ r3)) (built r0 r1 r2 [0; 1; 2]%Z)]
  /\ simplex_det points 0 = Ok (det_4x4 (concat [r1; r2; r3] ++ r0))
  /\ simplex_det points 1 = Ok (det_4x4 (concat [r0; r2; r3] ++ r1))
  /\ simplex_det points 2 = Ok (det_4x4 (concat [r0; r1; r3] ++ r2))
  /\ simplex_det points 3 = Ok (det_4x4 (concat [r0; r1; r2] ++ r3)).
Proof. cbv zeta. repeat split; reflexivity. Qed.

End Simplex.

(** ** A degenerate simplex *)

Section Degenerate.
Context {F : Type} {ops : CH_FLOAT_ops F} {libc : Libc}.
Local Open Scope ch_scope.

Lemma sort_float_nil {LS : LibcSpec libc} (descendFLAG : bool) :
  sort_float (@nil F) descendFLAG = ([], []).
Proof.
  unfold sort_float. simpl.
  assert (H : forall cmp : float_w_idx F -> float_w_idx F -> Z, qsort cmp [] = [])
    by (intros cmp; apply Permutation_nil, qsort_perm).
  destruct descendFLAG; now rewrite H.
Qed.


End Degenerate.



(** ** The orientation of the simplex, in exact arithmetic *)

Section ExactSimplex.
Local Open Scope R_scope.

Lemma Rinv_nonneg (n : R) : 0 <= n -> 0 <= / n.
Proof.
  intros [H | <-]; [left; now apply Rinv_0_lt_compat | rewrite Rinv_0; lra].
Qed.

(** [plane_3d]: the normal is the cross product of the two edge vectors
    scaled by [s], the inverse of its length, and the offset puts the first
    point on the plane. *)
Lemma plane_3d_exact (xa ya za xb yb zb xc yc zc : R) :
  let c0 := (yb - ya) * (zc - zb) - (yc - yb) * (zb - za) in
  let c1 := (zb - za) * (xc - xb) - (zc - zb) * (xb - xa) in
  let c2 := (xb - xa) * (yc - yb) - (xc - xb) * (yb - ya) in
  exists s, 0 <= s
    /\ fst (plane_3d [xa; ya; za; xb; yb; zb; xc; yc; zc]) = [c0 * s; c1 * s; c2 * s]
    /\ snd (plane_3d [xa; ya; za; xb; yb; zb; xc; yc; zc])
       = - (xa * c0 + ya * c1 + za * c2) * s.
Proof.
  cbv zeta. unfold plane_3d. cbv zeta. cbn [fst snd].
  set (n := fsqrt _).
  exists (/ n). split; [| split].
  - apply Rinv_nonneg. subst n. apply sqrt_pos.
  - unfold plane_det, pdiff_s, pdiff, at_.
    cbn [seq filter Nat.eqb negb map nth Nat.add Nat.mul].
    simpl. f_equal; [| f_equal; [| f_equal]]; unfold Rdiv; ring.
  - unfold plane_det, pdiff_s, pdiff, at_.
    cbn [seq filter Nat.eqb negb map nth Nat.add Nat.mul].
    simpl. unfold Rdiv. ring.
Qed.

(** The determinant of three points and a fourth, with a last column of
    ones, is minus the product of the cross product above with the vector
    from the first point to the fourth. *)
Lemma det_4x4_exact (xa ya za xb yb zb xc yc zc xp yp zp : R) :
  let c0 := (yb - ya) * (zc - zb) - (yc - yb) * (zb - za) in
  let c1 := (zb - za) * (xc - xb) - (zc - zb) * (xb - xa) in
  let c2 := (xb - xa) * (yc - yb) - (xc - xb) * (yb - ya) in
  det_4x4 [xa; ya; za; 1; xb; yb; zb; 1; xc; yc; zc; 1; xp; yp; zp; 1]
  = - (c0 * (xp - xa) + c1 * (yp - ya) + c2 * (zp - za)).
Proof. cbv zeta. unfold det_4x4, at_. simpl. ring. Qed.

(** After the orientation fix the reference point does not see the face. *)
Lemma oriented_face_not_visible
    (xa ya za xb yb zb xc yc zc xp yp zp : R) (f : list Z) :
  let ra := [xa; ya; za; 1] in
  let rb := [xb; yb; zb; 1] in
  let rc := [xc; yc; zc; 1] in
  let rp := [xp; yp; zp; 1] in
  let b := mk_face f (fst (plane_3d (concat (map (firstn 3) [ra; rb; rc]))))
                     (snd (plane_3d (concat (map (firstn 3) [ra; rb; rc])))) in
  visible_flag [xp; yp; zp] (orient_fix (det_4x4 (concat [ra; rb; rc] ++ rp)) b) = 0%Z.
Proof.
  cbv zeta. cbn [concat map firstn app].
  destruct (plane_3d_exact xa ya za xb yb zb xc yc zc) as [s [Hs [Hc Hd]]].
  cbv zeta in Hc, Hd. rewrite Hc, Hd.
  rewrite det_4x4_exact.
  set (c0 := (yb - ya) * (zc - zb) - (yc - yb) * (zb - za)) in *.
  set (c1 := (zb - za) * (xc - xb) - (zc - zb) * (xb - xa)) in *.
  set (c2 := (xb - xa) * (yc - yb) - (xc - xb) * (yb - ya)) in *.
  unfold orient_fix. cbn [flt Exact.ops fzero fneg].
  unfold Exact.Rltb at 1.
  destruct (Rlt_dec _ 0) as [Hneg | Hpos];
    unfold visible_flag, points_cf, at_; cbn [fcf fdf map seq fold_left nth];
    cbn [flt Exact.ops fzero fneg fadd fmul]; unfold Exact.Rltb;
    match goal with
    | |- (if (if Rlt_dec 0 ?e then _ else _) then _ else _) = _ =>
        destruct (Rlt_dec 0 e) as [Hv | Hv]; [exfalso | reflexivity]
    end; nra.
Qed.

Lemma Rltb_true (a b : R) : Exact.Rltb a b = true <-> a < b.
Proof.
  unfold Exact.Rltb. destruct (Rlt_dec a b); split; intros; try easy.
Qed.

Lemma Rltb_false (a b : R) : Exact.Rltb a b = false <-> b <= a.
Proof.
  unfold Exact.Rltb. destruct (Rlt_dec a b); split; intros; try easy; lra.
Qed.

End ExactSimplex.

Lemma orient_fix_below_zero (v : R) (fc : ch_face R) :
  (v < 0)%R ->
  orient_fix v fc = mk_face (flip_face (fverts fc)) (map Ropp (fcf fc)) (- fdf fc)%R.
Proof. intros H. apply (@orient_fix_negative R Exact.ops). now apply Rltb_true. Qed.

Lemma orient_fix_not_below_zero (v : R) (fc : ch_face R) :
  (0 <= v)%R -> orient_fix v fc = fc.
Proof. intros H. apply (@orient_fix_not_negative R Exact.ops). now apply Rltb_false. Qed.

Ltac simplex_case Hs D :=
  eexists; eexists; eexists; eexists; eexists;
  split; [reflexivity |];
  split; [exact D |];
  split; [exact Hs |];
  split; [reflexivity |];
  split; [intros Hv; rewrite (orient_fix_below_zero _ _ Hv);
          repeat split; reflexivity |];
  split; [intros Hv; now rewrite (orient_fix_not_below_zero _ _ Hv) |];
  split; [reflexivity |];
  apply oriented_face_not_visible.




(** ** The horizon *)

Section IndexLoops.
Context {A B C D : Type}.

(** A loop over the indices of two arrays filled from the same rows, that
    keeps the indices whose first entry passes a test. *)
Lemma index_loop (h : A -> B) (g : A -> C) (l : list A) (dB : B) (dC : C)
      (P : B -> bool) (G : B -> C -> D) :
  map (fun k => G (nth k (map h l) dB) (nth k (map g l) dC))
      (filter (fun k => P (nth k (map h l) dB)) (seq 0 (length l)))
  = map (fun x => G (h x) (g x)) (filter (fun x => P (h x)) l).
Proof.
  induction l as [| a l IH]; [reflexivity |].
  cbn [length seq filter map nth].
  rewrite <- seq_shift, filter_map_swap.
  destruct (P (h a)); cbn [map nth]; rewrite map_map; cbn [nth]; now rewrite IH.
Qed.

Lemma index_loop_self (h : A -> B) (l : list A) (dB : B) (dA : A)
      (P : B -> bool) (G : B -> A -> D) :
  map (fun k => G (nth k (map h l) dB) (nth k l dA))
      (filter (fun k => P (nth k (map h l) dB)) (seq 0 (length l)))
  = map (fun x => G (h x) x) (filter (fun x => P (h x)) l).
Proof.
  induction l as [| a l IH]; [reflexivity |].
  cbn [length seq filter map nth].
  rewrite <- seq_shift, filter_map_swap.
  destruct (P (h a)); cbn [map nth]; rewrite map_map; cbn [nth]; now rewrite IH.
Qed.

Lemma select_by_map (keep : Z -> bool) (h : A -> Z) (g : A -> C) (l : list A) :
  select_by keep (map h l) (map g l) = map g (filter (fun x => keep (h x)) l).
Proof.
  unfold select_by. induction l as [| a l IH]; [reflexivity |].
  cbn [map combine filter fst]. destruct (keep (h a)); cbn [map snd]; now rewrite IH.
Qed.

End IndexLoops.

Lemma select_by_self {A : Type} (keep : Z -> bool) (h : A -> Z) (l : list A) :
  select_by keep (map h l) l = filter (fun x => keep (h x)) l.
Proof.
  rewrite <- (map_id l) at 2. rewrite select_by_map. apply map_id.
Qed.

Lemma existsb_perm {A : Type} (p : A -> bool) (l1 l2 : list A) :
  Permutation l1 l2 -> existsb p l1 = existsb p l2.
Proof.
  intros H. apply eq_true_iff_eq. rewrite !existsb_exists.
  split; intros [x [Hx Hp]]; exists x; split; try assumption.
  - now apply (Permutation_in _ H).
  - now apply (Permutation_in _ (Permutation_sym H)).
Qed.

Lemma f0_sum_acc (flags : list Z) (a : Z) :
  fold_left Z.add flags a = a + f0_sum flags.
Proof.
  unfold f0_sum. revert a. induction flags as [| x flags IH]; intros a; simpl; [lia |].
  rewrite IH, (IH x). lia.
Qed.

(** The flags of [ismember] add up to the number of shared vertices. *)
Lemma f0_sum_ismember (g f : list Z) :
  f0_sum (ismember g f) = Z.of_nat (length (shared_vertices g f)).
Proof.
  unfold ismember, shared_vertices.
  induction g as [| x g IH]; [reflexivity |].
  unfold f0_sum in *. cbn [map fold_left filter].
  rewrite f0_sum_acc. unfold f0_sum. rewrite IH.
  destruct (existsb (Z.eqb x) f); cbn [length]; lia.
Qed.

Lemma select_ismember (g f : list Z) :
  select_by (fun b => negb (b =? 0)) (ismember g f) g = shared_vertices g f.
Proof.
  unfold ismember. rewrite select_by_self. unfold shared_vertices.
  apply filter_ext. intros x. now destruct (existsb (Z.eqb x) f).
Qed.

Section Horizon.
Context {F : Type} {ops : CH_FLOAT_ops F} {libc : Libc} {LS : LibcSpec libc}.

Lemma sort_int_perm (in_vec : list Z) (descendFLAG : bool) :
  Permutation in_vec (fst (sort_int in_vec descendFLAG)).
Proof.
  unfold sort_int. cbn [fst].
  set (data := map (fun vi => mk_int_w_idx (fst vi) (snd vi))
                   (combine in_vec (iota (length in_vec)))).
  assert (Hdata : map iw_val data = in_vec).
  { subst data. rewrite map_map. cbn [iw_val]. unfold iota.
    generalize 0. induction in_vec as [| x l IH]; intros s; [reflexivity |].
    cbn [length iota_from map combine fst]. now rewrite IH. }
  rewrite <- Hdata at 1. apply Permutation_map.
  destruct descendFLAG; apply qsort_perm.
Qed.

Lemma ismember_sorted (g f : list Z) (descendFLAG : bool) :
  ismember g (fst (sort_int f descendFLAG)) = ismember g f.
Proof.
  unfold ismember. apply map_ext. intros x.
  now rewrite (existsb_perm _ _ _ (Permutation_sym (sort_int_perm f descendFLAG))).
Qed.

(** What one visible face adds to the horizon. *)
Lemma horizon_of_spec (face_vis : list Z) (nonvisible_faces : list (list Z)) :
  horizon_of face_vis nonvisible_faces
  = flat_map (fun g => if (length (shared_vertices g face_vis) =? 2)%nat
                       then [shared_vertices g face_vis] else [])
             nonvisible_faces.
Proof.
  unfold horizon_of.
  rewrite (index_loop_self (fun g => ismember g (fst (sort_int face_vis false)))
             nonvisible_faces [] []
             (fun flags => f0_sum flags =? d - 1)
             (fun flags gVec => select_by (fun b => negb (b =? 0)) flags gVec)).
  change (d - 1) with (Z.of_nat 2).
  induction nonvisible_faces as [| g l IH]; [reflexivity |].
  cbn [filter flat_map]. rewrite ismember_sorted, f0_sum_ismember.
  destruct (Nat.eqb_spec (length (shared_vertices g face_vis)) 2) as [E | E].
  - rewrite E, Z.eqb_refl. cbn [map app]. rewrite ismember_sorted, select_ismember.
    now rewrite IH.
  - destruct (Z.eqb_spec (Z.of_nat (length (shared_vertices g face_vis))) (Z.of_nat 2));
      [lia |]. cbn [app]. apply IH.
Qed.

End Horizon.

Lemma flat_map_map {A B C : Type} (f : B -> list C) (g : A -> B) (l : list A) :
  flat_map f (map g l) = flat_map (fun x => f (g x)) l.
Proof. induction l as [| a l IH]; [reflexivity |]. simpl. now rewrite IH. Qed.

Section HorizonOfMesh.
Context {F : Type} {ops : CH_FLOAT_ops F} {libc : Libc} {LS : LibcSpec libc}.

(** The horizon the iteration computes is the horizon of the specification,
    edge for edge and in the same order. *)
Lemma create_horizon_spec (m : list (ch_face F)) (points_s : list F) :
  create_horizon (map fverts m) (map (visible_flag points_s) m)
  = horizon_list m points_s.
Proof.
  unfold create_horizon, horizon_list, visible_indices.
  rewrite select_by_map, length_map.
  rewrite !flat_map_concat_map. f_equal.
  rewrite (index_loop (visible_flag points_s) fverts m 0 []
             (fun b => b =? 1)
             (fun _ face_vis =>
                horizon_of face_vis
                  (map fverts (filter (fun x => visible_flag points_s x =? 0) m)))).
  apply map_ext. intros V.
  rewrite horizon_of_spec, flat_map_map, flat_map_concat_map. reflexivity.
Qed.

Lemma horizon_list_in (m : list (ch_face F)) (points_s : list F) (e : list Z) :
  In e (horizon_list m points_s) <-> horizon_edge m points_s e.
Proof.
  unfold horizon_list, horizon_edge. rewrite in_flat_map. split.
  - intros [V [HV He]]. apply filter_In in HV as [HVm HVv].
    apply in_flat_map in He as [N [HN He]]. apply filter_In in HN as [HNm HNv].
    exists V, N. apply Z.eqb_eq in HVv, HNv.
    destruct (Nat.eqb_spec (length (shared_vertices (fverts N) (fverts V))) 2)
      as [E | E]; [| destruct He].
    destruct He as [<- | []]. repeat split; assumption.
  - intros [V [N [HVm [HNm [HVv [HNv [Hlen ->]]]]]]].
    exists V. split; [apply filter_In; split; [assumption | now apply Z.eqb_eq] |].
    apply in_flat_map. exists N.
    split; [apply filter_In; split; [assumption | now apply Z.eqb_eq] |].
    rewrite Hlen. now left.
Qed.

Lemma horizon_edge_length (m : list (ch_face F)) (points_s : list F) (e : list Z) :
  horizon_edge m points_s e -> length e = 2%nat.
Proof. intros [V [N [_ [_ [_ [_ [Hlen ->]]]]]]]. exact Hlen. Qed.

Lemma horizon_edge_vertices (m : list (ch_face F)) (points_s : list F) (e : list Z) (x : Z) :
  horizon_edge m points_s e -> In x e ->
  exists N, In N m /\ visible_flag points_s N = 0 /\ In x (fverts N).
Proof.
  intros [V [N [_ [HN [_ [HNv [_ ->]]]]]]] Hx.
  exists N. repeat split; try assumption.
  unfold shared_vertices in Hx. now apply filter_In in Hx as [Hx _].
Qed.

End HorizonOfMesh.

(** ** The loop that adds the new faces *)

Section AddFaces.
Context {F : Type} {ops : CH_FLOAT_ops F} {libc : Libc}.

Lemma lookup_valid {A : Type} (a : list A) (x : Z) :
  valid_index a x -> exists r, lookup a x = Ok r.
Proof.
  intros [H0 H1]. unfold lookup.
  destruct (Z.ltb_spec x 0); [lia |].
  destruct (nth_error a (Z.to_nat x)) eqn:E; [now eexists |].
  apply nth_error_None in E. lia.
Qed.

Lemma mapM_ok {A B : Type} (f : A -> outcome B) (l : list A) :
  (forall a, In a l -> exists b, f a = Ok b) ->
  exists bs, mapM f l = Ok bs /\ length bs = length l.
Proof.
  induction l as [| a l IH]; intros H; [now exists [] |].
  destruct (H a (or_introl eq_refl)) as [b Hb].
  destruct IH as [bs [Hbs Hlen]]; [intros a' Ha'; apply H; now right |].
  exists (b :: bs). simpl. rewrite Hb, Hbs. simpl. now rewrite Hlen.
Qed.

Lemma new_face_ok (points : list (list F)) (f : list Z) :
  (forall x, In x f -> valid_index points x) ->
  exists fc, new_face points f = Ok fc /\ fverts fc = f.
Proof.
  intros H. unfold new_face, face_xyz.
  destruct (mapM_ok (lookup points) f) as [rows [Hrows _]].
  { intros x Hx. now apply lookup_valid, H. }
  rewrite Hrows. simpl. eexists. split; reflexivity.
Qed.

(** The loop creates one face per horizon edge, the two vertices of the edge
    and then the new point, in the order of the horizon, until the horizon is
    exhausted or the number of faces passes [CH_MAX_NUM_FACES]. *)
Lemma add_faces_spec (points : list (list F)) (i : Z) (horizon : list (list Z)) :
  (forall e x, In e horizon -> In x e -> valid_index points x) ->
  valid_index points i ->
  forall n : Z,
  exists new n' fucked k,
    add_faces points i horizon n = Ok (new, n', fucked)
    /\ map fverts new = map (fun e => e ++ [i]) (firstn k horizon)
    /\ length new = k /\ (k <= length horizon)%nat
    /\ (fucked = false -> k = length horizon /\ n' = n + Z.of_nat (length horizon))
    /\ (fucked = true -> n' = 0 /\ CH_MAX_NUM_FACES < n + Z.of_nat k)
    /\ (n + Z.of_nat (length horizon) <= CH_MAX_NUM_FACES -> fucked = false)
    /\ (horizon <> [] -> CH_MAX_NUM_FACES < n + Z.of_nat (length horizon) ->
        fucked = true).
Proof.
  intros Hvalid Hi. induction horizon as [| e horizon IH]; intros n.
  - exists [], n, false, 0%nat. simpl.
    split; [reflexivity |]. split; [reflexivity |]. split; [reflexivity |].
    split; [lia |]. split; [intros _; split; [reflexivity | lia] |].
    split; [discriminate |]. split; [reflexivity |].
    intros H; now contradiction H.
  - destruct (new_face_ok points (e ++ [i])) as [fc [Hfc Hverts]].
    { intros x Hx. apply in_app_or in Hx as [Hx | [<- | []]]; [| assumption].
      apply (Hvalid e x); [now left | assumption]. }
    cbn [add_faces]. rewrite Hfc. cbn [bind].
    destruct (Z.ltb_spec CH_MAX_NUM_FACES (n + 1)) as [Hover | Hunder].
    + exists [fc], 0, true, 1%nat. cbn [length firstn map].
      rewrite Hverts.
      split; [reflexivity |]. split; [reflexivity |]. split; [reflexivity |].
      split; [lia |]. split; [discriminate |].
      split; [intros _; split; [reflexivity | lia] |].
      split; [intros H; lia |]. reflexivity.
    + destruct IH with (n := n + 1)
        as [new [n' [fucked [k [Hadd [Hmap [Hlen [Hk [Hfalse [Htrue [Hle Hgt]]]]]]]]]]].
      { intros e' x He' Hx. apply (Hvalid e' x); [now right | assumption]. }
      exists (fc :: new), n', fucked, (S k). rewrite Hadd.
      cbn [bind fst snd length firstn map]. rewrite Hverts, Hmap.
      split; [reflexivity |]. split; [reflexivity |]. split; [now rewrite Hlen |].
      split; [lia |].
      split; [intros H; apply Hfalse in H; lia |].
      split; [intros H; apply Htrue in H; lia |].
      split; [intros H; apply Hle; lia |].
      intros _ H. destruct horizon as [| e' horizon'].
      * cbn [length] in H. lia.
      * apply Hgt; [discriminate |]. cbn [length] in *. lia.
Qed.

End AddFaces.

Section HorizonTheorem.
Context {F : Type} {ops : CH_FLOAT_ops F} {libc : Libc}.

Lemma lookup_ok_valid {A : Type} (a : list A) (x : Z) (r : A) :
  lookup a x = Ok r -> valid_index a x.
Proof.
  unfold lookup, valid_index. destruct (Z.ltb_spec x 0); [discriminate |].
  destruct (nth_error a (Z.to_nat x)) eqn:E; [| discriminate].
  intros _. assert (Z.to_nat x < length a)%nat by (apply nth_error_Some; congruence).
  lia.
Qed.

(** C5: in an iteration with a visible face, the horizon computed is the list
    of the horizon edges of the specification (the two vertices shared by a
    visible and a not-visible face that share exactly two), and the loop that
    follows creates one face per edge of it, the two vertices of the edge
    followed by the new point; all of them unless the number of faces passes
    [CH_MAX_NUM_FACES], and the iteration goes on to orient these faces. *)
Theorem C5_horizon_and_new_faces {LS : LibcSpec libc}
    (points : list (list F)) (st : hull_state F) (row : list F) :
  lookup points (nth 0 (pleft st) 0) = Ok row ->
  count_ones (map (visible_flag (firstn 3 row)) (mesh st)) <> 0 ->
  (forall fc x, In fc (mesh st) -> In x (fverts fc) -> valid_index points x) ->
  let i := nth 0 (pleft st) 0 in
  let visible_ind := map (visible_flag (firstn 3 row)) (mesh st) in
  let horizon := create_horizon (faces st) visible_ind in
  let kept := select_by (fun b => b =? 0) visible_ind (mesh st) in
  let nFaces1 := nFaces st - count_ones visible_ind in
  (forall e, In e horizon <-> horizon_edge (mesh st) (firstn 3 row) e)
  /\ horizon = horizon_list (mesh st) (firstn 3 row)
  /\ exists new n' fucked,
      add_faces points i horizon nFaces1 = Ok (new, n', fucked)
      /\ (exists k, map fverts new = map (fun e => e ++ [i]) (firstn k horizon))
      /\ (nFaces1 + Z.of_nat (length horizon) <= CH_MAX_NUM_FACES ->
          fucked = false /\ map fverts new = map (fun e => e ++ [i]) horizon)
      /\ iteration points st
         = (oriented <- mapM (orient_new_face points n')
                          (firstn (Z.to_nat (n' - nFaces1))
                                  (skipn (Z.to_nat nFaces1) (kept ++ new))) ;;
            Ok (mk_state (firstn (Z.to_nat nFaces1) (kept ++ new) ++ oriented
                            ++ skipn (Z.to_nat nFaces1 + Z.to_nat (n' - nFaces1))
                                     (kept ++ new))
                         n' (tl (pleft st)) fucked)).
Proof.
  intros Hrow Hcount Hvalid. cbv zeta.
  assert (Hspec := create_horizon_spec (mesh st) (firstn 3 row)).
  fold (faces st) in Hspec.
  split; [intros e; rewrite Hspec; apply horizon_list_in |].
  split; [exact Hspec |].
  destruct (add_faces_spec points (nth 0 (pleft st) 0)
              (create_horizon (faces st) (map (visible_flag (firstn 3 row)) (mesh st))))
    with (n := nFaces st - count_ones (map (visible_flag (firstn 3 row)) (mesh st)))
    as [new [n' [fucked [k [Hadd [Hmap [Hlen [Hk [Hfalse [Htrue [Hle Hgt]]]]]]]]]]].
  { intros e x He Hx. rewrite Hspec in He. apply horizon_list_in in He.
    destruct (horizon_edge_vertices _ _ _ _ He Hx) as [N [HN [_ HxN]]].
    now apply (Hvalid N x). }
  { now apply lookup_ok_valid with (r := row). }
  exists new, n', fucked.
  split; [exact Hadd |]. split; [now exists k |]. split.
  - intros H. specialize (Hle H). split; [assumption |].
    destruct (Hfalse Hle) as [-> _]. now rewrite firstn_all in Hmap.
  - unfold iteration. rewrite Hrow. cbn [bind].
    destruct (Z.eqb_spec (count_ones (map (visible_flag (firstn 3 row)) (mesh st))) 0)
      as [E | _]; [contradiction |].
    rewrite Hadd. cbn [bind fst snd]. now rewrite pop_front.
Qed.

End HorizonTheorem.

(** Point 4 of [tetra_out] sees the face opposite to point 0. *)
Lemma C5_witness :
  @create_horizon Examples.libc0 (faces Examples.tetra_out_state)
    (map (@visible_flag _ Binary64.ops [4%float; 4%float; 4%float])
         (mesh Examples.tetra_out_state))
  = @horizon_list _ Binary64.ops (mesh Examples.tetra_out_state)
      [4%float; 4%float; 4%float].
Proof.
  refine (proj1 (proj2 (@C5_horizon_and_new_faces _ Binary64.ops Examples.libc0
                          (constant_rand_spec 0 32767)
                          Examples.tetra_out_points Examples.tetra_out_state
                          [4%float; 4%float; 4%float; 1%float] eq_refl _ _))).
  - vm_compute. discriminate.
  - intros fc x Hfc Hx. simpl in Hfc.
    destruct Hfc as [<- | [<- | [<- | [<- | []]]]]; simpl in Hx;
      destruct Hx as [<- | [<- | [<- | []]]]; unfold valid_index; simpl; lia.
Defined.

(** ** The state of the main loop *)

Section LoopState.
Context {F : Type} {ops : CH_FLOAT_ops F} {libc : Libc}.

Lemma mapM_Forall2 {A B : Type} (f : A -> outcome B) (l : list A) (l' : list B) :
  mapM f l = Ok l' -> Forall2 (fun a b => f a = Ok b) l l'.
Proof.
  revert l'. induction l as [| a l IH]; intros l' H; simpl in H.
  - injection H as <-. constructor.
  - destruct (f a) as [b |] eqn:Hb; [| discriminate]. simpl in H.
    destruct (mapM f l) as [bs |]; [| discriminate]. simpl in H.
    injection H as <-. constructor; [assumption | now apply IH].
Qed.

(** A round of the orientation loop returns the face or the face reversed. *)
Lemma orient_new_face_cases (points : list (list F)) (n : Z) (fc fc' : ch_face F) :
  orient_new_face points n fc = Ok fc' ->
  fc' = fc
  \/ fc' = mk_face (flip_face (fverts fc)) (map fneg (fcf fc)) (fneg (fdf fc)).
Proof.
  unfold orient_new_face.
  destruct (find_ref points (fverts fc) (candidates n (fverts fc)) fzero)
    as [[detA rest] |]; [| discriminate].
  cbn [bind fst snd]. destruct (flt detA fzero) eqn:Hneg.
  - destruct rest as [| q rest]; [discriminate |].
    destruct (simplex_matrix points (flip_face (fverts fc)) q); [| discriminate].
    cbn [bind]. intros H. injection H as <-. right.
    now apply orient_fix_negative.
  - intros H. injection H as <-. left. now apply orient_fix_not_negative.
Qed.

Lemma flip_face_in (f : list Z) (x : Z) :
  length f = 3%nat -> In x (flip_face f) -> In x f.
Proof.
  destruct f as [| a [| b [| c [| ? ?]]]]; try discriminate.
  intros _. unfold flip_face. simpl. tauto.
Qed.

Lemma kept_length (points_s : list F) (m : list (ch_face F)) :
  Z.of_nat (length (select_by (fun b => b =? 0) (map (visible_flag points_s) m) m))
  = Z.of_nat (length m) - count_ones (map (visible_flag points_s) m).
Proof.
  rewrite select_by_self.
  induction m as [| fc m IH]; [reflexivity |].
  cbn [map filter]. rewrite count_ones_cons.
  destruct (visible_flag_01 points_s fc) as [E | E]; rewrite E;
    cbn [Z.eqb Pos.eqb length]; lia.
Qed.

(** The iteration, when a face is visible. *)
Lemma iteration_visible (points : list (list F)) (st : hull_state F) (row : list F) :
  lookup points (nth 0 (pleft st) 0) = Ok row ->
  count_ones (map (visible_flag (firstn 3 row)) (mesh st)) <> 0 ->
  let i := nth 0 (pleft st) 0 in
  let visible_ind := map (visible_flag (firstn 3 row)) (mesh st) in
  let kept := select_by (fun b => b =? 0) visible_ind (mesh st) in
  let nFaces1 := nFaces st - count_ones visible_ind in
  iteration points st
  = (added <- add_faces points i (create_horizon (faces st) visible_ind) nFaces1 ;;
     oriented <- mapM (orient_new_face points (snd (fst added)))
                      (firstn (Z.to_nat (snd (fst added) - nFaces1))
                              (skipn (Z.to_nat nFaces1) (kept ++ fst (fst added)))) ;;
     Ok (mk_state (firstn (Z.to_nat nFaces1) (kept ++ fst (fst added)) ++ oriented
                     ++ skipn (Z.to_nat nFaces1 + Z.to_nat (snd (fst added) - nFaces1))
                              (kept ++ fst (fst added)))
                  (snd (fst added)) (tl (pleft st)) (snd added))).
Proof.
  intros Hrow Hcount. cbv zeta. unfold iteration. rewrite Hrow. cbn [bind].
  destruct (Z.eqb_spec (count_ones (map (visible_flag (firstn 3 row)) (mesh st))) 0)
    as [E | _]; [contradiction |].
  now rewrite pop_front.
Qed.

(** Every iteration removes the first point of the queue, and nothing else. *)
Lemma iteration_pleft (points : list (list F)) (st st' : hull_state F) :
  iteration points st = Ok st' -> pleft st' = tl (pleft st).
Proof.
  unfold iteration.
  destruct (lookup points (nth 0 (pleft st) 0)) as [row |]; [| discriminate].
  cbn [bind].
  destruct (count_ones (map (visible_flag (firstn 3 row)) (mesh st)) =? 0).
  - intros H. injection H as <-. apply pop_front.
  - destruct (add_faces _ _ _ _) as [added |]; [| discriminate]. cbn [bind].
    destruct (mapM _ _) as [oriented |]; [| discriminate]. cbn [bind].
    intros H. injection H as <-. apply pop_front.
Qed.

End LoopState.

Lemma firstn_length_app {A : Type} (a b : list A) : firstn (length a) (a ++ b) = a.
Proof. induction a as [| x a IH]; [now destruct b | simpl; now rewrite IH]. Qed.

Lemma skipn_length_app {A : Type} (a b : list A) : skipn (length a) (a ++ b) = b.
Proof. induction a as [| x a IH]; [reflexivity | exact IH]. Qed.

Section Invariant.
Context {F : Type} {ops : CH_FLOAT_ops F} {libc : Libc} {LS : LibcSpec libc}.

(** An iteration with a visible face that does not pass the ceiling: the mesh
    it leaves is the not-visible faces, in order, followed by one face per
    horizon edge, in order; each is the two vertices of the edge and the new
    point, with the last two possibly swapped by the orientation fix. *)
Lemma iteration_spec (points : list (list F)) (st st' : hull_state F) (row : list F) :
  state_inv points st ->
  lookup points (nth 0 (pleft st) 0) = Ok row ->
  count_ones (map (visible_flag (firstn 3 row)) (mesh st)) <> 0 ->
  iteration points st = Ok st' ->
  FUCKED st' = false ->
  exists oriented,
    mesh st'
    = select_by (fun b => b =? 0) (map (visible_flag (firstn 3 row)) (mesh st)) (mesh st)
      ++ oriented
    /\ Forall2 (fun e fc' => fverts fc' = e ++ [nth 0 (pleft st) 0]
                             \/ fverts fc' = flip_face (e ++ [nth 0 (pleft st) 0]))
               (horizon_list (mesh st) (firstn 3 row)) oriented
    /\ nFaces st' = Z.of_nat (length (mesh st')).
Proof.
  intros [Hn Hfaces] Hrow Hcount Hit Hok.
  rewrite (iteration_visible points st row Hrow Hcount) in Hit. cbv zeta in Hit.
  apply lookup_ok_valid in Hrow.
  remember (firstn 3 row) as points_s eqn:Hps in *. clear Hps row.
  assert (Hspec := create_horizon_spec (mesh st) points_s).
  fold (faces st) in Hspec. rewrite Hspec in Hit.
  set (horizon := horizon_list (mesh st) points_s) in *.
  set (kept := select_by (fun b => b =? 0)
                 (map (visible_flag points_s) (mesh st)) (mesh st)) in *.
  destruct (add_faces_spec points (nth 0 (pleft st) 0) horizon)
    with (n := nFaces st - count_ones (map (visible_flag points_s) (mesh st)))
    as [new [n' [fucked [k [Hadd [Hmap [Hlen [Hk [Hfalse [Htrue [Hle Hgt]]]]]]]]]]].
  { intros e x He Hx. apply horizon_list_in in He.
    destruct (horizon_edge_vertices _ _ _ _ He Hx) as [N [HN [_ HxN]]].
    now apply (Hfaces N HN). }
  { assumption. }
  rewrite Hadd in Hit. cbn [bind fst snd] in Hit.
  pose proof (kept_length points_s (mesh st)) as Hkept. fold kept in Hkept.
  rewrite <- Hn in Hkept.
  destruct (mapM (orient_new_face points n') _) as [oriented |] eqn:Hor in Hit;
    [| discriminate].
  cbn [bind] in Hit. injection Hit as <-. cbn [FUCKED] in Hok. subst fucked.
  destruct (Hfalse eq_refl) as [-> ->].
  rewrite <- Hkept in Hor |- *.
  replace (Z.of_nat (length kept) + Z.of_nat (length horizon) - Z.of_nat (length kept))
    with (Z.of_nat (length horizon)) in * by lia.
  rewrite !Nat2Z.id in *. rewrite firstn_all in Hmap.
  rewrite skipn_length_app, <- Hlen, firstn_all in Hor. rewrite <- Hlen.
  apply mapM_Forall2 in Hor.
  cbn [mesh nFaces]. rewrite firstn_length_app.
  rewrite <- (length_app kept new), skipn_all, app_nil_r.
  exists oriented. split; [reflexivity |]. split.
  - remember (Z.of_nat (length kept) + Z.of_nat (length new)) as n' eqn:Hn' in Hor.
    clear - Hmap Hor. revert new oriented Hmap Hor.
    induction horizon as [| e horizon IH]; intros new oriented Hmap Hor.
    + destruct new; [| discriminate]. inversion Hor. constructor.
    + destruct new as [| fc new]; [discriminate |]. cbn [map] in Hmap.
      injection Hmap as Hfc Hmap. inversion Hor as [| ? fc' ? oriented' Hfc' Hor']; subst.
      constructor; [| now apply IH with (new := new)].
      apply orient_new_face_cases in Hfc' as [-> | ->]; cbn [fverts];
        rewrite Hfc; auto.
  - rewrite length_app, Nat2Z.inj_add.
    rewrite <- (Forall2_length Hor), Hlen. reflexivity.
Qed.

End Invariant.

Lemma Forall2_in_right {A B : Type} (R : A -> B -> Prop) (l : list A) (l' : list B) (b : B) :
  Forall2 R l l' -> In b l' -> exists a, In a l /\ R a b.
Proof.
  induction 1 as [| a b' l l' Hab _ IH]; intros Hb; [destruct Hb |].
  destruct Hb as [<- | Hb].
  - exists a. split; [now left | assumption].
  - destruct (IH Hb) as [a' [Ha' HR]]. exists a'. split; [now right | assumption].
Qed.

Section InvariantPreserved.
Context {F : Type} {ops : CH_FLOAT_ops F} {libc : Libc} {LS : LibcSpec libc}.

Lemma iteration_inv (points : list (list F)) (st st' : hull_state F) :
  state_inv points st ->
  iteration points st = Ok st' ->
  FUCKED st' = false ->
  state_inv points st'.
Proof.
  intros Hinv Hit Hok.
  destruct (lookup points (nth 0 (pleft st) 0)) as [row |] eqn:Hrow;
    [| unfold iteration in Hit; rewrite Hrow in Hit; discriminate].
  destruct (Z.eq_dec (count_ones (map (visible_flag (firstn 3 row)) (mesh st))) 0)
    as [Hcount | Hcount].
  - unfold iteration in Hit. rewrite Hrow in Hit. cbn [bind] in Hit.
    rewrite Hcount in Hit. cbn [Z.eqb] in Hit. injection Hit as <-. exact Hinv.
  - destruct (iteration_spec points st st' row Hinv Hrow Hcount Hit Hok)
      as [oriented [Hmesh [Hall Hn]]].
    destruct Hinv as [_ Hfaces].
    split; [exact Hn |]. intros fc Hfc. rewrite Hmesh in Hfc.
    apply in_app_or in Hfc as [Hfc | Hfc].
    + rewrite select_by_self in Hfc. apply filter_In in Hfc as [Hfc _].
      now apply Hfaces.
    + destruct (Forall2_in_right _ _ _ _ Hall Hfc) as [e [He Hverts]].
      apply horizon_list_in in He.
      pose proof (horizon_edge_length _ _ _ He) as Hlen.
      assert (Hvalid : forall x, In x (e ++ [nth 0 (pleft st) 0]) -> valid_index points x).
      { intros x Hx. apply in_app_or in Hx as [Hx | [<- | []]].
        - destruct (horizon_edge_vertices _ _ _ _ He Hx) as [N [HN [_ HxN]]].
          now apply (Hfaces N HN).
        - now apply lookup_ok_valid with (r := row). }
      assert (Hlen3 : length (e ++ [nth 0 (pleft st) 0]) = 3%nat)
        by (rewrite length_app, Hlen; reflexivity).
      destruct Hverts as [-> | ->].
      * split; assumption.
      * split; [reflexivity |]. intros x Hx. apply Hvalid.
        now apply flip_face_in.
Qed.

Lemma simplex_inv (points : list (list F)) (m : list (ch_face F)) :
  simplex points = Ok m ->
  state_inv points (mk_state m (d + 1) [] false).
Proof.
  intros Hs.
  destruct points as [| r0 [| r1 [| r2 [| r3 rest]]]]; try discriminate.
  destruct (simplex_of_rows r0 r1 r2 r3 rest) as [Hs' _]. cbv zeta in Hs'.
  rewrite Hs' in Hs. injection Hs as <-.
  split; [reflexivity |]. cbn [mesh].
  assert (Hfix : forall v (fc : ch_face F),
             length (fverts fc) = 3%nat ->
             (forall x, In x (fverts fc) -> 0 <= x < 4) ->
             length (fverts (orient_fix v fc)) = 3%nat
             /\ forall x, In x (fverts (orient_fix v fc)) ->
                          valid_index (r0 :: r1 :: r2 :: r3 :: rest) x).
  { intros v fc Hlen Hx. unfold orient_fix. destruct (flt v fzero); cbn [fverts].
    - split; [reflexivity |]. intros x Hin. apply flip_face_in in Hin; [| assumption].
      apply Hx in Hin. unfold valid_index. cbn [length]. lia.
    - split; [assumption |]. intros x Hin. apply Hx in Hin.
      unfold valid_index. cbn [length]. lia. }
  intros fc [<- | [<- | [<- | [<- | []]]]]; apply Hfix; try reflexivity;
    cbn [fverts]; intros x [<- | [<- | [<- | []]]]; lia.
Qed.

Lemma initial_state_inv (vs : list (ch_vertex F)) (nVert : Z)
      (points : list (list F)) (st0 : hull_state F) :
  initial_state vs nVert = Ok (points, st0) ->
  state_inv points st0 /\ FUCKED st0 = false.
Proof.
  unfold initial_state.
  destruct (simplex (make_points vs)) as [m |] eqn:Hs; [| discriminate].
  cbn [bind]. intros H. injection H as <- <-.
  split; [| reflexivity]. apply simplex_inv in Hs.
  destruct Hs as [Hn Hfaces]. split; assumption.
Qed.

(** [k] rounds of the loop that end in a state that is not [FUCKED]. *)
Lemma main_loop_inv (points : list (list F)) (k : nat) (st0 st : hull_state F) :
  state_inv points st0 ->
  main_loop points k st0 = Ok st ->
  FUCKED st = false ->
  state_inv points st /\ pleft st = skipn k (pleft st0)
  /\ forall j, main_loop points (k + j) st0 = main_loop points j st.
Proof.
  revert st0. induction k as [| k IH]; intros st0 Hinv Hloop Hok.
  - injection Hloop as <-. split; [assumption |]. split; [reflexivity |].
    intros j. reflexivity.
  - cbn [main_loop] in Hloop. unfold num_pleft in Hloop.
    destruct (pleft st0) as [| i rest] eqn:Hp.
    + cbn [length Z.of_nat Z.ltb Z.compare] in Hloop. injection Hloop as <-.
      rewrite Hp. split; [assumption |]. split; [reflexivity |].
      intros j. cbn [Nat.add main_loop]. unfold num_pleft. rewrite Hp.
      cbn [length Z.of_nat Z.ltb Z.compare].
      destruct j; cbn [main_loop]; [reflexivity |].
      unfold num_pleft. rewrite Hp. reflexivity.
    + replace (0 <? Z.of_nat (length (i :: rest))) with true in Hloop
        by (symmetry; apply Z.ltb_lt; cbn [length]; lia).
      destruct (iteration points st0) as [st1 |] eqn:Hit; [| discriminate].
      cbn [bind] in Hloop.
      destruct (FUCKED st1) eqn:Hf1.
      * injection Hloop as <-. congruence.
      * pose proof (iteration_inv _ _ _ Hinv Hit Hf1) as Hinv1.
        pose proof (iteration_pleft _ _ _ Hit) as Hp1. rewrite Hp in Hp1.
        destruct (IH st1 Hinv1 Hloop Hok) as [Hinv' [Hpleft Happ]].
        split; [assumption |]. split; [now rewrite Hpleft, Hp1 |].
        intros j. cbn [Nat.add main_loop]. unfold num_pleft. rewrite Hp.
        replace (0 <? Z.of_nat (length (i :: rest))) with true
          by (symmetry; apply Z.ltb_lt; cbn [length]; lia).
        rewrite Hit. cbn [bind]. rewrite Hf1. apply Happ.
Qed.

End InvariantPreserved.

(** ** The ceiling on the number of faces *)

Section Ceiling.
Context {F : Type} {ops : CH_FLOAT_ops F} {libc : Libc} {LS : LibcSpec libc}.

Lemma horizon_needs_visible (m : list (ch_face F)) (points_s : list F) :
  create_horizon (map fverts m) (map (visible_flag points_s) m) <> [] ->
  count_ones (map (visible_flag points_s) m) <> 0.
Proof.
  intros Hne Hzero. apply Hne. rewrite create_horizon_spec.
  destruct (horizon_list m points_s) as [| e l] eqn:E; [reflexivity |].
  assert (He : In e (horizon_list m points_s)) by (rewrite E; now left).
  apply horizon_list_in in He as [V [_ [HV [_ [Hvis _]]]]].
  exfalso. apply (proj1 (count_ones_zero _) Hzero (visible_flag points_s V));
    [now apply in_map | assumption].
Qed.

(** The iteration in which the new faces take [nFaces] over the ceiling sets
    [FUCKED], and the loop ends there. *)
Lemma iteration_over_ceiling (points : list (list F)) (st : hull_state F) (row : list F) :
  state_inv points st ->
  lookup points (nth 0 (pleft st) 0) = Ok row ->
  create_horizon (faces st) (map (visible_flag (firstn 3 row)) (mesh st)) <> [] ->
  CH_MAX_NUM_FACES
  < nFaces st - count_ones (map (visible_flag (firstn 3 row)) (mesh st))
    + Z.of_nat (length (create_horizon (faces st)
                          (map (visible_flag (firstn 3 row)) (mesh st)))) ->
  exists st', iteration points st = Ok st' /\ FUCKED st' = true /\ nFaces st' = 0.
Proof.
  intros [Hn Hfaces] Hrow Hne Hover.
  pose proof (horizon_needs_visible _ _ Hne) as Hcount.
  rewrite (iteration_visible points st row Hrow Hcount). cbv zeta.
  pose proof (kept_length (firstn 3 row) (mesh st)) as Hkept. rewrite <- Hn in Hkept.
  apply lookup_ok_valid in Hrow.
  remember (firstn 3 row) as points_s eqn:Hps in *. clear Hps row.
  destruct (add_faces_spec points (nth 0 (pleft st) 0)
              (create_horizon (faces st) (map (visible_flag points_s) (mesh st))))
    with (n := nFaces st - count_ones (map (visible_flag points_s) (mesh st)))
    as [new [n' [fucked [k [Hadd [_ [_ [_ [_ [Htrue [_ Hgt]]]]]]]]]]].
  { intros e x He Hx. unfold faces in He. rewrite create_horizon_spec in He.
    apply horizon_list_in in He.
    destruct (horizon_edge_vertices _ _ _ _ He Hx) as [N [HN [_ HxN]]].
    now apply (Hfaces N HN). }
  { assumption. }
  specialize (Hgt Hne Hover). subst fucked.
  destruct (Htrue eq_refl) as [-> _].
  rewrite Hadd. cbn [bind fst snd].
  replace (Z.to_nat (0 - (nFaces st - count_ones (map (visible_flag points_s) (mesh st)))))
    with 0%nat by lia.
  cbn [firstn mapM bind]. eexists. split; [reflexivity |]. split; reflexivity.
Qed.

(** A failed construction stores [NULL] and 0. *)
Lemma output_failed (st : hull_state F) : FUCKED st = true -> output st = (None, 0).
Proof. intros H. unfold output. now rewrite H. Qed.

(** C6: when, in some iteration of the expansion, the faces created for the
    horizon take the number of faces over [CH_MAX_NUM_FACES] = 50000, the
    construction stops there and [convhull_3d_build] returns the empty output,
    [NULL] and 0: none of the faces built so far is returned. *)
Theorem C6_face_ceiling_aborts
    (vs : list (ch_vertex F)) (nVert : Z) (points : list (list F))
    (st0 st : hull_state F) (k : nat) (row : list F) :
  3 <= nVert <= Z.of_nat (length vs) ->
  initial_state (firstn (Z.to_nat nVert) vs) nVert = Ok (points, st0) ->
  main_loop points k st0 = Ok st ->
  FUCKED st = false ->
  pleft st <> [] ->
  lookup points (nth 0 (pleft st) 0) = Ok row ->
  create_horizon (faces st) (map (visible_flag (firstn 3 row)) (mesh st)) <> [] ->
  CH_MAX_NUM_FACES
  < nFaces st - count_ones (map (visible_flag (firstn 3 row)) (mesh st))
    + Z.of_nat (length (create_horizon (faces st)
                          (map (visible_flag (firstn 3 row)) (mesh st)))) ->
  convhull_3d_build (Some vs) nVert = Ok (None, 0).
Proof.
  intros [Hn3 Hlen] Hinit Hloop Hok Hpleft Hrow Hne Hover.
  unfold convhull_3d_build.
  destruct (Z.ltb_spec nVert 3); [lia |].
  destruct (Z.ltb_spec (Z.of_nat (length vs)) nVert); [lia |].
  rewrite Hinit. cbn [bind fst snd].
  destruct (initial_state_inv _ _ _ _ Hinit) as [Hinv0 _].
  destruct (main_loop_inv points k st0 st Hinv0 Hloop Hok) as [Hinv [Hskip Happ]].
  assert (Hk : (k < length (pleft st0))%nat).
  { destruct (Nat.lt_ge_cases k (length (pleft st0))) as [Hlt | Hge]; [assumption |].
    rewrite skipn_all2 in Hskip by assumption. contradiction. }
  replace (length (pleft st0)) with (k + S (length (pleft st0) - k - 1))%nat by lia.
  rewrite Happ. cbn [main_loop].
  replace (0 <? num_pleft st) with true
    by (symmetry; apply Z.ltb_lt; unfold num_pleft;
        destruct (pleft st); [contradiction | cbn [length]; lia]).
  destruct (iteration_over_ceiling points st row Hinv Hrow Hne Hover)
    as [st' [Hit [Hf _]]].
  rewrite Hit. cbn [bind]. rewrite Hf. cbn [bind].
  now rewrite output_failed.
Qed.

End Ceiling.

(** The input [crowd]: the seventh point processed sees 1195 of the 1274
    faces of the mesh, and the horizon has 51585 edges. *)
Lemma C6_witness :
  @convhull_3d_build _ Binary64.ops Examples.libc0 (Some Examples.crowd) 18
  = Ok (None, 0).
Proof.
  apply (@C6_face_ceiling_aborts _ Binary64.ops Examples.libc0
           (constant_rand_spec 0 32767)
           Examples.crowd 18 Examples.crowd_points
           Examples.crowd_state0 Examples.crowd_state6 6
           [4%float; 2%float; 4%float; 1%float]).
  - simpl. lia.
  - vm_compute. reflexivity.
  - vm_compute. reflexivity.
  - reflexivity.
  - vm_compute. discriminate.
  - vm_compute. reflexivity.
  - intros H.
    assert (Hb : match @create_horizon Examples.libc0 (faces Examples.crowd_state6)
                         (map (@visible_flag _ Binary64.ops
                                 (firstn 3 [4%float; 2%float; 4%float; 1%float]))
                              (mesh Examples.crowd_state6))
                 with [] => false | _ :: _ => true end = true)
      by (vm_compute; reflexivity).
    rewrite H in Hb. discriminate.
  - apply Z.ltb_lt. vm_compute. reflexivity.
Defined.

(** ** The queue of the points left *)

Lemma combine_iota_nth {A : Type} (l : list A) (dflt : A) (s : Z) (x : A * Z) :
  In x (combine l (iota_from s (length l))) ->
  s <= snd x /\ fst x = nth (Z.to_nat (snd x - s)) l dflt.
Proof.
  revert s. induction l as [| a l IH]; intros s Hx; [destruct Hx |].
  cbn [length iota_from combine] in Hx. destruct Hx as [<- | Hx].
  - cbn [fst snd]. rewrite Z.sub_diag. split; [lia | reflexivity].
  - destruct (IH (s + 1) Hx) as [Hs Hn]. split; [lia |].
    rewrite Hn. replace (snd x - s) with (Z.succ (snd x - (s + 1))) by lia.
    rewrite Z2Nat.inj_succ by lia. reflexivity.
Qed.

Lemma map_snd_combine_iota {A : Type} (l : list A) (s : Z) :
  map snd (combine l (iota_from s (length l))) = iota_from s (length l).
Proof.
  revert s. induction l as [| a l IH]; intros s; [reflexivity |].
  cbn [length iota_from combine map snd]. now rewrite IH.
Qed.

Lemma StronglySorted_map_in {A B : Type} (P : A -> A -> Prop) (Q : B -> B -> Prop)
      (f : A -> B) (l : list A) :
  (forall a b, In a l -> In b l -> P a b -> Q (f a) (f b)) ->
  StronglySorted P l -> StronglySorted Q (map f l).
Proof.
  intros HPQ Hs. induction Hs as [| a l Hs IH Hall]; [constructor |].
  cbn [map]. constructor.
  - apply IH. intros x y Hx Hy. apply HPQ; now right.
  - apply Forall_forall. intros y Hy. apply in_map_iff in Hy as [x [<- Hx]].
    apply HPQ; [now left | now right |].
    now apply (proj1 (Forall_forall _ _) Hall).
Qed.

Section QueueOrder.
Context {L : Libc} {LS : LibcSpec L}.
Local Open Scope R_scope.

Lemma cmp_desc_float_le (a b : float_w_idx R) :
  (cmp_desc_float a b <= 0)%Z <-> fw_val b <= fw_val a.
Proof.
  unfold cmp_desc_float. cbn [flt Exact.ops]. unfold Exact.Rltb.
  destruct (Rlt_dec (fw_val b) (fw_val a)); [split; intros; [lra | lia] |].
  destruct (Rlt_dec (fw_val a) (fw_val b)); split; intros; lra || lia.
Qed.

(** [sort_float] with [descendFLAG] set: the indices returned are those of
    the input, ordered so that the values do not increase. *)
Lemma sort_float_descending (in_vec : list R) :
  Permutation (iota (length in_vec)) (snd (sort_float in_vec true))
  /\ StronglySorted
       (fun a b => nth (Z.to_nat b) in_vec 0 <= nth (Z.to_nat a) in_vec 0)
       (snd (sort_float in_vec true)).
Proof.
  unfold sort_float. cbn [snd]. unfold iota.
  set (data := map (fun vi => mk_float_w_idx (fst vi) (snd vi))
                   (combine in_vec (iota_from 0 (length in_vec)))).
  assert (Hidx : map fw_idx data = iota_from 0 (length in_vec)).
  { subst data. rewrite map_map. cbn [fw_idx]. apply map_snd_combine_iota. }
  assert (Hval : forall x, In x data ->
                           fw_val x = nth (Z.to_nat (fw_idx x)) in_vec 0).
  { intros x Hx. subst data. apply in_map_iff in Hx as [vi [<- Hvi]].
    cbn [fw_val fw_idx].
    destruct (combine_iota_nth in_vec 0 0%Z vi Hvi) as [_ ->].
    now rewrite Z.sub_0_r. }
  pose proof (qsort_perm _ cmp_desc_float data) as Hperm.
  split.
  - rewrite <- Hidx. now apply Permutation_map.
  - apply StronglySorted_map_in with (P := fun a b => (cmp_desc_float a b <= 0)%Z).
    + intros a b Ha Hb Hab.
      apply (Permutation_in _ (Permutation_sym Hperm)) in Ha, Hb.
      rewrite <- (Hval a Ha), <- (Hval b Hb). now apply cmp_desc_float_le.
    + apply qsort_sorted.
      * intros a b _ _. rewrite !cmp_desc_float_le. lra.
      * intros a b c _ _ _. rewrite !cmp_desc_float_le. lra.
Qed.

End QueueOrder.

Section QueueConsumed.
Context {F : Type} {ops : CH_FLOAT_ops F} {libc : Libc}.

(** However the loop ends, what is left of the queue is the queue it started
    with, less the points at its front. *)
Lemma main_loop_suffix (points : list (list F)) (k : nat) (st0 st : hull_state F) :
  main_loop points k st0 = Ok st ->
  exists j, (j <= k)%nat /\ pleft st = skipn j (pleft st0).
Proof.
  revert st0. induction k as [| k IH]; intros st0 Hloop.
  - injection Hloop as <-. now exists 0%nat.
  - cbn [main_loop] in Hloop. destruct (0 <? num_pleft st0).
    + destruct (iteration points st0) as [st1 |] eqn:Hit; [| discriminate].
      cbn [bind] in Hloop. pose proof (iteration_pleft _ _ _ Hit) as Hp.
      destruct (FUCKED st1).
      * injection Hloop as <-. exists 1%nat. split; [lia |].
        rewrite Hp. now destruct (pleft st0).
      * destruct (IH st1 Hloop) as [j [Hj Hs]]. exists (S j). split; [lia |].
        rewrite Hs, Hp. destruct (pleft st0); [now rewrite skipn_nil | reflexivity].
    + injection Hloop as <-. exists 0%nat. split; [lia | reflexivity].
Qed.

Lemma initial_state_pleft (vs : list (ch_vertex F)) (nVert : Z)
      (points : list (list F)) (st0 : hull_state F) :
  initial_state vs nVert = Ok (points, st0) ->
  points = make_points vs
  /\ pleft st0 = initial_pleft (make_points vs) nVert (span vs).
Proof.
  unfold initial_state.
  destruct (simplex (make_points vs)) as [m |]; [| discriminate].
  cbn [bind]. intros H. injection H as <- <-. split; reflexivity.
Qed.

End QueueConsumed.

Lemma fold_left_map {A B C : Type} (f : A -> B -> A) (g : C -> B) (l : list C) (a : A) :
  fold_left f (map g l) a = fold_left (fun acc x => f acc (g x)) l a.
Proof. revert a. induction l as [| x l IH]; intros a; [reflexivity | apply IH]. Qed.

(** [reldist]: for each point left, the sum over the axes of the square of
    its distance to [meanp] on that axis divided by the span of the axis. *)
Lemma reldist_formula {F : Type} {ops : CH_FLOAT_ops F}
      (points : list (list F)) (nVert : Z) (span_ : list F) :
  reldist points nVert span_
  = map (fun row =>
           fold_left
             (fun acc j =>
                fadd acc (pow2 (fdiv (fsub (at_ row j) (at_ (meanp points nVert) j))
                                     (at_ span_ j))))
             (seq 0 3) fzero)
        (skipn 4 points).
Proof.
  unfold reldist, absdist. rewrite map_map. apply map_ext. intros row.
  now rewrite fold_left_map.
Qed.



(** ** The search for a reference point *)

Section ReferenceSearch.
Context {F : Type} {ops : CH_FLOAT_ops F} {libc : Libc}.

(** A candidate whose determinant is zero is passed over without a word. *)
Lemma find_ref_skips (points : list (list F)) (f : list Z) (q : Z) (pp : list Z)
      (detA : F) (A : list F) :
  feq detA fzero = true ->
  simplex_matrix points f q = Ok A ->
  find_ref points f (q :: pp) detA = find_ref points f pp (det_4x4 A).
Proof. intros H0 HA. cbn [find_ref]. now rewrite H0, HA. Qed.

(** The search ends at the first determinant that is not zero. *)
Lemma find_ref_found (points : list (list F)) (f : list Z) (pp : list Z) (detA : F) :
  feq detA fzero = false -> find_ref points f pp detA = Ok (detA, pp).
Proof. intros H. destruct pp; cbn [find_ref]; now rewrite H. Qed.

(** With no candidate left and the determinant still zero, the next read of
    [pp] is outside it. *)
Lemma find_ref_exhausted (points : list (list F)) (f : list Z) (detA : F) :
  feq detA fzero = true -> find_ref points f [] detA = Fault.
Proof. intros H. cbn [find_ref]. now rewrite H. Qed.

End ReferenceSearch.

(** The run on [flat7], step by step: the second point inserted lies in the
    plane of points 0 to 3; the first face created for it is [2;3;5], the
    candidates are points 0 and 1, both determinants are zero, and the search
    reads [pp[2]] of a two-element [pp].  The last line is the same input
    without the scaling, when [rand()] returns 0. *)
Lemma flat7_reference_search_trace :
  pleft Examples.flat7_state1 = [5; 6]
  /\ nFaces Examples.flat7_state1 = 4
  /\ @create_horizon Examples.libc_max (faces Examples.flat7_state1)
       (map (@visible_flag _ Binary64.ops (firstn 3 (nth 5 Examples.flat7_points [])))
            (mesh Examples.flat7_state1))
     = [[2; 3]; [1; 3]; [1; 2]]
  /\ @candidates Examples.libc_max 4 [2; 3; 5] = [0; 1]
  /\ (forall q, In q [0; 1] ->
        exists A, simplex_matrix Examples.flat7_points [2; 3; 5] q = Ok A
                  /\ PrimFloat.eqb (@det_4x4 _ Binary64.ops A) 0%float = true)
  /\ @find_ref _ Binary64.ops Examples.flat7_points [2; 3; 5] [0; 1] 0%float = Fault
  /\ @iteration _ Binary64.ops Examples.libc_max Examples.flat7_points
       Examples.flat7_state1 = Fault
  /\ @convhull_3d_build _ Binary64.ops Examples.libc_max (Some Examples.flat7) 7 = Fault
  /\ @convhull_3d_build _ Binary64.ops Examples.libc0
       (Some [Examples.V 0 0 0; Examples.V 4 0 0; Examples.V 1 1 0; Examples.V 0 4 0;
              Examples.V 1 1 1; Examples.V 4 4 0; Examples.V 2 2 0]) 7 = Fault.
Proof.
  split; [reflexivity |]. split; [reflexivity |].
  split; [vm_compute; reflexivity |]. split; [vm_compute; reflexivity |].
  split.
  { intros q [<- | [<- | []]]; eexists; split; vm_compute; reflexivity. }
  repeat split; vm_compute; reflexivity.
Qed.

(** ** Running the orientation fix twice, in exact arithmetic *)

Section ExactIdempotence.
Local Open Scope R_scope.

(** Swapping the second and third rows changes the sign of the determinant. *)
Lemma det_4x4_swap (a0 a1 a2 a3 b0 b1 b2 b3 c0 c1 c2 c3 p0 p1 p2 p3 : R) :
  det_4x4 [a0; a1; a2; a3; c0; c1; c2; c3; b0; b1; b2; b3; p0; p1; p2; p3]
  = - det_4x4 [a0; a1; a2; a3; b0; b1; b2; b3; c0; c1; c2; c3; p0; p1; p2; p3].
Proof. unfold det_4x4, at_. simpl. ring. Qed.

Lemma make_points_row (L : Libc) (vs : list (ch_vertex R)) (i : Z) (r : list R) :
  lookup (@make_points R Exact.ops L vs) i = Ok r ->
  exists x y z, r = [x; y; z; 1].
Proof.
  unfold lookup. destruct (i <? 0)%Z; [discriminate |].
  rewrite make_points_nth_error.
  destruct (nth_error vs (Z.to_nat i)) as [v |]; [| discriminate].
  cbn [option_map]. intros H. injection H as <-.
  unfold point_row. cbn [seq map app]. now do 3 eexists.
Qed.

(** The round of the simplex loop applied to its own result returns it:
    once a face has gone through the orientation fix, its determinant is not
    negative, and the fix leaves it as it is. *)
Lemma orient_simplex_face_twice (L : Libc) (vs : list (ch_vertex R))
      (k : Z) (fc fc' : ch_face R) :
  length (fverts fc) = 3%nat ->
  orient_simplex_face (@make_points R Exact.ops L vs) k fc = Ok fc' ->
  orient_simplex_face (@make_points R Exact.ops L vs) k fc' = Ok fc'.
Proof.
  intros Hlen. destruct fc as [f cfi dfi]. cbn [fverts] in Hlen.
  destruct f as [| a [| b [| c [| ? ?]]]]; try discriminate. clear Hlen.
  unfold orient_simplex_face, simplex_matrix. cbn [fverts mapM].
  set (points := @make_points R Exact.ops L vs).
  destruct (lookup points a) as [ra |] eqn:Ha; [| discriminate].
  destruct (lookup points b) as [rb |] eqn:Hb; [| discriminate].
  destruct (lookup points c) as [rc |] eqn:Hc; [| discriminate].
  destruct (lookup points k) as [rk |] eqn:Hk; [| discriminate].
  cbn [bind].
  destruct (make_points_row L vs a ra Ha) as [xa [ya [za Ea]]].
  destruct (make_points_row L vs b rb Hb) as [xb [yb [zb Eb]]].
  destruct (make_points_row L vs c rc Hc) as [xc [yc [zc Ec]]].
  destruct (make_points_row L vs k rk Hk) as [xk [yk [zk Ek]]].
  subst ra rb rc rk. cbn [concat app].
  set (v := det_4x4 _). intros H. injection H as <-.
  destruct (Rlt_dec v 0) as [Hneg | Hpos].
  - rewrite (orient_fix_below_zero _ _ Hneg). unfold flip_face. cbn [fverts nth mapM].
    rewrite Ha, Hb, Hc. cbn [bind concat app].
    rewrite det_4x4_swap. fold v.
    rewrite orient_fix_not_below_zero by lra. reflexivity.
  - rewrite (orient_fix_not_below_zero v) by lra. cbn [fverts mapM].
    rewrite Ha, Hb, Hc. cbn [bind concat app]. fold v.
    rewrite orient_fix_not_below_zero by lra. reflexivity.
Qed.

End ExactIdempotence.

(** ** No partial mesh *)

Section NoPartialMesh.
Context {F : Type} {ops : CH_FLOAT_ops F} {libc : Libc}.

(** Whenever [convhull_3d_build] stores [NULL] it stores 0 faces, and
    whenever it stores faces it stores their number. *)
Lemma build_null_is_empty (in_vertices : option (list (ch_vertex F))) (nVert : Z)
      (out_faces : option (list (list Z))) (nOut_faces : Z) :
  convhull_3d_build in_vertices nVert = Ok (out_faces, nOut_faces) ->
  match out_faces with
  | None => nOut_faces = 0
  | Some fs => exists st : hull_state F,
      FUCKED st = false /\ fs = faces st /\ nOut_faces = nFaces st
  end.
Proof.
  unfold convhull_3d_build.
  destruct in_vertices as [vs |]; [| intros H; now injection H as <- <-].
  destruct (nVert <? 3); [intros H; now injection H as <- <- |].
  destruct (Z.of_nat (length vs) <? nVert); [discriminate |].
  destruct (initial_state _ _) as [ps |]; [| discriminate]. cbn [bind].
  destruct (main_loop _ _ _) as [st |]; [| discriminate]. cbn [bind].
  unfold output. destruct (FUCKED st) eqn:Hf; intros H; injection H as <- <-.
  - reflexivity.
  - now exists st.
Qed.

End NoPartialMesh.

(** ** The result does not depend on which [qsort] sorts the faces *)

Section LibcIndependence.
Context {F : Type} {ops : CH_FLOAT_ops F}.
Context (L1 L2 : Libc) (LS1 : LibcSpec L1) (LS2 : LibcSpec L2).

Lemma create_horizon_libc (faces_ : list (list Z)) (visible_ind : list Z) :
  @create_horizon L1 faces_ visible_ind = @create_horizon L2 faces_ visible_ind.
Proof.
  unfold create_horizon. apply flat_map_ext. intros vis.
  now rewrite (@horizon_of_spec L1 LS1), (@horizon_of_spec L2 LS2).
Qed.

Lemma candidates_libc (n : Z) (f : list Z) :
  @candidates L1 n f = @candidates L2 n f.
Proof.
  unfold candidates.
  now rewrite (@ismember_sorted L1 LS1), (@ismember_sorted L2 LS2).
Qed.

Lemma orient_new_face_libc (points : list (list F)) (n : Z) (fc : ch_face F) :
  @orient_new_face F ops L1 points n fc = @orient_new_face F ops L2 points n fc.
Proof. unfold orient_new_face. now rewrite candidates_libc. Qed.

Lemma mapM_ext {A B : Type} (f g : A -> outcome B) (l : list A) :
  (forall a, f a = g a) -> mapM f l = mapM g l.
Proof.
  intros H. induction l as [| a l IH]; [reflexivity |].
  cbn [mapM]. now rewrite H, IH.
Qed.

Lemma iteration_libc (points : list (list F)) (st : hull_state F) :
  @iteration F ops L1 points st = @iteration F ops L2 points st.
Proof.
  unfold iteration.
  destruct (lookup points (nth 0 (pleft st) 0)) as [row |]; [| reflexivity].
  cbn [bind]. destruct (_ =? 0); [reflexivity |].
  rewrite create_horizon_libc.
  destruct (add_faces _ _ _ _) as [added |]; [| reflexivity]. cbn [bind].
  now rewrite (mapM_ext _ _ _ (orient_new_face_libc points (snd (fst added)))).
Qed.

Lemma main_loop_libc (points : list (list F)) (fuel : nat) (st : hull_state F) :
  @main_loop F ops L1 points fuel st = @main_loop F ops L2 points fuel st.
Proof.
  revert st. induction fuel as [| fuel IH]; intros st; [reflexivity |].
  cbn [main_loop]. destruct (0 <? num_pleft st); [| reflexivity].
  rewrite iteration_libc.
  destruct (@iteration F ops L2 points st) as [st' |]; [| reflexivity].
  cbn [bind]. destruct (FUCKED st'); [reflexivity | apply IH].
Qed.

End LibcIndependence.

(** ** A run in which the search for a reference point fails *)

Lemma iota_from_in (s : Z) (n : nat) (r : Z) :
  s <= r < s + Z.of_nat n -> In r (iota_from s n).
Proof.
  revert s. induction n as [| n IH]; intros s H; [lia |].
  cbn [iota_from]. destruct (Z.eq_dec r s) as [-> | Hne]; [now left | right].
  apply IH. lia.
Qed.

Lemma absorbs_far :
  forallb (fun x => forallb (Examples.absorbs x) (iota (Z.to_nat 32768))) Examples.far_values = true.
Proof. vm_compute. reflexivity. Qed.

Section AnyLibc.
Context (L : Libc) (LS : LibcSpec L).
Hypothesis HM : RAND_MAX = 32767.
Hypothesis Hrand : forall n, 0 <= rand n <= 32767.

Lemma noise_absorbed (x : float) (n : nat) :
  In x Examples.far_values -> PrimFloat.add x (@noise _ Binary64.ops L n) = x.
Proof.
  intros Hx. apply FloatAxioms.Leibniz.eqb_spec.
  pose proof absorbs_far as H.
  rewrite forallb_forall in H. specialize (H x Hx).
  rewrite forallb_forall in H. specialize (H (rand n)).
  unfold noise. rewrite HM. apply H.
  apply iota_from_in. rewrite Z2Nat.id by lia. specialize (Hrand n). lia.
Qed.

Lemma point_row_absorbed (i : nat) (v : ch_vertex float) :
  In (vx v) Examples.far_values -> In (vy v) Examples.far_values -> In (vz v) Examples.far_values ->
  @point_row _ Binary64.ops L i v = [vx v; vy v; vz v; 1%float].
Proof.
  intros Hx Hy Hz. unfold point_row. cbn [seq map app at_ v_ nth].
  cbn [fadd Binary64.ops].
  now rewrite !noise_absorbed.
Qed.

Lemma flat7_points_any_rand :
  @make_points _ Binary64.ops L Examples.flat7 = Examples.flat7_points.
Proof.
  unfold make_points, Examples.flat7. cbn [length seq combine map fst snd].
  rewrite !point_row_absorbed; try (vm_compute; tauto).
Qed.

Lemma sorted_perm3 {A : Type} (cmp : A -> A -> Z) (a b c : A) (l : list A) :
  Permutation [a; b; c] l ->
  StronglySorted (fun x y => cmp x y <= 0) l ->
  0 < cmp b a -> 0 < cmp c a -> 0 < cmp c b ->
  l = [a; b; c].
Proof.
  intros Hp Hs Hba Hca Hcb.
  pose proof (Permutation_length Hp) as Hlen.
  destruct l as [| x [| y [| z [| ? ?]]]]; try discriminate. clear Hlen.
  inversion Hs as [| ? ? Hs1 Hx]; subst. inversion Hx as [| ? ? Hxy Hx']; subst.
  inversion Hx' as [| ? ? Hxz _]; subst.
  inversion Hs1 as [| ? ? _ Hy]; subst. inversion Hy as [| ? ? Hyz _]; subst.
  assert (Ex : x = a).
  { assert (Ha : In a [x; y; z]) by (apply (Permutation_in _ Hp); now left).
    assert (Hx0 : In x [a; b; c])
      by (apply (Permutation_in _ (Permutation_sym Hp)); now left).
    destruct Hx0 as [<- | [<- | [<- | []]]]; [reflexivity | |];
      destruct Ha as [<- | [<- | [<- | []]]]; try reflexivity; lia. }
  subst x. apply Permutation_cons_inv in Hp.
  assert (Ey : y = b).
  { assert (Hb : In b [y; z]) by (apply (Permutation_in _ Hp); now left).
    assert (Hy0 : In y [b; c])
      by (apply (Permutation_in _ (Permutation_sym Hp)); now left).
    destruct Hy0 as [<- | [<- | []]]; [reflexivity |].
    destruct Hb as [<- | [<- | []]]; try reflexivity; lia. }
  subst y. apply Permutation_cons_inv in Hp.
  apply Permutation_length_1 in Hp. now subst z.
Qed.

Lemma flat7_queue_any_qsort :
  @qsort L _ (@cmp_desc_float _ Binary64.ops) Examples.flat7_data = Examples.flat7_data.
Proof.
  apply sorted_perm3 with (cmp := @cmp_desc_float _ Binary64.ops);
    try (vm_compute; reflexivity).
  - apply qsort_perm.
  - apply qsort_sorted.
    + intros a b Ha Hb.
      destruct Ha as [<- | [<- | [<- | []]]];
        destruct Hb as [<- | [<- | [<- | []]]]; vm_compute; intuition discriminate.
    + intros a b c Ha Hb Hc.
      destruct Ha as [<- | [<- | [<- | []]]];
        destruct Hb as [<- | [<- | [<- | []]]];
        destruct Hc as [<- | [<- | [<- | []]]]; vm_compute; intuition discriminate.
Qed.

Lemma flat7_initial_state_any_libc :
  @initial_state _ Binary64.ops L Examples.flat7 7
  = Ok (Examples.flat7_points, Examples.flat7_state0).
Proof.
  unfold initial_state. rewrite flat7_points_any_rand.
  replace (@simplex _ Binary64.ops Examples.flat7_points)
    with (Ok (mesh Examples.flat7_state0)) by (vm_compute; reflexivity).
  cbn [bind]. unfold initial_pleft, sort_float.
  change (@reldist _ Binary64.ops Examples.flat7_points 7 (@span _ Binary64.ops Examples.flat7))
    with Examples.flat7_reldist.
  change (map (fun vi => mk_float_w_idx (fst vi) (snd vi))
              (combine Examples.flat7_reldist (iota (length Examples.flat7_reldist))))
    with Examples.flat7_data.
  rewrite flat7_queue_any_qsort. reflexivity.
Qed.

(** C9 (the code departs from the claim): the search does pass over coplanar
    candidates silently ([find_ref_skips]), but nothing keeps [index] below
    [num_p].  On the seven points of [flat7], for every [qsort] that meets its
    contract and every sequence of values of [rand()] between 0 and
    [RAND_MAX] = 32767, the search for a reference point of the face [2;3;5]
    finds both candidates coplanar with it and reads [pp] past its end. *)
Theorem C9_reference_search_runs_past_the_candidates :
  @convhull_3d_build _ Binary64.ops L (Some Examples.flat7) 7 = Fault.
Proof.
  unfold convhull_3d_build.
  change (7 <? 3) with false.
  change (Z.of_nat (length Examples.flat7) <? 7) with false. cbv iota.
  change (firstn (Z.to_nat 7) Examples.flat7) with Examples.flat7.
  rewrite flat7_initial_state_any_libc. cbn [bind fst snd].
  rewrite (main_loop_libc L Examples.libc_max LS (constant_rand_spec _ _)).
  vm_compute. reflexivity.
Qed.
End AnyLibc.

Lemma C9_witness :
  @convhull_3d_build _ Binary64.ops (SimpleLibc.constant_rand 12345 32767)
    (Some Examples.flat7) 7 = Fault.
Proof.
  apply (C9_reference_search_runs_past_the_candidates
           (SimpleLibc.constant_rand 12345 32767) (constant_rand_spec 12345 32767)).
  - reflexivity.
  - intros n. simpl. lia.
Defined.

(* ================================================================== *)
(** * More properties of the hull, of the exporters and of hrtf_builder *)

(** ** The sorting helpers *)

Lemma cmp_asc_int_le (a b : int_w_idx) :
  cmp_asc_int a b <= 0 <-> iw_val a <= iw_val b.
Proof.
  unfold cmp_asc_int.
  destruct (iw_val a <? iw_val b) eqn:H1; [apply Z.ltb_lt in H1; lia |].
  destruct (iw_val b <? iw_val a) eqn:H2; [apply Z.ltb_lt in H2; lia |].
  apply Z.ltb_ge in H1, H2. lia.
Qed.

Lemma cmp_desc_int_le (a b : int_w_idx) :
  cmp_desc_int a b <= 0 <-> iw_val b <= iw_val a.
Proof.
  unfold cmp_desc_int.
  destruct (iw_val b <? iw_val a) eqn:H1; [apply Z.ltb_lt in H1; lia |].
  destruct (iw_val a <? iw_val b) eqn:H2; [apply Z.ltb_lt in H2; lia |].
  apply Z.ltb_ge in H1, H2. lia.
Qed.

Section SortInt.
Context {libc : Libc} {LS : LibcSpec libc}.

(** X1. [sort_int]: the values returned are the input in ascending order
    (descending when [descendFLAG] is set), and the indices returned are a
    permutation of [0 .. len-1] that tells where each value stood in the
    input. *)
Theorem sort_int_sorts_and_tracks_indices (in_vec : list Z) (descendFLAG : bool) :
  Permutation in_vec (fst (sort_int in_vec descendFLAG))
  /\ Permutation (iota (length in_vec)) (snd (sort_int in_vec descendFLAG))
  /\ fst (sort_int in_vec descendFLAG)
     = map (fun i => nth (Z.to_nat i) in_vec 0) (snd (sort_int in_vec descendFLAG))
  /\ StronglySorted (fun a b => if descendFLAG then b <= a else a <= b)
                    (fst (sort_int in_vec descendFLAG)).
Proof.
  unfold sort_int. cbn [fst snd]. unfold iota.
  set (data := map (fun vi => mk_int_w_idx (fst vi) (snd vi))
                   (combine in_vec (iota_from 0 (length in_vec)))).
  set (data' := if descendFLAG then qsort cmp_desc_int data else qsort cmp_asc_int data).
  assert (Hperm : Permutation data data').
  { subst data'. destruct descendFLAG; apply qsort_perm. }
  assert (Hidx : map iw_idx data = iota_from 0 (length in_vec)).
  { subst data. rewrite map_map. cbn [iw_idx]. apply map_snd_combine_iota. }
  assert (Hvals : map iw_val data = in_vec).
  { subst data. rewrite map_map. cbn [iw_val].
    clear. generalize 0. induction in_vec as [| x l IH]; intros s; [reflexivity |].
    simpl. f_equal. apply IH. }
  assert (Hval : forall x, In x data ->
                           iw_val x = nth (Z.to_nat (iw_idx x)) in_vec 0).
  { intros x Hx. subst data. apply in_map_iff in Hx as [vi [<- Hvi]].
    cbn [iw_val iw_idx].
    destruct (combine_iota_nth in_vec 0 0 vi Hvi) as [_ ->].
    now rewrite Z.sub_0_r. }
  split; [| split; [| split]].
  - rewrite <- Hvals at 1. now apply Permutation_map.
  - rewrite <- Hidx. now apply Permutation_map.
  - rewrite map_map. apply map_ext_in. intros x Hx. apply Hval.
    now apply (Permutation_in _ (Permutation_sym Hperm)).
  - subst data'. destruct descendFLAG.
    + apply StronglySorted_map_in with (P := fun a b => cmp_desc_int a b <= 0).
      * intros a b _ _. apply cmp_desc_int_le.
      * apply qsort_sorted.
        -- intros a b _ _. rewrite !cmp_desc_int_le. lia.
        -- intros a b c _ _ _. rewrite !cmp_desc_int_le. lia.
    + apply StronglySorted_map_in with (P := fun a b => cmp_asc_int a b <= 0).
      * intros a b _ _. apply cmp_asc_int_le.
      * apply qsort_sorted.
        -- intros a b _ _. rewrite !cmp_asc_int_le. lia.
        -- intros a b c _ _ _. rewrite !cmp_asc_int_le. lia.
Qed.

End SortInt.

Lemma sort_int_sorts_witness :
  Permutation [3; 1; 2] (fst (@sort_int (SimpleLibc.constant_rand 0 32767) [3; 1; 2] false))
  /\ StronglySorted (fun a b => a <= b)
       (fst (@sort_int (SimpleLibc.constant_rand 0 32767) [3; 1; 2] false)).
Proof.
  pose proof (@sort_int_sorts_and_tracks_indices (SimpleLibc.constant_rand 0 32767)
                (constant_rand_spec 0 32767) [3; 1; 2] false) as [H1 [_ [_ H4]]].
  split; [exact H1 | exact H4].
Defined.

Lemma existsb_eqb_In (x : Z) (l : list Z) : existsb (Z.eqb x) l = true <-> In x l.
Proof.
  rewrite existsb_exists. split.
  - intros [y [Hy Hxy]]. apply Z.eqb_eq in Hxy. now subst.
  - intros H. exists x. split; [exact H | apply Z.eqb_refl].
Qed.

Lemma nth_map_default {A B : Type} (g : A -> B) (l : list A) (da : A) (db : B) (i : nat) :
  (i < length l)%nat -> nth i (map g l) db = g (nth i l da).
Proof.
  intros Hi. rewrite (nth_indep _ db (g da)) by now rewrite length_map.
  apply map_nth.
Qed.

(** X2. [ismember] writes one flag per element of [pLeft]: 1 when the element
    occurs in [pRight], 0 when it does not. *)
Theorem ismember_flags_membership (pLeft pRight : list Z) :
  length (ismember pLeft pRight) = length pLeft
  /\ forall i, (i < length pLeft)%nat ->
       (nth i (ismember pLeft pRight) 0 = 1 <-> In (nth i pLeft 0) pRight)
       /\ (nth i (ismember pLeft pRight) 0 = 0 <-> ~ In (nth i pLeft 0) pRight).
Proof.
  unfold ismember. split; [apply length_map |].
  intros i Hi.
  rewrite (nth_map_default _ pLeft 0 0 i Hi).
  destruct (existsb (Z.eqb (nth i pLeft 0)) pRight) eqn:E.
  - apply existsb_eqb_In in E. split; split; intros; try reflexivity; try assumption;
      try discriminate; contradiction.
  - assert (~ In (nth i pLeft 0) pRight).
    { intros H. apply existsb_eqb_In in H. congruence. }
    split; split; intros; try reflexivity; try assumption; try discriminate; contradiction.
Qed.

Section Candidates.
Context {libc : Libc} {LS : LibcSpec libc}.

Lemma iota_from_range (s : Z) (n : nat) (r : Z) :
  In r (iota_from s n) <-> s <= r < s + Z.of_nat n.
Proof.
  revert s. induction n as [| n IH]; intros s; simpl iota_from.
  - simpl. lia.
  - cbn [In]. rewrite IH. lia.
Qed.

Lemma iota_from_sorted (s : Z) (n : nat) : StronglySorted Z.lt (iota_from s n).
Proof.
  revert s. induction n as [| n IH]; intros s; simpl; constructor; [apply IH |].
  apply Forall_forall. intros x Hx. apply iota_from_range in Hx. lia.
Qed.

Lemma StronglySorted_filter {A : Type} (R : A -> A -> Prop) (p : A -> bool) (l : list A) :
  StronglySorted R l -> StronglySorted R (filter p l).
Proof.
  induction 1 as [| a l Hl IH Ha]; simpl; [constructor |].
  destruct (p a); [| exact IH]. constructor; [exact IH |].
  apply Forall_forall. intros x Hx. apply filter_In in Hx as [Hx _].
  revert x Hx. now apply Forall_forall.
Qed.

Lemma candidates_filter (nFaces_ : Z) (f : list Z) :
  candidates nFaces_ f
  = filter (fun h => negb (existsb (Z.eqb h) f)) (iota (Z.to_nat nFaces_)).
Proof.
  unfold candidates. rewrite ismember_sorted. unfold ismember.
  rewrite select_by_self. apply filter_ext. intros h.
  now destruct (existsb (Z.eqb h) f).
Qed.

(** X3. The reference points tried for a new face are the numbers below the
    number of faces [nFaces] (not below the number of points) that are not
    vertices of the face, in ascending order. *)
Theorem candidates_are_indices_below_nFaces (nFaces_ : Z) (f : list Z) :
  (forall q, In q (candidates nFaces_ f) <-> 0 <= q < nFaces_ /\ ~ In q f)
  /\ StronglySorted Z.lt (candidates nFaces_ f).
Proof.
  rewrite candidates_filter. split.
  - intros q. rewrite filter_In. unfold iota. rewrite iota_from_range.
    rewrite negb_true_iff. split.
    + intros [Hq E]. split; [lia |]. intros H. apply existsb_eqb_In in H. congruence.
    + intros [Hq Hn]. split; [lia |].
      destruct (existsb (Z.eqb q) f) eqn:E; [| reflexivity].
      apply existsb_eqb_In in E. contradiction.
  - apply StronglySorted_filter. apply iota_from_sorted.
Qed.

End Candidates.

Lemma candidates_witness :
  (forall q, In q (@candidates (SimpleLibc.constant_rand 0 32767) 4 [2; 3; 5])
             <-> 0 <= q < 4 /\ ~ In q [2; 3; 5])
  /\ StronglySorted Z.lt (@candidates (SimpleLibc.constant_rand 0 32767) 4 [2; 3; 5]).
Proof.
  exact (@candidates_are_indices_below_nFaces (SimpleLibc.constant_rand 0 32767)
           (constant_rand_spec 0 32767) 4 [2; 3; 5]).
Defined.

Section ReferenceSearchAll.
Context {F : Type} {ops : CH_FLOAT_ops F} {libc : Libc}.

(** X4. The search [while(detA==0.0)]: the candidates whose determinant
    against the face is zero are passed over, the first one whose
    determinant is not zero ends the search with that determinant, and
    [index] is left one past it.  When every candidate has a zero
    determinant the search reads past the last of them. *)
Theorem find_ref_returns_first_nonzero
    (points : list (list F)) (f : list Z) (pre : list Z) :
  feq fzero fzero = true ->
  (forall q, In q pre ->
     exists A, simplex_matrix points f q = Ok A /\ feq (det_4x4 A) fzero = true) ->
  find_ref points f pre fzero = Fault
  /\ forall q post A,
       simplex_matrix points f q = Ok A -> feq (det_4x4 A) fzero = false ->
       find_ref points f (pre ++ q :: post) fzero = Ok (det_4x4 A, post).
Proof.
  intros H0 Hpre.
  assert (G : forall detA, feq detA fzero = true ->
            find_ref points f pre detA = Fault
            /\ forall q post A,
                 simplex_matrix points f q = Ok A -> feq (det_4x4 A) fzero = false ->
                 find_ref points f (pre ++ q :: post) detA = Ok (det_4x4 A, post)).
  { induction pre as [| p pre IH]; intros detA HdetA.
    - split; [now apply find_ref_exhausted |].
      intros q post A HA Hne. cbn [app].
      rewrite (find_ref_skips _ _ _ _ _ _ HdetA HA). now apply find_ref_found.
    - destruct (Hpre p (or_introl eq_refl)) as [Ap [HAp Hz]].
      destruct (IH (fun q Hq => Hpre q (or_intror Hq)) (det_4x4 Ap) Hz) as [IH1 IH2].
      split.
      + now rewrite (find_ref_skips _ _ _ _ _ _ HdetA HAp).
      + intros q post A HA Hne. cbn [app].
        rewrite (find_ref_skips _ _ _ _ _ _ HdetA HAp). now apply IH2. }
  now apply G.
Qed.

End ReferenceSearchAll.

(** ** The main loop ends, and what it leaves *)

Section LoopEnds.
Context {F : Type} {ops : CH_FLOAT_ops F} {libc : Libc}.

(** X5. The main loop runs one iteration per point of the queue at most:
    once it has run as many iterations as the queue had points, or has
    stopped before, running it further changes nothing. *)
Theorem main_loop_ends_with_the_queue (points : list (list F)) (st : hull_state F) (j : nat) :
  main_loop points (length (pleft st) + j) st
  = main_loop points (length (pleft st)) st.
Proof.
  remember (length (pleft st)) as n eqn:Hn. revert st Hn.
  induction n as [| n IH]; intros st Hn.
  - destruct j; [reflexivity |]. cbn [Nat.add main_loop]. unfold num_pleft.
    now rewrite <- Hn.
  - cbn [Nat.add main_loop]. unfold num_pleft. rewrite <- Hn.
    replace (0 <? Z.of_nat (S n)) with true by (symmetry; apply Z.ltb_lt; lia).
    destruct (iteration points st) as [st1 |] eqn:Hit; [| reflexivity].
    cbn [bind]. destruct (FUCKED st1); [reflexivity |].
    apply IH. rewrite (iteration_pleft _ _ _ Hit).
    destruct (pleft st); [discriminate |]. cbn [tl]. cbn [length] in Hn. lia.
Qed.

End LoopEnds.

Lemma NoDup_filter {A : Type} (p : A -> bool) (l : list A) :
  NoDup l -> NoDup (filter p l).
Proof.
  induction 1 as [| a l Ha Hl IH]; simpl; [constructor |].
  destruct (p a); [| exact IH]. constructor; [| exact IH].
  intros H. apply filter_In in H as [H _]. contradiction.
Qed.

Lemma NoDup_tl {A : Type} (l : list A) : NoDup l -> NoDup (tl l).
Proof. destruct 1; [constructor | assumption]. Qed.

Lemma In_tl {A : Type} (x : A) (l : list A) : In x (tl l) -> In x l.
Proof. destruct l; [intros [] | now right]. Qed.

Lemma NoDup_flip_face (f : list Z) :
  length f = 3%nat -> NoDup f -> NoDup (flip_face f).
Proof.
  destruct f as [| a [| b [| c [| ? ?]]]]; try discriminate. intros _ H.
  unfold flip_face. cbn [nth].
  inversion H as [| ? ? Ha H1]; subst. inversion H1 as [| ? ? Hb H2]; subst.
  constructor; [| constructor; [| constructor; [intros [] | constructor]]].
  - intros [-> | [-> | []]]; apply Ha; [right; now left | now left].
  - intros [-> | []]. apply Hb. now left.
Qed.

Lemma NoDup_map_injective {A B : Type} (g : A -> B) (l : list A) :
  (forall a b, g a = g b -> a = b) -> NoDup l -> NoDup (map g l).
Proof.
  intros Hg. induction 1 as [| a l Ha Hl IH]; simpl; constructor; [| exact IH].
  intros H. apply in_map_iff in H as [b [Hb Hin]]. apply Hg in Hb. now subst.
Qed.

Section SortFloatAny.
Context {F : Type} {ops : CH_FLOAT_ops F} {libc : Libc} {LS : LibcSpec libc}.

(** For every arithmetic: the indices [sort_float] returns are those of the
    input, each once, and each value returned is the input at its index. *)
Lemma sort_float_indices (in_vec : list F) (descendFLAG : bool) :
  Permutation (iota (length in_vec)) (snd (sort_float in_vec descendFLAG))
  /\ fst (sort_float in_vec descendFLAG)
     = map (fun i => nth (Z.to_nat i) in_vec fzero) (snd (sort_float in_vec descendFLAG)).
Proof.
  unfold sort_float. cbn [fst snd]. unfold iota.
  set (data := map (fun vi => mk_float_w_idx (fst vi) (snd vi))
                   (combine in_vec (iota_from 0 (length in_vec)))).
  set (data' := if descendFLAG then qsort cmp_desc_float data
                else qsort cmp_asc_float data).
  assert (Hperm : Permutation data data').
  { subst data'. destruct descendFLAG; apply qsort_perm. }
  assert (Hidx : map fw_idx data = iota_from 0 (length in_vec)).
  { subst data. rewrite map_map. cbn [fw_idx]. apply map_snd_combine_iota. }
  assert (Hval : forall x, In x data ->
                           fw_val x = nth (Z.to_nat (fw_idx x)) in_vec fzero).
  { intros x Hx. subst data. apply in_map_iff in Hx as [vi [<- Hvi]].
    cbn [fw_val fw_idx].
    destruct (combine_iota_nth in_vec fzero 0 vi Hvi) as [_ ->].
    now rewrite Z.sub_0_r. }
  split.
  - rewrite <- Hidx. now apply Permutation_map.
  - rewrite map_map. apply map_ext_in. intros x Hx. apply Hval.
    now apply (Permutation_in _ (Permutation_sym Hperm)).
Qed.

Lemma iota_from_NoDup (s : Z) (n : nat) : NoDup (iota_from s n).
Proof.
  revert s. induction n as [| n IH]; intros s; simpl; constructor; [| apply IH].
  intros H. apply iota_from_range in H. lia.
Qed.

Lemma initial_pleft_queue (points : list (list F)) (nVert : Z) (span_ : list F) :
  NoDup (initial_pleft points nVert span_)
  /\ forall x, In x (initial_pleft points nVert span_) ->
               4 <= x < 4 + Z.of_nat (length points - 4).
Proof.
  unfold initial_pleft.
  destruct (sort_float_indices (reldist points nVert span_) true) as [Hperm _].
  assert (Hlen : length (reldist points nVert span_) = (length points - 4)%nat).
  { rewrite reldist_formula, length_map. apply length_skipn. }
  rewrite Hlen in Hperm. split.
  - apply NoDup_map_injective; [intros a b; unfold d; lia |].
    apply (Permutation_NoDup Hperm). apply iota_from_NoDup.
  - intros x Hx. apply in_map_iff in Hx as [y [<- Hy]].
    apply (Permutation_in _ (Permutation_sym Hperm)) in Hy.
    apply iota_from_range in Hy. unfold d. lia.
Qed.

Lemma simplex_faces (points : list (list F)) (m : list (ch_face F)) :
  simplex points = Ok m ->
  Forall2 (fun fc k => fverts fc = initial_face (iota 4) k
                       \/ fverts fc = flip_face (initial_face (iota 4) k))
          m [0; 1; 2; 3].
Proof.
  intros Hs.
  destruct points as [| r0 [| r1 [| r2 [| r3 rest]]]]; try discriminate.
  destruct (simplex_of_rows r0 r1 r2 r3 rest) as [Hs' _]. cbv zeta in Hs'.
  rewrite Hs' in Hs. injection Hs as <-.
  assert (Hfix : forall v (fc : ch_face F),
             fverts (orient_fix v fc) = fverts fc
             \/ fverts (orient_fix v fc) = flip_face (fverts fc)).
  { intros v fc. unfold orient_fix. destruct (flt v fzero); cbn [fverts]; auto. }
  constructor; [apply Hfix |]. constructor; [apply Hfix |].
  constructor; [apply Hfix |]. constructor; [apply Hfix | constructor].
Qed.

Lemma initial_state_mesh_inv (vs : list (ch_vertex F)) (nVert : Z)
      (points : list (list F)) (st0 : hull_state F) :
  initial_state vs nVert = Ok (points, st0) ->
  mesh_inv points st0 /\ FUCKED st0 = false.
Proof.
  intros H. destruct (initial_state_inv _ _ _ _ H) as [Hinv Hf].
  split; [| exact Hf]. split; [exact Hinv |].
  unfold initial_state in H.
  destruct (simplex (make_points vs)) as [m |] eqn:Hs; [| discriminate].
  cbn [bind] in H. injection H as <- <-. cbn [nFaces pleft mesh].
  destruct (initial_pleft_queue (make_points vs) nVert (span vs)) as [Hnd Hrange].
  split; [unfold d, CH_MAX_NUM_FACES; lia |]. split; [exact Hnd |].
  intros fc Hfc.
  pose proof (simplex_faces _ _ Hs) as Hall.
  assert (Hone : exists k, In k [0; 1; 2; 3]
                   /\ (fverts fc = initial_face (iota 4) k
                       \/ fverts fc = flip_face (initial_face (iota 4) k))).
  { clear - Hall Hfc. induction Hall as [| a k l l' Hak _ IH]; [destruct Hfc |].
    destruct Hfc as [<- | Hfc].
    - exists k. split; [now left | assumption].
    - destruct (IH Hfc) as [k' [Hk' HR]]. exists k'. split; [now right | assumption]. }
  destruct Hone as [k [Hk Hv]].
  assert (Hsmall : NoDup (fverts fc) /\ forall x, In x (fverts fc) -> 0 <= x < 4).
  { destruct Hk as [<- | [<- | [<- | [<- | []]]]]; destruct Hv as [-> | ->];
      (split; [repeat constructor; cbn; intuition discriminate
              | cbn; intros x Hx; intuition lia]). }
  destruct Hsmall as [Hnd' Hlt]. split; [exact Hnd' |].
  intros x Hx Hq. apply Hlt in Hx. apply Hrange in Hq. lia.
Qed.

Lemma iteration_mesh_inv (points : list (list F)) (st st' : hull_state F) :
  mesh_inv points st ->
  pleft st <> [] ->
  iteration points st = Ok st' ->
  FUCKED st' = false ->
  mesh_inv points st'.
Proof.
  intros [Hinv [Hmax [Hnd Hfaces]]] Hne Hit Hok.
  pose proof (iteration_inv _ _ _ Hinv Hit Hok) as Hinv'.
  pose proof (iteration_pleft _ _ _ Hit) as Hp.
  split; [exact Hinv' |].
  destruct (lookup points (nth 0 (pleft st) 0)) as [row |] eqn:Hrow;
    [| unfold iteration in Hit; rewrite Hrow in Hit; discriminate].
  destruct (Z.eq_dec (count_ones (map (visible_flag (firstn 3 row)) (mesh st))) 0)
    as [Hcount | Hcount].
  - unfold iteration in Hit. rewrite Hrow in Hit. cbn [bind] in Hit.
    rewrite Hcount in Hit. cbn [Z.eqb] in Hit. injection Hit as <-.
    cbn [nFaces pleft mesh] in *. rewrite Hp.
    split; [exact Hmax |]. split; [now apply NoDup_tl |].
    intros fc Hfc. destruct (Hfaces fc Hfc) as [H1 H2]. split; [exact H1 |].
    intros x Hx Hq. apply (H2 x Hx). now apply In_tl.
  - split; [| split; [rewrite Hp; now apply NoDup_tl |]].
    + (* the number of faces *)
      pose proof Hit as Hit2.
      rewrite (iteration_visible points st row Hrow Hcount) in Hit2. cbv zeta in Hit2.
      pose proof (lookup_ok_valid _ _ _ Hrow) as Hi.
      destruct Hinv as [Hn Hvalid].
      destruct (add_faces_spec points (nth 0 (pleft st) 0)
                  (create_horizon (faces st) (map (visible_flag (firstn 3 row)) (mesh st))))
        with (n := nFaces st - count_ones (map (visible_flag (firstn 3 row)) (mesh st)))
        as [new [n' [fucked [k [Hadd [Hmap [Hlen [Hk [Hfalse [Htrue [Hle Hgt]]]]]]]]]]].
      { intros e x He Hx. unfold faces in He. rewrite create_horizon_spec in He.
        apply horizon_list_in in He.
        destruct (horizon_edge_vertices _ _ _ _ He Hx) as [N [HN [_ HxN]]].
        now apply (Hvalid N HN). }
      { assumption. }
      rewrite Hadd in Hit2. cbn [bind fst snd] in Hit2.
      destruct (mapM (orient_new_face points n') _) as [oriented |]; [| discriminate].
      cbn [bind] in Hit2. injection Hit2 as <-. cbn [FUCKED nFaces] in *. subst fucked.
      destruct (Hfalse eq_refl) as [_ ->].
      pose proof (count_ones_nonneg (map (visible_flag (firstn 3 row)) (mesh st))) as Hc.
      destruct (create_horizon (faces st) (map (visible_flag (firstn 3 row)) (mesh st)))
        as [| e0 hz] eqn:Hh.
      * cbn [length]. lia.
      * destruct (Z_lt_le_dec CH_MAX_NUM_FACES
                    (nFaces st - count_ones (map (visible_flag (firstn 3 row)) (mesh st))
                     + Z.of_nat (length (e0 :: hz)))) as [Hlt | Hle']; [| exact Hle'].
        assert (Hx : e0 :: hz <> []) by discriminate.
        specialize (Hgt Hx Hlt). discriminate.
    + (* the faces *)
      destruct (iteration_spec points st st' row Hinv Hrow Hcount Hit Hok)
        as [oriented [Hmesh [Hall _]]].
      assert (Hhead : In (nth 0 (pleft st) 0) (pleft st)).
      { destruct (pleft st); [contradiction | now left]. }
      assert (Hnotl : ~ In (nth 0 (pleft st) 0) (tl (pleft st))).
      { destruct (pleft st) as [| i rest]; [contradiction |]. cbn [nth tl].
        now inversion Hnd. }
      intros fc Hfc. rewrite Hmesh in Hfc. rewrite Hp.
      apply in_app_or in Hfc as [Hfc | Hfc].
      * rewrite select_by_self in Hfc. apply filter_In in Hfc as [Hfc _].
        destruct (Hfaces fc Hfc) as [H1 H2]. split; [exact H1 |].
        intros x Hx Hq. apply (H2 x Hx). now apply In_tl.
      * destruct (Forall2_in_right _ _ _ _ Hall Hfc) as [e [He Hverts]].
        apply horizon_list_in in He.
        pose proof (horizon_edge_length _ _ _ He) as Hlen.
        destruct He as [V [N [HV [HN [_ [_ [_ He]]]]]]].
        destruct (Hfaces N HN) as [HndN HqN].
        assert (Hnde : NoDup e) by (subst e; now apply NoDup_filter).
        assert (Hine : forall x, In x e -> In x (fverts N)).
        { intros x Hx. subst e. now apply filter_In in Hx as [Hx _]. }
        assert (Hnd3 : NoDup (e ++ [nth 0 (pleft st) 0])).
        { apply NoDup_app; [exact Hnde | repeat constructor; intros [] |].
          intros x Hx [<- | []]. apply (HqN _ (Hine _ Hx)). exact Hhead. }
        assert (Hq3 : forall x, In x (e ++ [nth 0 (pleft st) 0]) -> ~ In x (tl (pleft st))).
        { intros x Hx. apply in_app_or in Hx as [Hx | [<- | []]]; [| exact Hnotl].
          intros Hq. apply (HqN _ (Hine _ Hx)). now apply In_tl. }
        assert (Hlen3 : length (e ++ [nth 0 (pleft st) 0]) = 3%nat)
          by (rewrite length_app, Hlen; reflexivity).
        destruct Hverts as [-> | ->].
        -- split; assumption.
        -- split; [now apply NoDup_flip_face |].
           intros x Hx. apply Hq3. now apply flip_face_in.
Qed.

Lemma main_loop_mesh_inv (points : list (list F)) (k : nat) (st0 st : hull_state F) :
  mesh_inv points st0 ->
  main_loop points k st0 = Ok st ->
  FUCKED st = false ->
  mesh_inv points st.
Proof.
  revert st0. induction k as [| k IH]; intros st0 Hinv Hloop Hok.
  - now injection Hloop as <-.
  - cbn [main_loop] in Hloop. unfold num_pleft in Hloop.
    destruct (pleft st0) as [| i rest] eqn:Hp.
    + cbn [length Z.of_nat Z.ltb Z.compare] in Hloop. now injection Hloop as <-.
    + replace (0 <? Z.of_nat (length (i :: rest))) with true in Hloop
        by (symmetry; apply Z.ltb_lt; cbn [length]; lia).
      destruct (iteration points st0) as [st1 |] eqn:Hit; [| discriminate].
      cbn [bind] in Hloop.
      destruct (FUCKED st1) eqn:Hf1.
      * injection Hloop as <-. congruence.
      * apply (IH st1); [| assumption | assumption].
        apply (iteration_mesh_inv points st0); try assumption.
        rewrite Hp. discriminate.
Qed.

(** The state the main loop ended in, when [convhull_3d_build] returns
    faces. *)
Lemma build_final_state
    (vs : list (ch_vertex F)) (nVert : Z) (fs : list (list Z)) (n : Z) :
  convhull_3d_build (Some vs) nVert = Ok (Some fs, n) ->
  exists (points : list (list F)) (st : hull_state F),
    mesh_inv points st /\ fs = faces st /\ n = nFaces st
    /\ length points = Z.to_nat nVert /\ 3 <= nVert <= Z.of_nat (length vs).
Proof.
  unfold convhull_3d_build.
  destruct (nVert <? 3) eqn:Hg; [discriminate |]. apply Z.ltb_ge in Hg.
  destruct (Z.of_nat (length vs) <? nVert) eqn:Hl; [discriminate |]. apply Z.ltb_ge in Hl.
  destruct (initial_state (firstn (Z.to_nat nVert) vs) nVert) as [[points st0] |] eqn:H0;
    [| discriminate].
  cbn [bind fst snd].
  destruct (main_loop points (length (pleft st0)) st0) as [st |] eqn:Hloop; [| discriminate].
  cbn [bind]. unfold output. destruct (FUCKED st) eqn:Hf; [discriminate |].
  intros H. injection H as <- <-.
  destruct (initial_state_mesh_inv _ _ _ _ H0) as [Hinv0 _].
  exists points, st. split; [exact (main_loop_mesh_inv _ _ _ _ Hinv0 Hloop Hf) |].
  split; [reflexivity |]. split; [reflexivity |]. split; [| lia].
  destruct (initial_state_pleft _ _ _ _ H0) as [-> _].
  rewrite make_points_length, length_firstn. lia.
Qed.

(** X6. Whenever [convhull_3d_build] returns faces, [nOut_faces] is their
    number and is at most [CH_MAX_NUM_FACES], and every face is three
    different indices of input vertices (each at least 0 and below
    [nVert]). *)
Theorem build_returns_triangles_on_the_input
    (vs : list (ch_vertex F)) (nVert : Z) (fs : list (list Z)) (n : Z) :
  convhull_3d_build (Some vs) nVert = Ok (Some fs, n) ->
  n = Z.of_nat (length fs)
  /\ n <= CH_MAX_NUM_FACES
  /\ forall f, In f fs ->
       length f = 3%nat /\ NoDup f /\ forall x, In x f -> 0 <= x < nVert.
Proof.
  intros H.
  destruct (build_final_state _ _ _ _ H)
    as [points [st [[[Hn Hvalid] [Hmax [_ Hfaces]]] [-> [-> [Hpoints Hrange]]]]]].
  unfold faces. rewrite length_map. split; [exact Hn |]. split; [exact Hmax |].
  intros f Hf'. apply in_map_iff in Hf' as [fc [<- Hfc]].
  destruct (Hvalid fc Hfc) as [H3 Hidx]. destruct (Hfaces fc Hfc) as [Hnd _].
  split; [exact H3 |]. split; [exact Hnd |].
  intros x Hx. specialize (Hidx x Hx). unfold valid_index in Hidx.
  rewrite Hpoints in Hidx. lia.
Qed.

(** X7. Called on four points, [convhull_3d_build] cannot fail, whatever
    the coordinates are: it returns four faces, face [k] being the three
    points other than [k], in ascending order or with the last two
    swapped. *)
Theorem build_on_four_points_returns_the_simplex
    (v0 v1 v2 v3 : ch_vertex F) (rest : list (ch_vertex F)) :
  exists fs,
    convhull_3d_build (Some (v0 :: v1 :: v2 :: v3 :: rest)) 4 = Ok (Some fs, 4)
    /\ Forall2 (fun f k => f = initial_face (iota 4) k
                           \/ f = flip_face (initial_face (iota 4) k))
               fs [0; 1; 2; 3].
Proof.
  unfold convhull_3d_build.
  replace (4 <? 3) with false by reflexivity.
  replace (Z.of_nat (length (v0 :: v1 :: v2 :: v3 :: rest)) <? 4) with false
    by (symmetry; apply Z.ltb_ge; cbn [length]; lia).
  change (firstn (Z.to_nat 4) (v0 :: v1 :: v2 :: v3 :: rest)) with [v0; v1; v2; v3].
  unfold initial_state.
  assert (Hs : exists m, simplex (make_points [v0; v1; v2; v3]) = Ok m).
  { change (make_points [v0; v1; v2; v3])
      with [point_row 0 v0; point_row 1 v1; point_row 2 v2; point_row 3 v3].
    destruct (simplex_of_rows (point_row 0 v0) (point_row 1 v1) (point_row 2 v2)
                (point_row 3 v3) []) as [Hs' _].
    cbv zeta in Hs'. rewrite Hs'. eexists. reflexivity. }
  destruct Hs as [m Hs]. rewrite Hs.
  cbn [bind fst snd pleft].
  assert (Hq : initial_pleft (make_points [v0; v1; v2; v3]) 4 (span [v0; v1; v2; v3]) = []).
  { unfold initial_pleft.
    replace (reldist (make_points [v0; v1; v2; v3]) 4 (span [v0; v1; v2; v3]))
      with (@nil F) by reflexivity.
    now rewrite sort_float_nil. }
  rewrite Hq. cbn [length main_loop bind]. unfold output. cbn [FUCKED faces mesh nFaces].
  exists (map fverts m). split; [reflexivity |].
  pose proof (simplex_faces _ _ Hs) as Hall. clear - Hall.
  induction Hall; cbn [map]; constructor; assumption.
Qed.

End SortFloatAny.

(** ** [det_4x4] and [plane_3d], in exact arithmetic *)

Section ExactGeometry.
Local Open Scope R_scope.

(** X8. [det_4x4] is the determinant of the 4x4 matrix stored row by row:
    it is the expansion by the first row into 3x3 determinants, and the
    transposed matrix has the same determinant. *)
Theorem det_4x4_is_the_determinant
    (m0 m1 m2 m3 m4 m5 m6 m7 m8 m9 m10 m11 m12 m13 m14 m15 : R) :
  det_4x4 [m0; m1; m2; m3; m4; m5; m6; m7; m8; m9; m10; m11; m12; m13; m14; m15]
  = m0 * det3 m5 m6 m7 m9 m10 m11 m13 m14 m15
    - m1 * det3 m4 m6 m7 m8 m10 m11 m12 m14 m15
    + m2 * det3 m4 m5 m7 m8 m9 m11 m12 m13 m15
    - m3 * det3 m4 m5 m6 m8 m9 m10 m12 m13 m14
  /\ det_4x4 [m0; m4; m8; m12; m1; m5; m9; m13; m2; m6; m10; m14; m3; m7; m11; m15]
     = det_4x4 [m0; m1; m2; m3; m4; m5; m6; m7; m8; m9; m10; m11; m12; m13; m14; m15].
Proof.
  unfold det_4x4, at_, det3. cbn [nth fadd fsub fmul Exact.ops]. split; ring.
Qed.

(** [plane_3d] on three points that are not on one line: the cross product
    of [b - a] and [c - b], divided by its length. *)
Lemma plane_3d_explicit (xa ya za xb yb zb xc yc zc : R) :
  let p := [xa; ya; za; xb; yb; zb; xc; yc; zc] in
  let n0 := (yb - ya) * (zc - zb) - (yc - yb) * (zb - za) in
  let n1 := (zb - za) * (xc - xb) - (zc - zb) * (xb - xa) in
  let n2 := (xb - xa) * (yc - yb) - (xc - xb) * (yb - ya) in
  let N := sqrt (n0 * n0 + n1 * n1 + n2 * n2) in
  0 < n0 * n0 + n1 * n1 + n2 * n2 ->
  0 < N /\ N * N = n0 * n0 + n1 * n1 + n2 * n2
  /\ fst (plane_3d p) = [n0 / N; n1 / N; n2 / N]
  /\ snd (plane_3d p) = - (xa * (n0 / N) + ya * (n1 / N) + za * (n2 / N)).
Proof.
  intros p n0 n1 n2 N Hpos.
  assert (HN : N * N = n0 * n0 + n1 * n1 + n2 * n2) by (apply sqrt_sqrt; lra).
  assert (HNpos : 0 < N) by (apply sqrt_lt_R0; exact Hpos).
  assert (HN0 : N <> 0) by lra.
  assert (Hc : fst (plane_3d p) = [n0 / N; n1 / N; n2 / N]).
  { subst p. unfold plane_3d, plane_det, pdiff_s, pdiff, pow2, at_.
    cbn [fst seq filter Nat.eqb negb map nth Nat.add Nat.mul
         fadd fsub fmul fdiv fneg fsqrt fzero fone Exact.ops].
    replace (0 + 1 * ((yb - ya) * (zc - zb) - (yc - yb) * (zb - za))
                 * (1 * ((yb - ya) * (zc - zb) - (yc - yb) * (zb - za)))
             + 1 * - (1) * ((xb - xa) * (zc - zb) - (xc - xb) * (zb - za))
               * (1 * - (1) * ((xb - xa) * (zc - zb) - (xc - xb) * (zb - za)))
             + 1 * - (1) * - (1) * ((xb - xa) * (yc - yb) - (xc - xb) * (yb - ya))
               * (1 * - (1) * - (1) * ((xb - xa) * (yc - yb) - (xc - xb) * (yb - ya))))
      with (n0 * n0 + n1 * n1 + n2 * n2) by (subst n0 n1 n2; ring).
    fold N. f_equal; [| f_equal; [| f_equal]]; subst n0 n1 n2; field; exact HN0. }
  split; [exact HNpos |]. split; [exact HN |]. split; [exact Hc |].
  unfold plane_3d. cbn [snd]. unfold plane_3d in Hc. cbn [fst] in Hc. rewrite Hc.
  subst p. unfold at_. cbn [nth fadd fmul fneg fzero Exact.ops]. ring.
Qed.

(** X9. [plane_3d] on three points that are not on one line: the normal
    returned has length 1, and the three points satisfy the equation
    [c . p + d = 0] of the plane returned. *)
Theorem plane_3d_unit_normal_through_the_points (xa ya za xb yb zb xc yc zc : R) :
  let p := [xa; ya; za; xb; yb; zb; xc; yc; zc] in
  let n0 := (yb - ya) * (zc - zb) - (yc - yb) * (zb - za) in
  let n1 := (zb - za) * (xc - xb) - (zc - zb) * (xb - xa) in
  let n2 := (xb - xa) * (yc - yb) - (xc - xb) * (yb - ya) in
  n0 <> 0 \/ n1 <> 0 \/ n2 <> 0 ->
  exists c0 c1 c2,
    fst (plane_3d p) = [c0; c1; c2]
    /\ c0 * c0 + c1 * c1 + c2 * c2 = 1
    /\ c0 * xa + c1 * ya + c2 * za + snd (plane_3d p) = 0
    /\ c0 * xb + c1 * yb + c2 * zb + snd (plane_3d p) = 0
    /\ c0 * xc + c1 * yc + c2 * zc + snd (plane_3d p) = 0.
Proof.
  intros p n0 n1 n2 Hn.
  assert (Hpos : 0 < n0 * n0 + n1 * n1 + n2 * n2).
  { destruct Hn as [H | [H | H]]; nra. }
  destruct (plane_3d_explicit xa ya za xb yb zb xc yc zc Hpos) as [HNpos [HN [Hc Hd]]].
  fold p n0 n1 n2 in HNpos, HN, Hc, Hd.
  set (N := sqrt (n0 * n0 + n1 * n1 + n2 * n2)) in *.
  assert (HN0 : N <> 0) by lra.
  exists (n0 / N), (n1 / N), (n2 / N). split; [exact Hc |]. rewrite Hd.
  split; [| split; [| split]].
  - replace (n0 / N * (n0 / N) + n1 / N * (n1 / N) + n2 / N * (n2 / N))
      with ((n0 * n0 + n1 * n1 + n2 * n2) / (N * N)) by (field; exact HN0).
    rewrite HN. field. lra.
  - field. exact HN0.
  - subst n0 n1 n2. field. exact HN0.
  - subst n0 n1 n2. field. exact HN0.
Qed.

End ExactGeometry.

Lemma plane_3d_unit_normal_witness :
  exists c0 c1 c2 : R,
    fst (plane_3d [0; 0; 0; 1; 0; 0; 0; 1; 0]%R) = [c0; c1; c2]
    /\ (c0 * c0 + c1 * c1 + c2 * c2 = 1)%R
    /\ (c0 * 0 + c1 * 0 + c2 * 0 + snd (plane_3d [0; 0; 0; 1; 0; 0; 0; 1; 0]%R) = 0)%R
    /\ (c0 * 1 + c1 * 0 + c2 * 0 + snd (plane_3d [0; 0; 0; 1; 0; 0; 0; 1; 0]%R) = 0)%R
    /\ (c0 * 0 + c1 * 1 + c2 * 0 + snd (plane_3d [0; 0; 0; 1; 0; 0; 0; 1; 0]%R) = 0)%R.
Proof.
  apply (plane_3d_unit_normal_through_the_points 0 0 0 1 0 0 0 1 0).
  right. right. lra.
Defined.

(** ** A face on three points of one line, in double precision *)

Section NotANumber.
Import FloatOps SpecFloat.

Lemma Prim2SF_nan : Prim2SF nan = S754_nan.
Proof. reflexivity. Qed.

Lemma mul_nan (x : float) : PrimFloat.mul x nan = nan.
Proof.
  apply FloatAxioms.Prim2SF_inj. rewrite FloatAxioms.mul_spec, Prim2SF_nan.
  now destruct (Prim2SF x).
Qed.

Lemma add_nan (x : float) : PrimFloat.add x nan = nan.
Proof.
  apply FloatAxioms.Prim2SF_inj. rewrite FloatAxioms.add_spec, Prim2SF_nan.
  now destruct (Prim2SF x).
Qed.

Lemma ltb_nan (x : float) : PrimFloat.ltb x nan = false.
Proof.
  rewrite FloatAxioms.ltb_spec, Prim2SF_nan. unfold SFltb.
  now destruct (Prim2SF x).
Qed.

Lemma eqb_zero (x : float) :
  PrimFloat.eqb x 0%float = true -> x = 0%float \/ x = (-0)%float.
Proof.
  rewrite FloatAxioms.eqb_spec. unfold SFeqb.
  change (Prim2SF 0%float) with (S754_zero false).
  destruct (Prim2SF x) as [s | s | | s m e] eqn:E; cbn [SFcompare];
    try discriminate; try (destruct s; discriminate).
  intros _. destruct s; [right | left]; apply FloatAxioms.Prim2SF_inj; rewrite E;
    reflexivity.
Qed.

(** X10. In double precision, when the three 2x2 determinants [plane_3d]
    computes are all zero (the three points are on one line, or two of them
    coincide), the normal and the offset returned are not numbers, and the
    face is not visible from any point. *)
Theorem plane_of_points_on_a_line_is_nan (p : list float) :
  (forall i, In i [0; 1; 2]%nat ->
             PrimFloat.eqb (@plane_det _ Binary64.ops p i) 0%float = true) ->
  @plane_3d _ Binary64.ops p = ([nan; nan; nan], nan)
  /\ forall (points_s : list float) (f : list Z),
       @visible_flag _ Binary64.ops points_s
         (mk_face f (fst (@plane_3d _ Binary64.ops p)) (snd (@plane_3d _ Binary64.ops p)))
       = 0.
Proof.
  intros Hz.
  assert (Hp : @plane_3d _ Binary64.ops p = ([nan; nan; nan], nan)).
  { unfold plane_3d. cbv zeta.
    destruct (eqb_zero _ (Hz 0%nat (or_introl eq_refl))) as [E0 | E0];
      destruct (eqb_zero _ (Hz 1%nat (or_intror (or_introl eq_refl)))) as [E1 | E1];
      destruct (eqb_zero _ (Hz 2%nat (or_intror (or_intror (or_introl eq_refl)))))
        as [E2 | E2];
      rewrite E0, E1, E2;
      cbn [fzero fone fadd fmul fdiv fneg fsqrt pow2 Binary64.ops];
      repeat match goal with
             | |- context [at_ (?a :: ?l) ?k] =>
                 replace (at_ (a :: l) k) with nan by (vm_compute; reflexivity)
             end;
      rewrite !mul_nan, !add_nan;
      (f_equal; vm_compute; reflexivity). }
  split; [exact Hp |].
  intros points_s f. rewrite Hp. unfold visible_flag. cbn [fcf fdf fst snd].
  cbn [fadd flt fzero Binary64.ops]. now rewrite add_nan, ltb_nan.
Qed.

End NotANumber.

Lemma plane_of_points_on_a_line_witness :
  @plane_3d _ Binary64.ops [0; 0; 0; 1; 1; 1; 2; 2; 2]%float = ([nan; nan; nan], nan)
  /\ forall (points_s : list float) (f : list Z),
       @visible_flag _ Binary64.ops points_s
         (mk_face f (fst (@plane_3d _ Binary64.ops [0; 0; 0; 1; 1; 1; 2; 2; 2]%float))
                    (snd (@plane_3d _ Binary64.ops [0; 0; 0; 1; 1; 1; 2; 2; 2]%float)))
       = 0.
Proof.
  apply (plane_of_points_on_a_line_is_nan [0; 0; 0; 1; 1; 1; 2; 2; 2]%float).
  intros i [<- | [<- | [<- | []]]]; vm_compute; reflexivity.
Defined.

(** ** The span of the input, in exact arithmetic *)

Section ExactSpan.
Local Open Scope R_scope.

Lemma MAX_exact (a b : R) : MAX a b = Rmax a b.
Proof.
  unfold MAX. cbn [flt Exact.ops]. unfold Exact.Rltb, Rmax.
  destruct (Rlt_dec b a), (Rle_dec a b); lra.
Qed.

Lemma MIN_exact (a b : R) : MIN a b = Rmin a b.
Proof.
  unfold MIN. cbn [flt Exact.ops]. unfold Exact.Rltb, Rmin.
  destruct (Rlt_dec a b), (Rle_dec a b); lra.
Qed.

Lemma span_scan (xs : list R) (hi lo : R) :
  let mm := fold_left (fun (mm : R * R) x => (MAX (fst mm) x, MIN (snd mm) x)) xs (hi, lo) in
  (fst mm = hi \/ In (fst mm) xs) /\ hi <= fst mm /\ (forall x, In x xs -> x <= fst mm)
  /\ (snd mm = lo \/ In (snd mm) xs) /\ snd mm <= lo /\ (forall x, In x xs -> snd mm <= x).
Proof.
  revert hi lo. induction xs as [| x xs IH]; intros hi lo; cbn [fold_left fst snd].
  - cbv zeta. cbn [fst snd In].
    split; [now left |]. split; [lra |]. split; [intros ? [] |].
    split; [now left |]. split; [lra | intros ? []].
  - specialize (IH (MAX hi x) (MIN lo x)). cbv zeta in IH |- *.
    destruct IH as [H1 [H2 [H3 [H4 [H5 H6]]]]].
    rewrite MAX_exact, MIN_exact in *.
    pose proof (Rmax_l hi x). pose proof (Rmax_r hi x).
    pose proof (Rmin_l lo x). pose proof (Rmin_r lo x).
    split; [| split; [| split; [| split; [| split]]]].
    + destruct H1 as [H1 | H1]; [| right; now right].
      rewrite H1. unfold Rmax. destruct (Rle_dec hi x); [right; now left | now left].
    + lra.
    + intros y [<- | Hy]; [lra | now apply H3].
    + destruct H4 as [H4 | H4]; [| right; now right].
      rewrite H4. unfold Rmin. destruct (Rle_dec lo x); [now left | right; now left].
    + lra.
    + intros y [<- | Hy]; [lra | now apply H6].
Qed.

(** X11. In exact arithmetic [span[j]] is [hi - lo], where [hi] is the
    largest of 2.23e-13 and the coordinates of the vertices on axis [j], and
    [lo] the smallest of 2.23e+13 and these coordinates: the range of the
    coordinates when they all lie between the two constants, and more than
    the range otherwise. *)
Theorem span_is_the_range_clamped_by_the_constants (vs : list (ch_vertex R)) (j : nat) :
  exists hi lo,
    span_axis vs j = hi - lo
    /\ (hi = 223 / 1000000000000000 \/ exists v, In v vs /\ hi = at_ (v_ v) j)
    /\ 223 / 1000000000000000 <= hi
    /\ (forall v, In v vs -> at_ (v_ v) j <= hi)
    /\ (lo = 22300000000000 \/ exists v, In v vs /\ lo = at_ (v_ v) j)
    /\ lo <= 22300000000000
    /\ (forall v, In v vs -> lo <= at_ (v_ v) j).
Proof.
  unfold span_axis.
  pose proof (span_scan (map (fun v => at_ (v_ v) j) vs)
                (223 / 1000000000000000) 22300000000000) as H.
  cbv zeta in H. rewrite fold_left_map in H.
  change (@lit_2_23em13 R Exact.ops) with (223 / 1000000000000000).
  change (@lit_2_23ep13 R Exact.ops) with 22300000000000.
  set (mm := fold_left _ vs _) in *.
  destruct H as [H1 [H2 [H3 [H4 [H5 H6]]]]].
  exists (fst mm), (snd mm). split; [reflexivity |].
  split; [| split; [exact H2 | split; [| split; [| split; [exact H5 |]]]]].
  - destruct H1 as [H1 | H1]; [now left | right].
    apply in_map_iff in H1 as [v [Hv Hin]]. exists v. split; [exact Hin | now symmetry].
  - intros v Hv. apply H3. now apply (in_map (fun v => at_ (v_ v) j)).
  - destruct H4 as [H4 | H4]; [now left | right].
    apply in_map_iff in H4 as [v [Hv Hin]]. exists v. split; [exact Hin | now symmetry].
  - intros v Hv. apply H6. now apply (in_map (fun v => at_ (v_ v) j)).
Qed.

End ExactSpan.

(** ** The C library after the queue is ordered *)

Section AfterTheQueue.
Context {F : Type} {ops : CH_FLOAT_ops F}.
Context (L1 L2 : Libc) (LS1 : LibcSpec L1) (LS2 : LibcSpec L2).

(** X12. [rand], [RAND_MAX] and the order in which [qsort] leaves equal
    elements matter only up to the start of the main loop: two C libraries
    that give the same perturbed points, the same simplex and the same queue
    give the same hull. *)
Theorem build_depends_on_libc_through_the_initial_state
    (vs : list (ch_vertex F)) (nVert : Z) :
  @initial_state F ops L1 (firstn (Z.to_nat nVert) vs) nVert
  = @initial_state F ops L2 (firstn (Z.to_nat nVert) vs) nVert ->
  @convhull_3d_build F ops L1 (Some vs) nVert
  = @convhull_3d_build F ops L2 (Some vs) nVert.
Proof.
  intros H. unfold convhull_3d_build. rewrite H. clear H.
  destruct (nVert <? 3); [reflexivity |].
  destruct (Z.of_nat (length vs) <? nVert); [reflexivity |].
  destruct (@initial_state F ops L2 _ _) as [ps |]; [| reflexivity]. cbn [bind].
  now rewrite (main_loop_libc L1 L2 LS1 LS2).
Qed.

End AfterTheQueue.

Lemma build_depends_on_libc_witness :
  @convhull_3d_build _ Binary64.ops (SimpleLibc.constant_rand 0 32767)
    (Some Examples.tetra_out) 5
  = @convhull_3d_build _ Binary64.ops (SimpleLibc.constant_rand 0 2147483647)
      (Some Examples.tetra_out) 5.
Proof.
  apply (build_depends_on_libc_through_the_initial_state
           (SimpleLibc.constant_rand 0 32767) (SimpleLibc.constant_rand 0 2147483647)
           (constant_rand_spec 0 32767) (constant_rand_spec 0 2147483647)).
  vm_compute. reflexivity.
Defined.

(** ** What an iteration does to the mesh *)

Section IterationEffect.
Context {F : Type} {ops : CH_FLOAT_ops F} {libc : Libc} {LS : LibcSpec libc}.

(** X13. An iteration whose point sees at least one face, and that stays
    within the face ceiling, deletes exactly the visible faces: the mesh it
    leaves is the not-visible faces, unchanged and in their order, followed
    by one face for every horizon edge, and the number of faces is updated to
    match. *)
Theorem iteration_deletes_exactly_the_visible_faces
    (points : list (list F)) (st st' : hull_state F) (row : list F) :
  state_inv points st ->
  lookup points (nth 0 (pleft st) 0) = Ok row ->
  count_ones (map (visible_flag (firstn 3 row)) (mesh st)) <> 0 ->
  iteration points st = Ok st' ->
  FUCKED st' = false ->
  exists added,
    mesh st' = filter (fun fc => visible_flag (firstn 3 row) fc =? 0) (mesh st) ++ added
    /\ length added = length (horizon_list (mesh st) (firstn 3 row))
    /\ (forall fc, In fc added -> In (nth 0 (pleft st) 0) (fverts fc))
    /\ nFaces st'
       = nFaces st - count_ones (map (visible_flag (firstn 3 row)) (mesh st))
         + Z.of_nat (length (horizon_list (mesh st) (firstn 3 row)))
    /\ nFaces st' = Z.of_nat (length (mesh st')).
Proof.
  intros Hinv Hrow Hcount Hit Hok.
  destruct (iteration_spec points st st' row Hinv Hrow Hcount Hit Hok)
    as [oriented [Hmesh [Hall Hn]]].
  rewrite select_by_self in Hmesh.
  exists oriented. split; [exact Hmesh |].
  split; [symmetry; exact (Forall2_length Hall) |].
  split; [| split; [| exact Hn]].
  - intros fc Hfc. destruct (Forall2_in_right _ _ _ _ Hall Hfc) as [e [He Hverts]].
    apply horizon_list_in in He. pose proof (horizon_edge_length _ _ _ He) as Hlen.
    destruct e as [| a [| b [| ? ?]]]; try discriminate.
    destruct Hverts as [-> | ->]; cbn; auto.
  - rewrite Hn, Hmesh, length_app, Nat2Z.inj_add, <- (Forall2_length Hall).
    pose proof (kept_length (firstn 3 row) (mesh st)) as Hk.
    rewrite select_by_self in Hk. rewrite Hk. destruct Hinv as [-> _]. lia.
Qed.

End IterationEffect.

Section SortFloatExact.
Context {L : Libc} {LS : LibcSpec L}.
Local Open Scope R_scope.

Lemma cmp_asc_float_le (a b : float_w_idx R) :
  (cmp_asc_float a b <= 0)%Z <-> fw_val a <= fw_val b.
Proof.
  unfold cmp_asc_float. cbn [flt Exact.ops]. unfold Exact.Rltb.
  destruct (Rlt_dec (fw_val a) (fw_val b)); [split; intros; [lra | lia] |].
  destruct (Rlt_dec (fw_val b) (fw_val a)); split; intros; lra || lia.
Qed.

(** X14. [sort_float] in exact arithmetic: the values returned are the input
    in ascending order (descending when [descendFLAG] is set), and the
    indices returned are a permutation of [0 .. len-1] that tells where each
    value stood in the input. *)
Theorem sort_float_sorts_and_tracks_indices (in_vec : list R) (descendFLAG : bool) :
  Permutation in_vec (fst (sort_float in_vec descendFLAG))
  /\ Permutation (iota (length in_vec)) (snd (sort_float in_vec descendFLAG))
  /\ fst (sort_float in_vec descendFLAG)
     = map (fun i => nth (Z.to_nat i) in_vec 0) (snd (sort_float in_vec descendFLAG))
  /\ StronglySorted (fun a b => if descendFLAG then b <= a else a <= b)
                    (fst (sort_float in_vec descendFLAG)).
Proof.
  destruct (sort_float_indices in_vec descendFLAG) as [Hidx Hval].
  split; [| split; [exact Hidx | split; [exact Hval |]]].
  - unfold sort_float. cbn [fst].
    set (data := map (fun vi => mk_float_w_idx (fst vi) (snd vi))
                     (combine in_vec (iota (length in_vec)))).
    assert (Hvals : map fw_val data = in_vec).
    { subst data. rewrite map_map. cbn [fw_val]. unfold iota.
      clear. generalize 0%Z. induction in_vec as [| x l IH]; intros s; [reflexivity |].
      simpl. f_equal. apply IH. }
    rewrite <- Hvals at 1. apply Permutation_map.
    destruct descendFLAG; apply qsort_perm.
  - unfold sort_float. cbn [fst]. destruct descendFLAG.
    + apply StronglySorted_map_in with (P := fun a b => (cmp_desc_float a b <= 0)%Z).
      * intros a b _ _. apply cmp_desc_float_le.
      * apply qsort_sorted.
        -- intros a b _ _. rewrite !cmp_desc_float_le. lra.
        -- intros a b c _ _ _. rewrite !cmp_desc_float_le. lra.
    + apply StronglySorted_map_in with (P := fun a b => (cmp_asc_float a b <= 0)%Z).
      * intros a b _ _. apply cmp_asc_float_le.
      * apply qsort_sorted.
        -- intros a b _ _. rewrite !cmp_asc_float_le. lra.
        -- intros a b c _ _ _. rewrite !cmp_asc_float_le. lra.
Qed.

End SortFloatExact.

Lemma sort_float_sorts_witness :
  Permutation [3; 1; 2]%R
    (fst (@sort_float R Exact.ops (SimpleLibc.constant_rand 0 32767) [3; 1; 2]%R true))
  /\ StronglySorted (fun a b => (b <= a)%R)
       (fst (@sort_float R Exact.ops (SimpleLibc.constant_rand 0 32767) [3; 1; 2]%R true)).
Proof.
  pose proof (@sort_float_sorts_and_tracks_indices (SimpleLibc.constant_rand 0 32767)
                (constant_rand_spec 0 32767) [3; 1; 2]%R true) as [H1 [_ [_ H4]]].
  split; [exact H1 | exact H4].
Defined.

(** The candidates 0 and 1 of the face [2;3;5] of [flat7] are coplanar with
    it, and point 4 is not. *)
Lemma find_ref_returns_first_nonzero_witness :
  @find_ref _ Binary64.ops Examples.flat7_points [2; 3; 5] [0; 1] 0%float = Fault
  /\ forall q post A,
       simplex_matrix Examples.flat7_points [2; 3; 5] q = Ok A ->
       @feq _ Binary64.ops (@det_4x4 _ Binary64.ops A) 0%float = false ->
       @find_ref _ Binary64.ops Examples.flat7_points [2; 3; 5] ([0; 1] ++ q :: post) 0%float
       = Ok (@det_4x4 _ Binary64.ops A, post).
Proof.
  apply (@find_ref_returns_first_nonzero _ Binary64.ops Examples.flat7_points
           [2; 3; 5] [0; 1]).
  - reflexivity.
  - intros q [<- | [<- | []]]; eexists; (split; [reflexivity | vm_compute; reflexivity]).
Defined.


(** ** The export of a hull *)

Lemma iota_from_length (s : Z) (n : nat) : length (iota_from s n) = n.
Proof. revert s. induction n as [| n IH]; intros s; simpl; [reflexivity | now rewrite IH]. Qed.

Lemma iota_from_nth_error (s : Z) (n i : nat) :
  (i < n)%nat -> nth_error (iota_from s n) i = Some (s + Z.of_nat i).
Proof.
  revert s i. induction n as [| n IH]; intros s i Hi; [lia |].
  destruct i as [| i]; simpl.
  - f_equal. lia.
  - rewrite IH by lia. f_equal. lia.
Qed.

Lemma iota_from_app (s : Z) (n m : nat) :
  iota_from s (n + m) = iota_from s n ++ iota_from (s + Z.of_nat n) m.
Proof.
  revert s. induction n as [| n IH]; intros s; simpl.
  - f_equal. lia.
  - f_equal. rewrite IH. do 2 f_equal. lia.
Qed.

(** The pairs [(i, j)] of the loops [for i < nFaces, for j < 3], as the
    indices [i*3+j]. *)
Lemma face_corner_indices (s : Z) (n : nat) :
  flat_map (fun i => map (fun j => i * 3 + j) (iota 3)) (iota_from s n)
  = iota_from (s * 3) (3 * n).
Proof.
  revert s. induction n as [| n IH]; intros s; [reflexivity |].
  replace (3 * S n)%nat with (S (S (S (3 * n)))) by lia.
  cbn [iota_from flat_map]. rewrite IH.
  unfold iota. cbn [iota_from map app].
  replace ((s + 1) * 3) with (s * 3 + 1 + 1 + 1) by lia.
  repeat (f_equal; try lia).
Qed.

Lemma Forall2_nth_error {A B : Type} (R : A -> B -> Prop) (l : list A) (l' : list B)
      (i : nat) (a : A) :
  Forall2 R l l' -> nth_error l i = Some a ->
  exists b, nth_error l' i = Some b /\ R a b.
Proof.
  intros H. revert i. induction H as [| x y l l' Hxy _ IH]; intros i Hi.
  - destruct i; discriminate.
  - destruct i as [| i]; simpl in *.
    + injection Hi as <-. exists y. now split.
    + now apply IH.
Qed.

Lemma as_unsigned_small (z : Z) : 0 <= z < 2 ^ 32 -> as_unsigned z = z.
Proof. intros H. unfold as_unsigned. now apply Z.mod_small. Qed.

Lemma path_with_fits (filename extension : string) :
  Z.of_nat (String.length filename) + Z.of_nat (String.length extension) < 256 ->
  path_with filename extension = Ok (filename ++ extension)%string.
Proof.
  intros H. unfold path_with.
  destruct (Z.ltb_spec (Z.of_nat (String.length filename)
                        + Z.of_nat (String.length extension)) 256); [reflexivity | lia].
Qed.

Section ExportValid.
Context {F : Type} {ops : CH_FLOAT_ops F} {eops : CH_EXPORT_ops F}.

Lemma face_vertex_ok (vertices : list (ch_vertex F)) (faces_ : list Z) (k f : Z) :
  lookup faces_ k = Ok f -> valid_index vertices f ->
  exists v, lookup vertices f = Ok v /\ face_vertex vertices faces_ k = Ok v.
Proof.
  intros Hk Hf. destruct (lookup_valid vertices f Hf) as [v Hv].
  exists v. split; [exact Hv |]. unfold face_vertex. rewrite Hk. exact Hv.
Qed.

Lemma obj_normal_ok (vertices : list (ch_vertex F)) (faces_ : list Z) (i : Z) :
  (forall k, i * 3 <= k < i * 3 + 3 ->
             exists f, lookup faces_ k = Ok f /\ valid_index vertices f) ->
  exists x y z, obj_normal vertices faces_ i = Ok (obj_vn x y z).
Proof.
  intros H. unfold obj_normal.
  destruct (H (i * 3 + 1)) as [f1 [H1 V1]]; [lia |].
  destruct (H (i * 3 + 2)) as [f2 [H2 V2]]; [lia |].
  destruct (H (i * 3)) as [f0 [H0 V0]]; [lia |].
  destruct (face_vertex_ok _ _ _ _ H1 V1) as [v1 [_ ->]].
  destruct (face_vertex_ok _ _ _ _ H2 V2) as [v2 [_ ->]].
  destruct (face_vertex_ok _ _ _ _ H0 V0) as [v0 [_ ->]].
  cbn [bind]. eexists _, _, _. reflexivity.
Qed.

(** The normal lines of a mesh whose indices are indices of [vertices]. *)
Lemma obj_normals_valid (vertices : list (ch_vertex F)) (faces_ : list Z) (nFaces_ : Z) :
  (forall k, 0 <= k < 3 * nFaces_ ->
             exists f, lookup faces_ k = Ok f /\ valid_index vertices f) ->
  exists nl,
    mapM (obj_normal vertices faces_) (iota (Z.to_nat nFaces_)) = Ok nl
    /\ length nl = Z.to_nat nFaces_
    /\ forall i, 0 <= i < nFaces_ ->
         exists nline, referenced nl (i + 1) = Some nline
                       /\ obj_normal vertices faces_ i = Ok nline.
Proof.
  intros Hvalid.
  destruct (mapM_ok (obj_normal vertices faces_) (iota (Z.to_nat nFaces_)))
    as [nl [Hnl Hnl_len]].
  { intros i Hi. unfold iota in Hi. apply iota_from_range in Hi.
    destruct (obj_normal_ok vertices faces_ i) as [x [y [z E]]].
    - intros k Hk. apply Hvalid. lia.
    - eexists. exact E. }
  unfold iota in Hnl_len. rewrite iota_from_length in Hnl_len.
  exists nl. split; [exact Hnl |]. split; [exact Hnl_len |].
  intros i Hi. pose proof (mapM_Forall2 _ _ _ Hnl) as Hall.
  destruct (Forall2_nth_error _ _ _ (Z.to_nat i) i Hall) as [nline [Hn Hnorm]].
  { unfold iota. rewrite iota_from_nth_error by lia. f_equal. lia. }
  exists nline. split; [| exact Hnorm].
  unfold referenced. destruct (Z.leb_spec (i + 1) 0); [lia |].
  now replace (i + 1 - 1) with i by lia.
Qed.

(** The vertex lines: a reference to corner [k] of the mesh stands for the
    line of [vertices[faces[k]]]. *)
Lemma obj_vertex_lines_valid (vertices : list (ch_vertex F)) (nVert : Z)
      (faces_ : list Z) (nFaces_ : Z) (keepOnlyUsedVerticesFLAG : bool) :
  0 <= nVert <= Z.of_nat (length vertices) ->
  0 <= 3 * nFaces_ ->
  (forall k, 0 <= k < 3 * nFaces_ ->
             exists f, lookup faces_ k = Ok f /\ 0 <= f < nVert) ->
  exists vl,
    obj_vertex_lines vertices nVert faces_ nFaces_ keepOnlyUsedVerticesFLAG = Ok vl
    /\ length vl = Z.to_nat (if keepOnlyUsedVerticesFLAG then 3 * nFaces_ else nVert)
    /\ forall k f v, 0 <= k < 3 * nFaces_ -> lookup faces_ k = Ok f ->
         lookup vertices f = Ok v ->
         referenced vl (if keepOnlyUsedVerticesFLAG then k + 1 else f + 1)
         = Some (obj_v (vx v) (vy v) (vz v)).
Proof.
  intros HnVert HnFaces Hfaces.
  assert (Hvalid : forall k, 0 <= k < 3 * nFaces_ ->
                     exists f, lookup faces_ k = Ok f /\ valid_index vertices f).
  { intros k Hk. destruct (Hfaces k Hk) as [f [Hf Hr]]. exists f.
    split; [exact Hf | unfold valid_index; lia]. }
  set (vline := fun v : ch_vertex F => obj_v (vx v) (vy v) (vz v)).
  change (exists vl,
    obj_vertex_lines vertices nVert faces_ nFaces_ keepOnlyUsedVerticesFLAG = Ok vl
    /\ length vl = Z.to_nat (if keepOnlyUsedVerticesFLAG then 3 * nFaces_ else nVert)
    /\ forall k f v, 0 <= k < 3 * nFaces_ -> lookup faces_ k = Ok f ->
         lookup vertices f = Ok v ->
         referenced vl (if keepOnlyUsedVerticesFLAG then k + 1 else f + 1)
         = Some (vline v)).
  unfold obj_vertex_lines. fold vline.
  destruct keepOnlyUsedVerticesFLAG; cbv iota.
  - unfold iota at 2. rewrite face_corner_indices. change (0 * 3) with 0.
    destruct (mapM_ok (fun k => v <- face_vertex vertices faces_ k ;; Ok (vline v))
                      (iota_from 0 (3 * Z.to_nat nFaces_))) as [vl [Hvl Hlen]].
    { intros k Hk. apply iota_from_range in Hk.
      destruct (Hvalid k) as [f [Hf Vf]]; [lia |].
      destruct (face_vertex_ok _ _ _ _ Hf Vf) as [v [_ E]].
      rewrite E. cbn [bind]. eexists. reflexivity. }
    rewrite iota_from_length in Hlen.
    exists vl. split; [exact Hvl |]. split; [lia |].
    intros k f v Hk Hf Hv. unfold referenced.
    destruct (Z.leb_spec (k + 1) 0); [lia |].
    replace (k + 1 - 1) with k by lia.
    pose proof (mapM_Forall2 _ _ _ Hvl) as Hall.
    destruct (Forall2_nth_error _ _ _ (Z.to_nat k) k Hall) as [b [Hb Hkb]].
    { rewrite iota_from_nth_error by lia. f_equal. lia. }
    rewrite Hb. unfold face_vertex in Hkb. rewrite Hf in Hkb. cbn [bind] in Hkb.
    rewrite Hv in Hkb. cbn [bind] in Hkb. congruence.
  - destruct (mapM_ok (fun i => v <- lookup vertices i ;; Ok (vline v))
                      (iota (Z.to_nat nVert))) as [vl [Hvl Hlen]].
    { intros i Hi. unfold iota in Hi. apply iota_from_range in Hi.
      destruct (lookup_valid vertices i) as [v E]; [unfold valid_index; lia |].
      rewrite E. cbn [bind]. eexists. reflexivity. }
    unfold iota in Hlen. rewrite iota_from_length in Hlen.
    exists vl. split; [exact Hvl |]. split; [exact Hlen |].
    intros k f v Hk Hf Hv. destruct (Hfaces k Hk) as [f' [Hf' Hr]].
    assert (f' = f) by congruence. subst f'.
    unfold referenced. destruct (Z.leb_spec (f + 1) 0); [lia |].
    replace (f + 1 - 1) with f by lia.
    pose proof (mapM_Forall2 _ _ _ Hvl) as Hall.
    destruct (Forall2_nth_error _ _ _ (Z.to_nat f) f Hall) as [b [Hb Hkb]].
    { unfold iota. rewrite iota_from_nth_error by lia. f_equal. lia. }
    rewrite Hb. rewrite Hv in Hkb. cbn [bind] in Hkb. congruence.
Qed.

(** The face lines: vertex reference [j] of face line [i] is corner
    [3i+j] when only the used vertices are kept, and [faces[3i+j]]
    otherwise, both counted from 1. *)
Lemma obj_face_lines_valid (faces_ : list Z) (nFaces_ nVert : Z)
      (keepOnlyUsedVerticesFLAG : bool) :
  nVert <= 2147483647 ->
  0 <= 3 * nFaces_ <= 2147483647 ->
  (forall k, 0 <= k < 3 * nFaces_ ->
             exists f, lookup faces_ k = Ok f /\ 0 <= f < nVert) ->
  exists fl,
    @obj_face_lines F faces_ nFaces_ keepOnlyUsedVerticesFLAG = Ok fl
    /\ length fl = Z.to_nat nFaces_
    /\ forall i j, 0 <= i < nFaces_ -> (j < 3)%nat ->
         exists (fline : obj_line F) f,
           nth_error fl (Z.to_nat i) = Some fline
           /\ lookup faces_ (3 * i + Z.of_nat j) = Ok f
           /\ nth j (vertex_refs fline) 0
              = (if keepOnlyUsedVerticesFLAG then 3 * i + Z.of_nat j + 1 else f + 1)
           /\ nth j (normal_refs fline) 0 = i + 1.
Proof.
  intros Hint HnFaces Hfaces.
  set (fline_used := fun i => obj_f (as_unsigned (i * 3 + 1)) (as_unsigned (i + 1))
                                    (as_unsigned (i * 3 + 1 + 1)) (as_unsigned (i + 1))
                                    (as_unsigned (i * 3 + 2 + 1)) (as_unsigned (i + 1))
                       : obj_line F).
  set (fline_all := fun i => a <- lookup faces_ (i * 3) ;;
                             b <- lookup faces_ (i * 3 + 1) ;;
                             c <- lookup faces_ (i * 3 + 2) ;;
                             Ok (obj_f (as_unsigned (a + 1)) (as_unsigned (i + 1))
                                       (as_unsigned (b + 1)) (as_unsigned (i + 1))
                                       (as_unsigned (c + 1)) (as_unsigned (i + 1))
                                 : obj_line F)).
  unfold obj_face_lines. fold fline_used fline_all.
  destruct keepOnlyUsedVerticesFLAG; cbv iota.
  - eexists. split; [reflexivity |]. split.
    { rewrite length_map. unfold iota. apply iota_from_length. }
    intros i j Hi Hj. destruct (Hfaces (3 * i + Z.of_nat j)) as [f [Hf _]]; [lia |].
    exists (fline_used i), f. split; [| split; [exact Hf |]].
    + rewrite nth_error_map. unfold iota. rewrite iota_from_nth_error by lia.
      cbn [option_map]. do 2 f_equal. lia.
    + unfold fline_used. cbn [vertex_refs normal_refs].
      rewrite !as_unsigned_small by lia.
      destruct j as [| [| [| j]]]; cbn [nth Z.of_nat Pos.of_succ_nat Pos.succ]; lia.
  - destruct (mapM_ok fline_all (iota (Z.to_nat nFaces_))) as [fl [Hfl Hlen]].
    { intros i Hi. unfold iota in Hi. apply iota_from_range in Hi. unfold fline_all.
      destruct (Hfaces (i * 3)) as [a [-> _]]; [lia |].
      destruct (Hfaces (i * 3 + 1)) as [b [-> _]]; [lia |].
      destruct (Hfaces (i * 3 + 2)) as [c [-> _]]; [lia |].
      cbn [bind]. eexists. reflexivity. }
    unfold iota in Hlen. rewrite iota_from_length in Hlen.
    exists fl. split; [exact Hfl |]. split; [exact Hlen |].
    intros i j Hi Hj.
    pose proof (mapM_Forall2 _ _ _ Hfl) as Hall.
    destruct (Forall2_nth_error _ _ _ (Z.to_nat i) i Hall) as [fline [Hb Hkb]].
    { unfold iota. rewrite iota_from_nth_error by lia. f_equal. lia. }
    unfold fline_all in Hkb.
    destruct (Hfaces (i * 3)) as [a [Ha Ra]]; [lia |].
    destruct (Hfaces (i * 3 + 1)) as [b [Hb' Rb]]; [lia |].
    destruct (Hfaces (i * 3 + 2)) as [c [Hc Rc]]; [lia |].
    rewrite Ha, Hb', Hc in Hkb. cbn [bind] in Hkb. injection Hkb as <-.
    rewrite !as_unsigned_small in Hb by lia.
    destruct j as [| [| [| j]]]; [| | | lia];
      cbn [Z.of_nat Pos.of_succ_nat Pos.succ].
    + exists (obj_f (a + 1) (i + 1) (b + 1) (i + 1) (c + 1) (i + 1)), a.
      replace (3 * i + 0) with (i * 3) by lia. cbn [vertex_refs normal_refs nth].
      repeat split; assumption.
    + exists (obj_f (a + 1) (i + 1) (b + 1) (i + 1) (c + 1) (i + 1)), b.
      replace (3 * i + 1) with (i * 3 + 1) by lia. cbn [vertex_refs normal_refs nth].
      repeat split; assumption.
    + exists (obj_f (a + 1) (i + 1) (b + 1) (i + 1) (c + 1) (i + 1)), c.
      replace (3 * i + 2) with (i * 3 + 2) by lia. cbn [vertex_refs normal_refs nth].
      repeat split; assumption.
Qed.

(** The file and the number of its lines. *)
Lemma export_obj_lines
    (vertices : list (ch_vertex F)) (nVert : Z) (faces_ : list Z) (nFaces_ : Z)
    (keepOnlyUsedVerticesFLAG : bool) (obj_filename : string) :
  (String.length obj_filename <= 251)%nat ->
  0 <= nVert <= Z.of_nat (length vertices) ->
  nVert <= 2147483647 ->
  0 <= 3 * nFaces_ <= 2147483647 ->
  (forall k, 0 <= k < 3 * nFaces_ ->
             exists f, lookup faces_ k = Ok f /\ 0 <= f < nVert) ->
  exists lines,
    convhull_3d_export_obj vertices nVert faces_ nFaces_ keepOnlyUsedVerticesFLAG
                           obj_filename
    = Ok ((obj_filename ++ ".obj")%string, lines)
    /\ Z.of_nat (length lines)
       = 1 + (if keepOnlyUsedVerticesFLAG then 3 * nFaces_ else nVert) + 2 * nFaces_.
Proof.
  intros Hname HnVert Hint HnFaces Hfaces.
  assert (Hvalid : forall k, 0 <= k < 3 * nFaces_ ->
                     exists f, lookup faces_ k = Ok f /\ valid_index vertices f).
  { intros k Hk. destruct (Hfaces k Hk) as [f [Hf Hr]]. exists f.
    split; [exact Hf | unfold valid_index; lia]. }
  unfold convhull_3d_export_obj.
  rewrite path_with_fits by (cbn [String.length]; lia). cbn [bind].
  destruct (obj_vertex_lines_valid vertices nVert faces_ nFaces_ keepOnlyUsedVerticesFLAG)
    as [vl [Hvl [Hvl_len _]]]; [assumption | lia | assumption |].
  destruct (obj_normals_valid vertices faces_ nFaces_ Hvalid) as [nl [Hnl [Hnl_len _]]].
  destruct (obj_face_lines_valid faces_ nFaces_ nVert keepOnlyUsedVerticesFLAG)
    as [fl [Hfl [Hfl_len _]]]; [assumption | assumption | assumption |].
  rewrite Hvl, Hnl, Hfl. cbn [bind]. eexists. split; [reflexivity |].
  cbn [length]. rewrite !length_app, Hvl_len, Hnl_len, Hfl_len.
  destruct keepOnlyUsedVerticesFLAG; lia.
Qed.


End ExportValid.

Section ExportedNormal.
Local Open Scope R_scope.

(** X16. The normal line of a face, in exact arithmetic: it is the cross
    product [n] of the edges [v1-v0] and [v2-v0], multiplied by
    [1/(|n| + 2.23e-9)].  It is at right angles to both edges and shorter
    than 1; it is the zero vector when the three vertices are on one line;
    otherwise it is the unit normal [plane_3d] gives for the three vertices,
    shortened by a factor between 0 and 1. *)
Theorem exported_normal_is_the_plane_normal_shortened
    (vertices : list (ch_vertex R)) (faces_ : list Z) (i : Z) (v0 v1 v2 : ch_vertex R) :
  face_vertex vertices faces_ (i * 3) = Ok v0 ->
  face_vertex vertices faces_ (i * 3 + 1) = Ok v1 ->
  face_vertex vertices faces_ (i * 3 + 2) = Ok v2 ->
  exists nx ny nz,
    obj_normal vertices faces_ i = Ok (obj_vn nx ny nz)
    /\ nx * (vx v1 - vx v0) + ny * (vy v1 - vy v0) + nz * (vz v1 - vz v0) = 0
    /\ nx * (vx v2 - vx v0) + ny * (vy v2 - vy v0) + nz * (vz v2 - vz v0) = 0
    /\ nx * nx + ny * ny + nz * nz < 1
    /\ (cross (mk_vertex (vx v1 - vx v0) (vy v1 - vy v0) (vz v1 - vz v0))
              (mk_vertex (vx v2 - vx v0) (vy v2 - vy v0) (vz v2 - vz v0))
        = mk_vertex 0 0 0 ->
        nx = 0 /\ ny = 0 /\ nz = 0)
    /\ (cross (mk_vertex (vx v1 - vx v0) (vy v1 - vy v0) (vz v1 - vz v0))
              (mk_vertex (vx v2 - vx v0) (vy v2 - vy v0) (vz v2 - vz v0))
        <> mk_vertex 0 0 0 ->
        exists t, 0 < t < 1
          /\ [nx; ny; nz]
             = map (fun c => t * c) (fst (plane_3d (v_ v0 ++ v_ v1 ++ v_ v2)))).
Proof.
  intros H0 H1 H2. unfold obj_normal. rewrite H1, H2, H0. cbn [bind].
  destruct v0 as [xa ya za], v1 as [xb yb zb], v2 as [xc yc zc].
  cbn [vx vy vz cross pow2 fadd fsub fmul fdiv fone fsqrt Exact.ops
       lit_2_23em9 Exact_export].
  set (n0 := (yb - ya) * (zc - za) - (zb - za) * (yc - ya)).
  set (n1 := (zb - za) * (xc - xa) - (xb - xa) * (zc - za)).
  set (n2 := (xb - xa) * (yc - ya) - (yb - ya) * (xc - xa)).
  set (S := n0 * n0 + n1 * n1 + n2 * n2).
  assert (HS : 0 <= S) by (subst S; nra).
  set (N := sqrt S).
  assert (HN : 0 <= N) by apply sqrt_pos.
  assert (HNN : N * N = S) by (apply sqrt_sqrt; exact HS).
  set (e := 223 / 100000000000).
  assert (He : 0 < e) by (subst e; lra).
  assert (Hd : N + e <> 0) by lra.
  exists (n0 * (1 / (N + e))), (n1 * (1 / (N + e))), (n2 * (1 / (N + e))).
  split; [reflexivity |].
  split; [subst n0 n1 n2; field; exact Hd |].
  split; [subst n0 n1 n2; field; exact Hd |].
  split; [| split].
  - replace (n0 * (1 / (N + e)) * (n0 * (1 / (N + e)))
             + n1 * (1 / (N + e)) * (n1 * (1 / (N + e)))
             + n2 * (1 / (N + e)) * (n2 * (1 / (N + e))))
      with (S / ((N + e) * (N + e))) by (subst S; field; exact Hd).
    apply Rmult_lt_reg_r with ((N + e) * (N + e)); [nra |].
    unfold Rdiv. rewrite Rmult_assoc, Rinv_l by nra. nra.
  - intros Hz. injection Hz as E0 E1 E2.
    change (n0 = 0) in E0. change (n1 = 0) in E1. change (n2 = 0) in E2.
    rewrite E0, E1, E2. lra.
  - intros Hnz.
    assert (Hpos : 0 < S).
    { destruct (Req_dec n0 0) as [E0 | E0]; [| subst S; nra].
      destruct (Req_dec n1 0) as [E1 | E1]; [| subst S; nra].
      destruct (Req_dec n2 0) as [E2 | E2]; [| subst S; nra].
      exfalso. apply Hnz. unfold cross. cbn [vx vy vz fsub fmul Exact.ops].
      fold n0 n1 n2. now rewrite E0, E1, E2. }
    assert (HNpos : 0 < N) by (apply sqrt_lt_R0; exact Hpos).
    pose proof (plane_3d_explicit xa ya za xb yb zb xc yc zc) as Hp. cbv zeta in Hp.
    assert (E0 : (yb - ya) * (zc - zb) - (yc - yb) * (zb - za) = n0) by (subst n0; ring).
    assert (E1 : (zb - za) * (xc - xb) - (zc - zb) * (xb - xa) = n1) by (subst n1; ring).
    assert (E2 : (xb - xa) * (yc - yb) - (xc - xb) * (yb - ya) = n2) by (subst n2; ring).
    rewrite E0, E1, E2 in Hp. fold S N in Hp.
    destruct (Hp Hpos) as [_ [_ [Hc _]]].
    exists (N / (N + e)). split; [split |].
    + apply Rdiv_lt_0_compat; lra.
    + apply Rmult_lt_reg_r with (N + e); [lra |].
      unfold Rdiv. rewrite Rmult_assoc, Rinv_l; lra.
    + change (v_ (mk_vertex xa ya za) ++ v_ (mk_vertex xb yb zb) ++ v_ (mk_vertex xc yc zc))
        with [xa; ya; za; xb; yb; zb; xc; yc; zc].
      rewrite Hc. cbn [map]. f_equal; [| f_equal; [| f_equal]]; field; lra.
Qed.

End ExportedNormal.

Section ExportM.
Context {F : Type} {ops : CH_FLOAT_ops F}.

(** A loop that reads [a[s], a[s+1], ..] in turn. *)
Lemma mapM_lookup_from {A B : Type} (g : A -> B) (a : list A) (n s : nat) :
  (s + n <= length a)%nat ->
  mapM (fun i => v <- lookup a i ;; Ok (g v)) (iota_from (Z.of_nat s) n)
  = Ok (map g (firstn n (skipn s a))).
Proof.
  revert s. induction n as [| n IH]; intros s Hs; [reflexivity |].
  cbn [iota_from mapM].
  destruct (nth_error a s) as [v |] eqn:Hv;
    [| apply nth_error_None in Hv; lia].
  rewrite (lookup_nth_error a s v Hv). cbn [bind].
  replace (Z.of_nat s + 1) with (Z.of_nat (S s)) by lia.
  rewrite IH by lia. cbn [bind]. do 2 f_equal.
  clear - Hv. revert a Hv. induction s as [| s IHs]; intros a Hv.
  - destruct a; [discriminate |]. injection Hv as ->. reflexivity.
  - destruct a; [discriminate |]. cbn [skipn]. now apply IHs.
Qed.

Lemma mapM_lookup_all {A B : Type} (g : A -> B) (a : list A) (n : nat) :
  (n <= length a)%nat ->
  mapM (fun i => v <- lookup a i ;; Ok (g v)) (iota n) = Ok (map g (firstn n a)).
Proof. intros H. unfold iota. exact (mapM_lookup_from g a n 0 H). Qed.


End ExportM.

(** * hrtf_builder.cpp *)

(** ** The wav files *)

Lemma ReadExact_enough (len : nat) (stream : list byte) :
  (len <= length stream)%nat ->
  ReadExact len stream = Returns (firstn len stream, skipn len stream).
Proof.
  intros H. unfold ReadExact.
  destruct (Nat.leb_spec len (length stream)); [reflexivity | lia].
Qed.

Lemma ReadExact_short (len : nat) (stream : list byte) :
  (length stream < len)%nat -> ReadExact len stream = Throws "invalid wav".
Proof.
  intros H. unfold ReadExact.
  destruct (Nat.leb_spec len (length stream)); [lia | reflexivity].
Qed.

Lemma skipn_skipn_add {A : Type} (a b : nat) (l : list A) :
  skipn a (skipn b l) = skipn (b + a) l.
Proof. rewrite skipn_skipn. f_equal. lia. Qed.

(** The thirteen reads of the header, as one read of 44 bytes. *)
Lemma read_WavHeader_layout (f : list byte) :
  read_WavHeader f
  = if (length f <? 44)%nat then Throws "invalid wav"
    else Returns (mk_WavHeader (bytes_at f 0 4) (uint_at f 4 4) (bytes_at f 8 4)
                               (bytes_at f 12 4) (uint_at f 16 4) (uint_at f 20 2)
                               (uint_at f 22 2) (uint_at f 24 4) (uint_at f 28 4)
                               (uint_at f 32 2) (uint_at f 34 2) (bytes_at f 36 4)
                               (uint_at f 40 4),
                  skipn 44 f).
Proof.
  unfold read_WavHeader, ReadExact_uint.
  destruct (Nat.ltb_spec (length f) 44) as [Hshort | Hlong].
  - repeat (match goal with
            | |- context [ReadExact ?n ?s] =>
                let Hle := fresh "Hle" in
                let Hgt := fresh "Hgt" in
                destruct (Nat.le_gt_cases n (length s)) as [Hle | Hgt];
                [rewrite (ReadExact_enough n s Hle); cbn [rbind]
                | rewrite (ReadExact_short n s Hgt); reflexivity]
            end).
    exfalso. rewrite ?length_skipn in *. lia.
  - repeat (rewrite ReadExact_enough by (rewrite ?length_skipn; lia); cbn [rbind];
            rewrite ?skipn_skipn_add; cbn [Nat.add]).
    reflexivity.
Qed.

Lemma differs_false (id : list byte) (tag : string) :
  differs id tag = false <-> id = list_byte_of_string tag.
Proof.
  unfold differs. destruct (list_eq_dec Byte.byte_eq_dec id (list_byte_of_string tag));
    cbn [negb]; split; intros; congruence.
Qed.

(** The constructor of [SoundBuffer], with the reads of the header resolved
    to offsets in the file. *)
Lemma SoundBuffer_of_layout (file_name : string) (f : list byte) :
  SoundBuffer_of file_name (Some f)
  = if (length f <? 44)%nat then Throws "invalid wav"
    else if differs (bytes_at f 0 4) "RIFF" then Throws "wav: invalid chunk id"
    else if differs (bytes_at f 36 4) "data" then Throws "invalid wav"
    else if differs (bytes_at f 12 4) "fmt " then Throws "wav: invalid fmt chunk id"
    else if differs (bytes_at f 8 4) "WAVE" then Throws "wav: invalid format"
    else if negb (uint_at f 20 2 =? 1)
    then Throws "wav: compressed formats not supported!"
    else if negb (uint_at f 22 2 =? 2) then Throws "hrtf must have two channels!"
    else if Z.of_nat (length f) - 44 <? uint_at f 40 4 then Throws "invalid wav"
    else Returns (mk_SoundBuffer (bytes_at f 44 (Z.to_nat (uint_at f 40 4)))
                                 (uint_at f 34 2 / 8) (uint_at f 24 4)).
Proof.
  unfold SoundBuffer_of. rewrite read_WavHeader_layout.
  destruct (Nat.ltb_spec (length f) 44) as [Hshort | Hlong]; [reflexivity |].
  cbn [rbind].
  cbn [chunk_id data_chunk_id fmt_chunk_id format audio_format num_channels
       data_chunk_size bits_per_sample sample_rate].
  destruct (differs (bytes_at f 0 4) "RIFF"); [reflexivity |].
  destruct (differs (bytes_at f 36 4) "data"); [reflexivity |].
  destruct (differs (bytes_at f 12 4) "fmt "); [reflexivity |].
  destruct (differs (bytes_at f 8 4) "WAVE"); [reflexivity |].
  destruct (negb (uint_at f 20 2 =? 1)); [reflexivity |].
  destruct (negb (uint_at f 22 2 =? 2)); [reflexivity |].
  destruct (Z.ltb_spec (Z.of_nat (length f) - 44) (uint_at f 40 4)) as [Hlt | Hge].
  - rewrite ReadExact_short; [reflexivity |]. rewrite length_skipn. lia.
  - rewrite ReadExact_enough; [reflexivity |]. rewrite length_skipn. lia.
Qed.

(** X18. The constructor of [SoundBuffer] never reads outside the file, and
    it accepts exactly the files of this layout: at least 44 bytes, "RIFF"
    at offset 0, "WAVE" at 8, "fmt " at 12, audio format 1 at 20, two
    channels at 22, "data" at 36, and after the 44 bytes of the header at
    least as many bytes as the data size at offset 40 tells.  The buffer is
    then that many bytes from offset 44, with the sample size that is the
    bits per sample at offset 34 divided by 8 and the sample rate at
    offset 24. *)
Theorem SoundBuffer_accepts_the_canonical_layout
    (file_name : string) (file : option (list byte)) (b : SoundBuffer) :
  SoundBuffer_of file_name file <> Undefined
  /\ (SoundBuffer_of file_name file = Returns b
      <-> exists f,
            file = Some f /\ (44 <= length f)%nat
            /\ bytes_at f 0 4 = list_byte_of_string "RIFF"
            /\ bytes_at f 8 4 = list_byte_of_string "WAVE"
            /\ bytes_at f 12 4 = list_byte_of_string "fmt "
            /\ uint_at f 20 2 = 1
            /\ uint_at f 22 2 = 2
            /\ bytes_at f 36 4 = list_byte_of_string "data"
            /\ uint_at f 40 4 <= Z.of_nat (length f) - 44
            /\ b = mk_SoundBuffer (bytes_at f 44 (Z.to_nat (uint_at f 40 4)))
                                  (uint_at f 34 2 / 8) (uint_at f 24 4)).
Proof.
  destruct file as [f |]; [| split; [discriminate |]; split;
                             [discriminate | intros [f [H _]]; discriminate]].
  rewrite SoundBuffer_of_layout.
  destruct (Nat.ltb_spec (length f) 44) as [Hshort | Hlong].
  { split; [discriminate |]. split; [discriminate |].
    intros [f' [E [H _]]]. injection E as <-. lia. }
  destruct (differs (bytes_at f 0 4) "RIFF") eqn:D1.
  { split; [discriminate |]. split; [discriminate |].
    intros [f' [E [_ [H _]]]]. injection E as <-.
    apply differs_false in H. congruence. }
  destruct (differs (bytes_at f 36 4) "data") eqn:D2.
  { split; [discriminate |]. split; [discriminate |].
    intros [f' [E [_ [_ [_ [_ [_ [_ [H _]]]]]]]]]. injection E as <-.
    apply differs_false in H. congruence. }
  destruct (differs (bytes_at f 12 4) "fmt ") eqn:D3.
  { split; [discriminate |]. split; [discriminate |].
    intros [f' [E [_ [_ [_ [H _]]]]]]. injection E as <-.
    apply differs_false in H. congruence. }
  destruct (differs (bytes_at f 8 4) "WAVE") eqn:D4.
  { split; [discriminate |]. split; [discriminate |].
    intros [f' [E [_ [_ [H _]]]]]. injection E as <-.
    apply differs_false in H. congruence. }
  destruct (Z.eqb_spec (uint_at f 20 2) 1) as [E1 | E1]; cbn [negb].
  2:{ split; [discriminate |]. split; [discriminate |].
      intros [f' [E [_ [_ [_ [_ [H _]]]]]]]. injection E as <-. contradiction. }
  destruct (Z.eqb_spec (uint_at f 22 2) 2) as [E2 | E2]; cbn [negb].
  2:{ split; [discriminate |]. split; [discriminate |].
      intros [f' [E [_ [_ [_ [_ [_ [H _]]]]]]]]. injection E as <-. contradiction. }
  destruct (Z.ltb_spec (Z.of_nat (length f) - 44) (uint_at f 40 4)) as [Hlt | Hge].
  { split; [discriminate |]. split; [discriminate |].
    intros [f' [E [_ [_ [_ [_ [_ [_ [_ [H _]]]]]]]]]]. injection E as <-. lia. }
  apply differs_false in D1, D2, D3, D4.
  split; [discriminate |]. split.
  - intros H. injection H as <-. exists f. repeat split; assumption.
  - intros [f' [E [_ [_ [_ [_ [_ [_ [_ [_ ->]]]]]]]]]]. injection E as <-. reflexivity.
Qed.

(** ** The samples *)

Lemma byte_val_range (b : byte) : 0 <= byte_val b <= 255.
Proof. unfold byte_val. pose proof (Byte.to_N_bounded b). lia. Qed.

Lemma char_val_range (b : byte) : -128 <= char_val b <= 127.
Proof.
  unfold char_val. pose proof (byte_val_range b).
  destruct (Z.ltb_spec (byte_val b) 128); lia.
Qed.

Lemma short_val_range (b0 b1 : byte) : -32768 <= short_val b0 b1 <= 32767.
Proof.
  unfold short_val. cbn [le_uint].
  pose proof (byte_val_range b0). pose proof (byte_val_range b1).
  destruct (Z.ltb_spec (byte_val b0 + 256 * (byte_val b1 + 256 * 0)) 32768); lia.
Qed.

Section Samples.
Context {F32 : Type} {fops : FLOAT_ops F32}.

(** X19. The loop of [main] over the samples, for a sample size of 1 or 2:
    when the buffer holds a whole number of pairs of samples the loop ends at
    the end of the buffer, with one left and one right value for each pair;
    when it does not, the loop misses [end] and reads past the buffer. *)
Theorem read_samples_needs_whole_pairs
    (ptr : list byte) (sampleSize : Z) (sampleLimit : F32) (fuel : nat) :
  sampleSize = 1 \/ sampleSize = 2 ->
  (length ptr <= fuel)%nat ->
  (Z.of_nat (length ptr) mod (2 * sampleSize) = 0 ->
   exists l r,
     read_samples fuel ptr sampleSize sampleLimit = Returns (l, r)
     /\ Z.of_nat (length l) = Z.of_nat (length ptr) / (2 * sampleSize)
     /\ length r = length l)
  /\ (Z.of_nat (length ptr) mod (2 * sampleSize) <> 0 ->
      read_samples fuel ptr sampleSize sampleLimit = Undefined).
Proof.
  intros Hsize. revert ptr. induction fuel as [| fuel IH]; intros ptr Hfuel.
  - destruct ptr; [| cbn [length] in Hfuel; lia]. split.
    + intros _. exists [], []. repeat split.
    + intros H. exfalso. apply H. destruct Hsize as [-> | ->]; reflexivity.
  - destruct ptr as [| a ptr]; [split; [intros _; exists [], []; repeat split |
                                        intros H; exfalso; apply H;
                                        destruct Hsize as [-> | ->]; reflexivity] |].
    cbn [read_samples]. unfold ReadSamplePair.
    destruct Hsize as [-> | ->].
    + change (1 =? 1) with true. change (2 * 1) with 2 in *.
      change (Z.to_nat 2) with 2%nat. cbv iota.
      destruct ptr as [| b rest].
      * split; [intros H; exfalso; cbn in H; lia | reflexivity].
      * cbn [rbind skipn fst snd].
        destruct (IH rest) as [IH1 IH2]; [cbn [length] in Hfuel; lia |].
        assert (Hmod : Z.of_nat (length (a :: b :: rest)) mod 2
                       = Z.of_nat (length rest) mod 2).
        { cbn [length]. rewrite !Nat2Z.inj_succ.
          replace (Z.succ (Z.succ (Z.of_nat (length rest))))
            with (Z.of_nat (length rest) + 1 * 2) by lia.
          apply Z_mod_plus_full. }
        assert (Hdiv : Z.of_nat (length (a :: b :: rest)) / 2
                       = Z.of_nat (length rest) / 2 + 1).
        { cbn [length]. rewrite !Nat2Z.inj_succ.
          replace (Z.succ (Z.succ (Z.of_nat (length rest))))
            with (Z.of_nat (length rest) + 1 * 2) by lia.
          rewrite Z_div_plus_full by lia. reflexivity. }
        rewrite Hmod, Hdiv. split.
        -- intros H. destruct (IH1 H) as [l [r [-> [Hl Hr]]]]. cbn [rbind fst snd].
           eexists _, _. split; [reflexivity |]. cbn [length]. split; lia.
        -- intros H. now rewrite (IH2 H).
    + change (2 =? 1) with false. change (2 =? 2) with true.
      change (2 * 2) with 4 in *. change (Z.to_nat 4) with 4%nat. cbv iota.
      destruct ptr as [| a1 [| b0 [| b1 rest]]];
        try (split; [intros H; exfalso; cbn in H; lia | reflexivity]).
      cbn [rbind skipn fst snd].
      destruct (IH rest) as [IH1 IH2]; [cbn [length] in Hfuel; lia |].
      assert (Hmod : Z.of_nat (length (a :: a1 :: b0 :: b1 :: rest)) mod 4
                     = Z.of_nat (length rest) mod 4).
      { cbn [length]. rewrite !Nat2Z.inj_succ.
        replace (Z.succ (Z.succ (Z.succ (Z.succ (Z.of_nat (length rest))))))
          with (Z.of_nat (length rest) + 1 * 4) by lia.
        apply Z_mod_plus_full. }
      assert (Hdiv : Z.of_nat (length (a :: a1 :: b0 :: b1 :: rest)) / 4
                     = Z.of_nat (length rest) / 4 + 1).
      { cbn [length]. rewrite !Nat2Z.inj_succ.
        replace (Z.succ (Z.succ (Z.succ (Z.succ (Z.of_nat (length rest))))))
          with (Z.of_nat (length rest) + 1 * 4) by lia.
        rewrite Z_div_plus_full by lia. reflexivity. }
      rewrite Hmod, Hdiv. split.
      * intros H. destruct (IH1 H) as [l [r [-> [Hl Hr]]]]. cbn [rbind fst snd].
        eexists _, _. split; [reflexivity |]. cbn [length]. split; lia.
      * intros H. now rewrite (IH2 H).
Qed.

End Samples.

Section ExactSamples.
Local Open Scope R_scope.

Lemma ReadSamplePair_range (ptr : list byte) (sampleSize limit : Z) (l r : Z) :
  SampleLimit sampleSize = Returns limit ->
  ReadSamplePair ptr sampleSize = Returns (l, r) ->
  (- limit - 1 <= l <= limit /\ - limit - 1 <= r <= limit)%Z.
Proof.
  unfold SampleLimit, ReadSamplePair.
  destruct (sampleSize =? 1)%Z.
  - intros H. injection H as <-.
    destruct ptr as [| a [| b rest]]; try discriminate.
    intros H. injection H as <- <-.
    pose proof (char_val_range a). pose proof (char_val_range b). lia.
  - destruct (sampleSize =? 2)%Z; [| discriminate].
    intros H. injection H as <-.
    destruct ptr as [| a0 [| a1 [| b0 [| b1 rest]]]]; try discriminate.
    intros H. injection H as <- <-.
    pose proof (short_val_range a0 a1). pose proof (short_val_range b0 b1). lia.
Qed.

(** X20. In exact arithmetic every value of an impulse response is the
    sample divided by the limit of its size (127 or 32767): at most 1, and
    at least [-1 - 1/limit], the value of the most negative sample. *)
Theorem samples_are_normalised_by_the_limit
    (ptr : list byte) (sampleSize limit : Z) (fuel : nat) (l r : list R) :
  SampleLimit sampleSize = Returns limit ->
  @read_samples R ExactFloat.ops fuel ptr sampleSize (IZR limit) = Returns (l, r) ->
  forall v, In v l \/ In v r -> - 1 - 1 / IZR limit <= v <= 1.
Proof.
  intros Hlimit.
  assert (Hpos : (0 < limit)%Z).
  { unfold SampleLimit in Hlimit.
    destruct (sampleSize =? 1)%Z; [injection Hlimit as <-; lia |].
    destruct (sampleSize =? 2)%Z; [injection Hlimit as <-; lia | discriminate]. }
  assert (Hone : forall s : Z, (- limit - 1 <= s <= limit)%Z ->
                   - 1 - 1 / IZR limit <= IZR s / IZR limit <= 1).
  { intros s [Hlo Hhi]. apply IZR_lt in Hpos. apply IZR_le in Hlo, Hhi.
    rewrite minus_IZR, opp_IZR in Hlo.
    split.
    - apply Rmult_le_reg_r with (IZR limit); [exact Hpos |].
      unfold Rdiv. rewrite Rmult_assoc, Rinv_l by lra.
      replace ((- 1 - 1 * / IZR limit) * IZR limit)
        with (- IZR limit - 1) by (field; lra).
      lra.
    - apply Rmult_le_reg_r with (IZR limit); [exact Hpos |].
      unfold Rdiv. rewrite Rmult_assoc, Rinv_l by lra. lra. }
  revert ptr l r. induction fuel as [| fuel IH]; intros ptr l r Hread v Hv.
  - destruct ptr; cbn [read_samples] in Hread; [| discriminate].
    injection Hread as <- <-. destruct Hv as [[] | []].
  - destruct ptr as [| a ptr]; cbn [read_samples] in Hread.
    + injection Hread as <- <-. destruct Hv as [[] | []].
    + destruct (ReadSamplePair (a :: ptr) sampleSize) as [[sl sr] | |] eqn:Hpair;
        try discriminate.
      cbn [rbind] in Hread.
      destruct (read_samples fuel _ sampleSize (IZR limit)) as [[l' r'] | |] eqn:Hrest;
        try discriminate.
      cbn [rbind fst snd] in Hread. injection Hread as <- <-.
      destruct (ReadSamplePair_range _ _ _ _ _ Hlimit Hpair) as [Hl Hr].
      cbn [float_div float_of_int ExactFloat.ops] in Hv.
      destruct Hv as [[<- | Hv] | [<- | Hv]].
      * now apply Hone.
      * apply (IH _ _ _ Hrest). now left.
      * now apply Hone.
      * apply (IH _ _ _ Hrest). now right.
Qed.

End ExactSamples.

(** ** The sphere *)

Section ExactSphere.
Local Open Scope R_scope.

(** X21. In exact arithmetic [SphericalToCartesian] returns a point at
    distance [radius] from the origin, and so every position that
    [ParseFileName] returns is on the unit sphere, whatever [atof] reads in
    the file name. *)
Theorem positions_are_on_the_unit_sphere (io : FLOAT_io R) :
  (forall azimuth elevation radius : R,
      let p := @SphericalToCartesian R ExactFloat.ops azimuth elevation radius in
      Vec3_x p * Vec3_x p + Vec3_y p * Vec3_y p + Vec3_z p * Vec3_z p
      = radius * radius)
  /\ forall (fileName : string) (p : Vec3 R),
       @ParseFileName R ExactFloat.ops io fileName = Returns p ->
       Vec3_x p * Vec3_x p + Vec3_y p * Vec3_y p + Vec3_z p * Vec3_z p = 1.
Proof.
  assert (H : forall azimuth elevation radius : R,
      let p := @SphericalToCartesian R ExactFloat.ops azimuth elevation radius in
      Vec3_x p * Vec3_x p + Vec3_y p * Vec3_y p + Vec3_z p * Vec3_z p
      = radius * radius).
  { intros a e r. cbv zeta. unfold SphericalToCartesian.
    cbn [Vec3_x Vec3_y Vec3_z float_mul float_neg float_sin float_cos ExactFloat.ops].
    pose proof (sin2_cos2 a) as Ha. pose proof (sin2_cos2 e) as He.
    unfold Rsqr in Ha, He.
    replace (r * sin e * sin a * (r * sin e * sin a) + r * cos e * (r * cos e)
             + - r * sin e * cos a * (- r * sin e * cos a))
      with (r * r * (sin e * sin e * (sin a * sin a + cos a * cos a) + cos e * cos e))
      by ring.
    rewrite Ha. replace (sin e * sin e * 1 + cos e * cos e) with 1 by lra. ring. }
  split; [exact H |].
  intros fileName p. unfold ParseFileName.
  destruct (index 0 "_T" fileName); [| discriminate].
  destruct (index 0 "_P" fileName); [| discriminate].
  intros E. injection E as <-. rewrite H.
  cbn [float_of_int ExactFloat.ops]. ring.
Qed.

End ExactSphere.

(** ** [Validate] and [Save] *)

Section ValidateSave.
Context {F32 : Type} {fops : FLOAT_ops F32} {io : FLOAT_io F32}.

Lemma Validate_loop_spec (len : nat) (rate : Z) (vs : list (HrtfVertex F32)) :
  Validate_loop len rate vs <> Undefined
  /\ (Validate_loop len rate vs = Returns tt
      <-> forall v, In v vs ->
            length (m_LeftHRIR v) = len /\ length (m_RightHRIR v) = len
            /\ hv_SampleRate v = rate).
Proof.
  induction vs as [| v vs [IH1 IH2]]; cbn [Validate_loop].
  - split; [discriminate |]. split; [intros _ v [] | reflexivity].
  - destruct (Nat.eqb_spec (length (m_LeftHRIR v)) len) as [El | El]; cbn [negb orb].
    2:{ split; [discriminate |]. split; [discriminate |].
        intros H. destruct (H v (or_introl eq_refl)) as [E _]. contradiction. }
    destruct (Nat.eqb_spec (length (m_RightHRIR v)) len) as [Er | Er]; cbn [negb].
    2:{ split; [discriminate |]. split; [discriminate |].
        intros H. destruct (H v (or_introl eq_refl)) as [_ [E _]]. contradiction. }
    destruct (Z.eqb_spec (hv_SampleRate v) rate) as [Es | Es]; cbn [negb].
    2:{ split; [discriminate |]. split; [discriminate |].
        intros H. destruct (H v (or_introl eq_refl)) as [_ [_ E]]. contradiction. }
    split; [exact IH1 |]. rewrite IH2. split.
    + intros H w [<- | Hw]; [repeat split; assumption | now apply H].
    + intros H w Hw. apply H. now right.
Qed.

(** X22. [Validate] returns normally exactly when the sphere has a vertex
    and every vertex has impulse responses of the length of the first
    vertex's left one, for both ears, and the sample rate of the first
    vertex; it throws otherwise, and it reads nothing outside the vector. *)
Theorem Validate_accepts_uniform_spheres (s : HrtfSphere F32) :
  Validate s <> Undefined
  /\ (Validate s = Returns tt
      <-> exists v0 rest,
            m_Vertices s = v0 :: rest
            /\ forall v, In v (m_Vertices s) ->
                 length (m_LeftHRIR v) = length (m_LeftHRIR v0)
                 /\ length (m_RightHRIR v) = length (m_LeftHRIR v0)
                 /\ hv_SampleRate v = hv_SampleRate v0).
Proof.
  unfold Validate. destruct (m_Vertices s) as [| v0 rest] eqn:E.
  - split; [discriminate |]. split; [discriminate |].
    intros [v0 [rest [H _]]]. discriminate.
  - destruct (Validate_loop_spec (length (m_LeftHRIR v0)) (hv_SampleRate v0) (v0 :: rest))
      as [H1 H2].
    split; [exact H1 |]. rewrite H2. split.
    + intros H. exists v0, rest. split; [reflexivity | exact H].
    + intros [v0' [rest' [E' H]]]. injection E' as <- <-. exact H.
Qed.

End ValidateSave.

(** ** The file written *)

Lemma byte_val_of (z : Z) : byte_val (byte_of z) = z mod 256.
Proof.
  unfold byte_val, byte_of.
  pose proof (Z.mod_pos_bound z 256 ltac:(lia)) as Hr.
  destruct (Byte.of_N (Z.to_N (z mod 256))) as [b |] eqn:E.
  - apply Byte.to_of_N in E. rewrite E. lia.
  - apply Byte.of_N_None_iff in E. lia.
Qed.

Lemma le_bytes_length (len : nat) (z : Z) : length (le_bytes len z) = len.
Proof.
  revert z. induction len as [| len IH]; intros z; cbn [le_bytes length];
    [reflexivity | now rewrite IH].
Qed.

(** Reading back an unsigned integer that was written. *)
Lemma le_uint_le_bytes (len : nat) (z : Z) :
  le_uint (le_bytes len z) = z mod 256 ^ Z.of_nat len.
Proof.
  revert z. induction len as [| len IH]; intros z.
  - cbn [le_bytes le_uint Z.of_nat]. now rewrite Z.pow_0_r, Z.mod_1_r.
  - cbn [le_bytes le_uint]. rewrite byte_val_of, IH.
    rewrite Nat2Z.inj_succ, Z.pow_succ_r by lia.
    rewrite (Z.mul_comm 256), Z.rem_mul_r by lia. lia.
Qed.

Lemma firstn_app_exact {A : Type} (n : nat) (a b : list A) :
  length a = n -> firstn n (a ++ b) = a.
Proof. intros <-. apply firstn_length_app. Qed.

Lemma skipn_app_exact {A : Type} (n : nat) (a b : list A) :
  length a = n -> skipn n (a ++ b) = b.
Proof. intros <-. apply skipn_length_app. Qed.

Lemma flat_map_length_const {A B : Type} (g : A -> list B) (k : nat) (l : list A) :
  (forall a, In a l -> length (g a) = k) -> length (flat_map g l) = (length l * k)%nat.
Proof.
  induction l as [| a l IH]; intros H; [reflexivity |].
  cbn [flat_map length]. rewrite length_app, H by now left.
  rewrite IH by (intros b Hb; apply H; now right). lia.
Qed.

Lemma uint_at_index (l : list Z) (rest : list byte) (i : nat) :
  (i < length l)%nat ->
  uint_at (flat_map (WriteExact_uint 4) l ++ rest) (4 * i) 4 = to_uint32 (nth i l 0).
Proof.
  revert i. induction l as [| a l IH]; intros i Hi; [cbn [length] in Hi; lia |].
  destruct i as [| i].
  - change (4 * 0)%nat with 0%nat. cbn [flat_map nth]. unfold uint_at, bytes_at.
    cbn [skipn]. rewrite <- app_assoc.
    rewrite firstn_app_exact by apply le_bytes_length.
    unfold WriteExact_uint. rewrite le_uint_le_bytes. reflexivity.
  - cbn [flat_map nth]. unfold uint_at, bytes_at.
    replace (4 * S i)%nat with (4 * i + 4)%nat by lia.
    rewrite <- skipn_skipn, <- app_assoc.
    rewrite (skipn_app_exact 4) by apply le_bytes_length.
    apply IH. cbn [length] in Hi. lia.
Qed.

Section SaveLayout.
Context {F32 : Type} {fops : FLOAT_ops F32} {io : FLOAT_io F32} {IOS : FLOAT_io_spec io}.

Lemma vertex_bytes_length (v : HrtfVertex F32) :
  length (vertex_bytes v)
  = (12 + 4 * length (m_LeftHRIR v) + 4 * length (m_RightHRIR v))%nat.
Proof.
  unfold vertex_bytes. rewrite !length_app, !float_bytes_length.
  rewrite !(flat_map_length_const float_bytes 4)
    by (intros; apply float_bytes_length).
  lia.
Qed.

(** What [Save] writes for a sphere that [Validate] accepts. *)
Lemma Save_layout (s : HrtfSphere F32) :
  Validate s = Returns tt ->
  exists v0 output,
    hd_error (m_Vertices s) = Some v0
    /\ Save s = Returns output
    /\ bytes_at output 0 4 = list_byte_of_string "HRIR"
    /\ uint_at output 4 4 = to_uint32 (hv_SampleRate v0)
    /\ uint_at output 8 4 = to_uint32 (Z.of_nat (length (m_LeftHRIR v0)))
    /\ uint_at output 12 4 = to_uint32 (Z.of_nat (length (m_Vertices s)))
    /\ uint_at output 16 4 = to_uint32 (Z.of_nat (length (m_Indices s)))
    /\ (forall i, (i < length (m_Indices s))%nat ->
          uint_at output (20 + 4 * i) 4 = to_uint32 (nth i (m_Indices s) 0))
    /\ Z.of_nat (length output)
       = 20 + 4 * Z.of_nat (length (m_Indices s))
         + Z.of_nat (length (m_Vertices s))
           * (12 + 8 * Z.of_nat (length (m_LeftHRIR v0))).
Proof.
  intros Hval. unfold Validate in Hval. unfold Save.
  destruct (m_Vertices s) as [| v0 rest] eqn:E; [discriminate |].
  pose proof (proj1 (proj2 (Validate_loop_spec (length (m_LeftHRIR v0))
                              (hv_SampleRate v0) (v0 :: rest))) Hval) as Hall.
  clear Hval. rename Hall into Hval.
  exists v0. eexists. split; [reflexivity |]. split; [reflexivity |].
  unfold WriteExact_uint at 1 2 3 4.
  set (body := flat_map (WriteExact_uint 4) (m_Indices s) ++ flat_map vertex_bytes (v0 :: rest)).
  assert (Hmagic : length FileMagic = 4%nat) by reflexivity.
  split; [| split; [| split; [| split; [| split; [| split]]]]].
  - unfold bytes_at. cbn [skipn]. now rewrite firstn_app_exact.
  - unfold uint_at, bytes_at. rewrite (skipn_app_exact 4) by exact Hmagic.
    rewrite firstn_app_exact by apply le_bytes_length.
    rewrite le_uint_le_bytes. reflexivity.
  - unfold uint_at, bytes_at.
    change 8%nat with (4 + 4)%nat. rewrite <- skipn_skipn.
    rewrite (skipn_app_exact 4) by exact Hmagic.
    rewrite (skipn_app_exact 4) by apply le_bytes_length.
    rewrite firstn_app_exact by apply le_bytes_length.
    rewrite le_uint_le_bytes. unfold to_uint32. now rewrite Z.mod_mod by lia.
  - unfold uint_at, bytes_at.
    change 12%nat with (4 + (4 + 4))%nat. rewrite <- !skipn_skipn.
    rewrite (skipn_app_exact 4) by exact Hmagic.
    rewrite !(skipn_app_exact 4) by apply le_bytes_length.
    rewrite firstn_app_exact by apply le_bytes_length.
    rewrite le_uint_le_bytes. unfold to_uint32. now rewrite Z.mod_mod by lia.
  - unfold uint_at, bytes_at.
    change 16%nat with (4 + (4 + (4 + 4)))%nat. rewrite <- !skipn_skipn.
    rewrite (skipn_app_exact 4) by exact Hmagic.
    rewrite !(skipn_app_exact 4) by apply le_bytes_length.
    rewrite firstn_app_exact by apply le_bytes_length.
    rewrite le_uint_le_bytes. unfold to_uint32. now rewrite Z.mod_mod by lia.
  - intros i Hi. unfold uint_at, bytes_at.
    replace (20 + 4 * i)%nat with (4 * i + (4 + (4 + (4 + (4 + 4)))))%nat by lia.
    rewrite <- !skipn_skipn.
    rewrite (skipn_app_exact 4) by exact Hmagic.
    rewrite !(skipn_app_exact 4) by apply le_bytes_length.
    subst body. exact (uint_at_index (m_Indices s) _ i Hi).
  - rewrite !length_app, Hmagic, !le_bytes_length. subst body. rewrite length_app.
    rewrite (flat_map_length_const (WriteExact_uint 4) 4)
      by (intros; apply le_bytes_length).
    rewrite (flat_map_length_const vertex_bytes
               (12 + 8 * length (m_LeftHRIR v0))).
    + lia.
    + intros v Hv. rewrite vertex_bytes_length.
      destruct (Hval v Hv) as [-> [-> _]]. lia.
Qed.

End SaveLayout.

Section SaveReadBack.
Context {F32 : Type} {fops : FLOAT_ops F32} {io : FLOAT_io F32} {IOS : FLOAT_io_spec io}.

Lemma ReadExact_uint_at (f : list byte) (off len : nat) :
  (off + len <= length f)%nat ->
  ReadExact_uint len (skipn off f) = Returns (uint_at f off len, skipn (off + len) f).
Proof.
  intros H. unfold ReadExact_uint.
  rewrite ReadExact_enough by (rewrite length_skipn; lia).
  cbn [rbind]. now rewrite skipn_skipn_add.
Qed.

(** X23. What [Save] writes, read back with [ReadExact]: for a sphere that
    [Validate] accepts, the file starts with "HRIR", the sample rate and the
    length of the impulse responses of the first vertex, the number of
    vertices and the number of indices, each as an [uint32_t]; then come the
    indices, four bytes each, and for each vertex twelve bytes of position
    and eight bytes for each value of its impulse responses, and nothing
    more.  On a sphere without vertices [Save] reads [m_Vertices[0]]. *)
Theorem Save_writes_what_the_header_says (s : HrtfSphere F32) :
  (m_Vertices s = [] -> Save s = Undefined)
  /\ (Validate s = Returns tt ->
      exists v0 output,
        hd_error (m_Vertices s) = Some v0
        /\ Save s = Returns output
        /\ ('(magic, f) <~ ReadExact 4 output ;;
            '(sampleRate, f) <~ ReadExact_uint 4 f ;;
            '(hrirLen, f) <~ ReadExact_uint 4 f ;;
            '(vertexCount, f) <~ ReadExact_uint 4 f ;;
            '(indexCount, f) <~ ReadExact_uint 4 f ;;
            '(indices, f) <~ ReadExact (4 * length (m_Indices s)) f ;;
            Returns (magic, sampleRate, hrirLen, vertexCount, indexCount,
                     Z.of_nat (length f)))
           = Returns (list_byte_of_string "HRIR",
                      to_uint32 (hv_SampleRate v0),
                      to_uint32 (Z.of_nat (length (m_LeftHRIR v0))),
                      to_uint32 (Z.of_nat (length (m_Vertices s))),
                      to_uint32 (Z.of_nat (length (m_Indices s))),
                      Z.of_nat (length (m_Vertices s))
                      * (12 + 8 * Z.of_nat (length (m_LeftHRIR v0))))
        /\ forall i, (i < length (m_Indices s))%nat ->
             uint_at output (20 + 4 * i) 4 = to_uint32 (nth i (m_Indices s) 0)).
Proof.
  split.
  - intros E. unfold Save. now rewrite E.
  - intros Hval.
    destruct (Save_layout s Hval)
      as [v0 [output [Hhd [Hsave [Hm [H4 [H8 [H12 [H16 [Hidx Hlen]]]]]]]]]].
    exists v0, output. split; [exact Hhd |]. split; [exact Hsave |].
    split; [| exact Hidx].
    assert (Hpos : 0 <= Z.of_nat (length (m_Vertices s))
                        * (12 + 8 * Z.of_nat (length (m_LeftHRIR v0)))) by nia.
    rewrite ReadExact_enough by lia. cbn [rbind].
    rewrite (ReadExact_uint_at output 4 4) by lia. cbn [rbind Nat.add].
    rewrite (ReadExact_uint_at output 8 4) by lia. cbn [rbind Nat.add].
    rewrite (ReadExact_uint_at output 12 4) by lia. cbn [rbind Nat.add].
    rewrite (ReadExact_uint_at output 16 4) by lia. cbn [rbind Nat.add].
    rewrite ReadExact_enough by (rewrite length_skipn; lia). cbn [rbind].
    rewrite skipn_skipn_add, length_skipn.
    unfold bytes_at in Hm. cbn [skipn] in Hm. rewrite Hm, H4, H8, H12, H16.
    do 2 f_equal. lia.
Qed.

End SaveReadBack.

(** ** [Triangulate] *)

Lemma concat_length_3 (fs : list (list Z)) :
  (forall f, In f fs -> length f = 3%nat) -> length (concat fs) = (3 * length fs)%nat.
Proof.
  induction fs as [| f fs IH]; intros H; [reflexivity |].
  cbn [concat length]. rewrite length_app, H by now left.
  rewrite IH by (intros g Hg; apply H; now right). lia.
Qed.

Lemma lookup_In {A : Type} (a : list A) (k : Z) :
  0 <= k < Z.of_nat (length a) -> exists v, lookup a k = Ok v /\ In v a.
Proof.
  intros Hk. destruct (lookup_valid a k Hk) as [v Hv]. exists v. split; [exact Hv |].
  unfold lookup in Hv. destruct (k <? 0); [discriminate |].
  destruct (nth_error a (Z.to_nat k)) as [w |] eqn:E; [| discriminate].
  injection Hv as <-. now apply nth_error_In in E.
Qed.

Lemma mapM_lookup_prefix {A : Type} (a : list A) (n : nat) :
  (n <= length a)%nat -> mapM (lookup a) (iota n) = Ok (firstn n a).
Proof.
  intros H. rewrite <- (map_id (firstn n a)).
  rewrite <- (mapM_lookup_all (fun v => v) a n H).
  apply mapM_ext. intros i. now destruct (lookup a i).
Qed.

Section TriangulateValid.
Context {F32 : Type} {fops : FLOAT_ops F32} {io : FLOAT_io F32}.
Context {F : Type} {ops : CH_FLOAT_ops F} {eops : CH_EXPORT_ops F} {libc : Libc}
        {conv : FLOAT_to_CH_FLOAT F32 F} {LS : LibcSpec libc}.

(** What [convhull_3d_build] hands to [Triangulate]: a flat array of
    [3 * faceCount] indices of vertices. *)
Lemma build_flat_output (vs : list (ch_vertex F)) (nVert : Z)
      (outIndices : option (list (list Z))) (faceCount : Z) :
  convhull_3d_build (Some vs) nVert = Ok (outIndices, faceCount) ->
  let out := match outIndices with
             | Some fs => concat fs
             | None => []
             end in
  0 <= faceCount <= CH_MAX_NUM_FACES
  /\ Z.of_nat (length out) = 3 * faceCount
  /\ forall x, In x out -> 0 <= x < nVert.
Proof.
  intros H. destruct outIndices as [fs |]; cbv zeta.
  - destruct (build_final_state _ _ _ _ H)
      as [points [st [[[Hn Hvalid] [Hmax _]] [-> [-> [Hpoints Hrange]]]]]].
    assert (H3 : forall f, In f (faces st) -> length f = 3%nat).
    { intros f Hf. unfold faces in Hf. apply in_map_iff in Hf as [fc [<- Hfc]].
      now apply Hvalid. }
    split; [lia |]. split.
    + rewrite (concat_length_3 _ H3). unfold faces. rewrite length_map. lia.
    + intros x Hx. apply in_concat in Hx as [f [Hf Hxf]].
      unfold faces in Hf. apply in_map_iff in Hf as [fc [<- Hfc]].
      destruct (Hvalid fc Hfc) as [_ Hidx]. specialize (Hidx x Hxf).
      unfold valid_index in Hidx. rewrite Hpoints in Hidx. lia.
  - apply build_null_is_empty in H. subst faceCount.
    unfold CH_MAX_NUM_FACES. split; [lia |]. split; [reflexivity | intros x []].
Qed.

Lemma Triangulate_of_a_hull (s : HrtfSphere F32)
      (outIndices : option (list (list Z))) (faceCount : Z) :
  Z.of_nat (length (m_Vertices s)) <= 2147483647 ->
  convhull_3d_build (Some (ch_vertices s)) (Z.of_nat (length (ch_vertices s)))
  = Ok (outIndices, faceCount) ->
  let out := match outIndices with
             | Some fs => concat fs
             | None => []
             end in
  exists lines,
    Triangulate s = Returns (mk_HrtfSphere (m_Vertices s) out, ("test.obj"%string, lines))
    /\ Z.of_nat (length out) = 3 * faceCount
    /\ 0 <= faceCount <= CH_MAX_NUM_FACES
    /\ (forall i, In i out -> 0 <= i < Z.of_nat (length (m_Vertices s)))
    /\ Z.of_nat (length lines) = 1 + Z.of_nat (length (m_Vertices s)) + 2 * faceCount.
Proof.
  intros Hint Hbuild. cbv zeta.
  pose proof (build_flat_output _ _ _ _ Hbuild) as Hout. cbv zeta in Hout.
  set (out := match outIndices with
              | Some fs => concat fs
              | None => []
              end) in *.
  destruct Hout as [Hcount [Hlen Hrange]].
  assert (Hn : length (ch_vertices s) = length (m_Vertices s))
    by (unfold ch_vertices; apply length_map).
  rewrite Hn in Hrange.
  unfold Triangulate. cbv zeta. rewrite Hbuild. cbn [of_outcome rbind]. fold out.
  rewrite mapM_lookup_prefix by lia.
  replace (Z.to_nat (faceCount * 3)) with (length out) by lia.
  rewrite firstn_all. cbn [of_outcome rbind].
  assert (Hfaces : forall k, 0 <= k < 3 * faceCount ->
                     exists f, lookup out k = Ok f
                               /\ 0 <= f < Z.of_nat (length (ch_vertices s))).
  { intros k Hk. destruct (lookup_In out k) as [v [Hv Hin]]; [lia |].
    exists v. split; [exact Hv |]. rewrite Hn. now apply Hrange. }
  unfold CH_MAX_NUM_FACES in Hcount.
  destruct (export_obj_lines (ch_vertices s) (Z.of_nat (length (ch_vertices s)))
              out faceCount false "test"%string) as [lines [Hexp Hlines]];
    [cbn; lia | lia | lia | lia | exact Hfaces |].
  rewrite Hexp. cbn [of_outcome rbind].
  exists lines. split.
  - do 3 f_equal. rewrite <- (map_id out) at 2. apply map_ext_in.
    intros i Hi. apply Hrange in Hi. unfold to_uint32. apply Z.mod_small.
    change (2 ^ 32) with 4294967296. lia.
  - split; [exact Hlen |]. split; [unfold CH_MAX_NUM_FACES; lia |].
    split; [exact Hrange |].
    rewrite Hlines, Hn. cbv iota. lia.
Qed.

End TriangulateValid.

Section TriangulateTheorem.
Context {F32 : Type} {fops : FLOAT_ops F32} {io : FLOAT_io F32}.
Context {F : Type} {ops : CH_FLOAT_ops F} {eops : CH_EXPORT_ops F} {libc : Libc}
        {conv : FLOAT_to_CH_FLOAT F32 F} {LS : LibcSpec libc}.


End TriangulateTheorem.

(** ** [main] *)

Lemma rmapM_length {A B : Type} (f : A -> run B) (l : list A) (bs : list B) :
  rmapM f l = Returns bs -> length bs = length l.
Proof.
  revert bs. induction l as [| a l IH]; intros bs; cbn [rmapM].
  - intros H. now injection H as <-.
  - destruct (f a) as [b | |]; try discriminate. cbn [rbind].
    destruct (rmapM f l) as [bs' | |]; try discriminate. cbn [rbind].
    intros H. injection H as <-. cbn [length]. now rewrite (IH bs').
Qed.

Section Main.
Context {F32 : Type} {fops : FLOAT_ops F32} {io : FLOAT_io F32} {IOS : FLOAT_io_spec io}.
Context {F : Type} {ops : CH_FLOAT_ops F} {eops : CH_EXPORT_ops F} {libc : Libc}
        {conv : FLOAT_to_CH_FLOAT F32 F} {LS : LibcSpec libc}.

(** X25. Every file [hrir_base.bin] that [main] writes matches its header:
    it was made from a folder with at least one file; after "HRIR", the
    sample rate and the length of the impulse responses it gives the number
    of vertices, which is the number of files of the folder, and the number
    of indices, which is three times a number of faces that is at most
    [CH_MAX_NUM_FACES]; every index stored is below the number of vertices;
    and the length of the file is 20 bytes, four bytes for each index, and
    for each vertex 12 bytes and 8 bytes for each value of an impulse
    response. *)
Theorem main_writes_a_file_that_matches_its_header
    (argc : Z) (is_directory : bool) (entries : list (string * option (list byte)))
    (output : list byte) (obj : string * list (obj_line F)) :
  Z.of_nat (length entries) <= 2147483647 ->
  main argc is_directory entries = Returns (output, obj) ->
  exists (sampleRate : Z) (hrirLen : nat) (faceCount : Z),
    argc = 2 /\ is_directory = true /\ entries <> []
    /\ 0 <= faceCount <= CH_MAX_NUM_FACES
    /\ bytes_at output 0 4 = list_byte_of_string "HRIR"
    /\ uint_at output 4 4 = to_uint32 sampleRate
    /\ uint_at output 8 4 = to_uint32 (Z.of_nat hrirLen)
    /\ uint_at output 12 4 = Z.of_nat (length entries)
    /\ uint_at output 16 4 = 3 * faceCount
    /\ (forall i, (Z.of_nat i < 3 * faceCount)%Z ->
          0 <= uint_at output (20 + 4 * i) 4 < Z.of_nat (length entries))
    /\ Z.of_nat (length output)
       = 20 + 4 * (3 * faceCount)
         + Z.of_nat (length entries) * (12 + 8 * Z.of_nat hrirLen)
    /\ fst obj = "test.obj"%string
    /\ Z.of_nat (length (snd obj)) = 1 + Z.of_nat (length entries) + 2 * faceCount.
Proof.
  intros Hint Hmain. unfold main in Hmain.
  destruct (Z.eqb_spec argc 2) as [Hargc | Hargc]; cbn [negb] in Hmain; [| discriminate].
  destruct is_directory; cbn [negb] in Hmain; [| discriminate].
  destruct (rmapM read_entry entries) as [vs | |] eqn:Hvs; try discriminate.
  cbn [rbind] in Hmain. apply rmapM_length in Hvs.
  set (sphere := mk_HrtfSphere vs []) in *.
  destruct (Validate sphere) as [[] | |] eqn:Hval; try discriminate.
  cbn [rbind] in Hmain.
  destruct (convhull_3d_build (Some (ch_vertices sphere))
              (Z.of_nat (length (ch_vertices sphere)))) as [[outIndices faceCount] |] eqn:Hb.
  2:{ unfold Triangulate in Hmain. cbv zeta in Hmain. rewrite Hb in Hmain. discriminate. }
  assert (Hint' : Z.of_nat (length (m_Vertices sphere)) <= 2147483647)
    by (cbn [m_Vertices sphere]; lia).
  destruct (Triangulate_of_a_hull sphere outIndices faceCount Hint' Hb)
    as [lines [Ht [Hlen [Hcount [Hrange Hlines]]]]].
  set (indices := match outIndices with
                  | Some fs => concat fs
                  | None => []
                  end) in *.
  rewrite Ht in Hmain. cbn [rbind] in Hmain. cbn [m_Vertices sphere] in *.
  set (sphere' := mk_HrtfSphere vs indices) in *.
  assert (Hval' : Validate sphere' = Returns tt) by exact Hval.
  destruct (Save_layout sphere' Hval')
    as [v0 [out [Hhd [Hsave [Hm [H4 [H8 [H12 [H16 [Hidx Hsize]]]]]]]]]].
  rewrite Hsave in Hmain. cbn [rbind] in Hmain. injection Hmain as <- <-.
  cbn [m_Vertices m_Indices sphere'] in *.
  exists (hv_SampleRate v0), (length (m_LeftHRIR v0)), faceCount.
  assert (Hsmall : forall z, 0 <= z <= 2147483647 -> to_uint32 z = z).
  { intros z Hz. unfold to_uint32. apply Z.mod_small.
    change (2 ^ 32) with 4294967296. lia. }
  unfold CH_MAX_NUM_FACES in Hcount.
  split; [exact Hargc |]. split; [reflexivity |].
  split; [destruct entries; [destruct vs; discriminate | discriminate] |].
  split; [unfold CH_MAX_NUM_FACES; lia |].
  split; [exact Hm |]. split; [exact H4 |]. split; [exact H8 |].
  split; [rewrite H12, Hvs; apply Hsmall; lia |].
  split; [rewrite H16, Hlen; apply Hsmall; lia |].
  split; [| split; [| split; [reflexivity |]]].
  - intros i Hi. rewrite Hidx by lia.
    assert (Hin : In (nth i indices 0) indices) by (apply nth_In; lia).
    apply Hrange in Hin. rewrite Hsmall by lia. lia.
  - rewrite Hsize, Hlen, Hvs. reflexivity.
  - cbn [snd]. rewrite Hlines, Hvs. reflexivity.
Qed.

Lemma Triangulate_below_three (s : HrtfSphere F32) :
  (length (m_Vertices s) < 3)%nat ->
  exists lines,
    Triangulate s = Returns (mk_HrtfSphere (m_Vertices s) [], ("test.obj"%string, lines)).
Proof.
  intros Hn.
  assert (Hlen : length (ch_vertices s) = length (m_Vertices s))
    by (unfold ch_vertices; apply length_map).
  assert (Hb : convhull_3d_build (Some (ch_vertices s))
                 (Z.of_nat (length (ch_vertices s))) = Ok (None, 0)).
  { apply build_guard. left. lia. }
  destruct (Triangulate_of_a_hull s None 0 ltac:(lia) Hb) as [lines [Ht _]].
  exists lines. exact Ht.
Qed.


End Main.

(** The hull of [tetra_out]: six faces. *)
Lemma build_returns_triangles_witness :
  6 = Z.of_nat (length [[0; 3; 2]; [0; 1; 3]; [0; 2; 1]; [3; 4; 2]; [1; 4; 3]; [2; 4; 1]])
  /\ 6 <= CH_MAX_NUM_FACES
  /\ forall f, In f [[0; 3; 2]; [0; 1; 3]; [0; 2; 1]; [3; 4; 2]; [1; 4; 3]; [2; 4; 1]] ->
       length f = 3%nat /\ NoDup f /\ forall x, In x f -> 0 <= x < 5.
Proof.
  apply (@build_returns_triangles_on_the_input _ Binary64.ops Examples.libc0
           (constant_rand_spec 0 32767) Examples.tetra_out 5).
  vm_compute. reflexivity.
Defined.

Lemma build_on_four_points_witness :
  exists fs,
    @convhull_3d_build _ Binary64.ops Examples.libc0
      (Some [Examples.V 0 0 0; Examples.V 4 0 0; Examples.V 0 4 0; Examples.V 0 0 4]) 4
    = Ok (Some fs, 4)
    /\ Forall2 (fun f k => f = initial_face (iota 4) k
                           \/ f = flip_face (initial_face (iota 4) k))
               fs [0; 1; 2; 3].
Proof.
  exact (@build_on_four_points_returns_the_simplex _ Binary64.ops Examples.libc0
           (constant_rand_spec 0 32767)
           (Examples.V 0 0 0) (Examples.V 4 0 0) (Examples.V 0 4 0) (Examples.V 0 0 4) []).
Defined.

(** Point 4 of [tetra_out] sees one face of the simplex; three faces are
    added. *)
Lemma iteration_deletes_witness :
  exists st' added,
    @iteration _ Binary64.ops Examples.libc0 Examples.tetra_out_points
      Examples.tetra_out_state = Ok st'
    /\ mesh st'
       = filter (fun fc => @visible_flag _ Binary64.ops [4; 4; 4]%float fc =? 0)
                (mesh Examples.tetra_out_state) ++ added
    /\ length added = 3%nat
    /\ nFaces st' = 6.
Proof.
  destruct (@iteration _ Binary64.ops Examples.libc0 Examples.tetra_out_points
              Examples.tetra_out_state) as [st' |] eqn:E;
    [| vm_compute in E; discriminate].
  assert (Hf : FUCKED st' = false).
  { assert (H : match @iteration _ Binary64.ops Examples.libc0 Examples.tetra_out_points
                        Examples.tetra_out_state with
                | Ok s => FUCKED s
                | Fault => false
                end = false) by (vm_compute; reflexivity).
    now rewrite E in H. }
  destruct (@iteration_deletes_exactly_the_visible_faces _ Binary64.ops Examples.libc0
              (constant_rand_spec 0 32767) Examples.tetra_out_points
              Examples.tetra_out_state st' [4; 4; 4; 1]%float)
    as [added [Hmesh [Hlen [_ [Hn _]]]]].
  - split; [reflexivity |]. intros fc Hfc. simpl in Hfc.
    destruct Hfc as [<- | [<- | [<- | [<- | []]]]];
      (split; [reflexivity |]); intros x Hx; simpl in Hx;
      destruct Hx as [<- | [<- | [<- | []]]]; unfold valid_index; simpl; lia.
  - reflexivity.
  - vm_compute. discriminate.
  - exact E.
  - exact Hf.
  - exists st', added. split; [reflexivity |]. split; [exact Hmesh |].
    split; [rewrite Hlen; vm_compute; reflexivity |].
    rewrite Hn. vm_compute. reflexivity.
Defined.


Lemma exported_normal_witness :
  exists nx ny nz : R,
    @obj_normal R Exact.ops Exact_export HrtfExamples.triangle [0; 1; 2] 0
    = Ok (obj_vn nx ny nz)
    /\ (nx * nx + ny * ny + nz * nz < 1)%R.
Proof.
  destruct (exported_normal_is_the_plane_normal_shortened
              HrtfExamples.triangle [0; 1; 2] 0
              (mk_vertex 0 0 0)%R (mk_vertex 1 0 0)%R (mk_vertex 0 1 0)%R
              eq_refl eq_refl eq_refl)
    as [nx [ny [nz [H [_ [_ [Hlt _]]]]]]].
  exists nx, ny, nz. split; assumption.
Defined.


(** Two bytes are one pair of 8-bit samples. *)
Lemma read_samples_witness :
  exists l r,
    @read_samples R ExactFloat.ops 2 [byte_of 16; byte_of 240] 1 127%R = Returns (l, r)
    /\ length l = 1%nat /\ length r = 1%nat.
Proof.
  destruct (@read_samples_needs_whole_pairs R ExactFloat.ops
              [byte_of 16; byte_of 240] 1 127%R 2) as [H _].
  - now left.
  - simpl. lia.
  - destruct (H eq_refl) as [l [r [E [Hl Hr]]]].
    exists l, r. split; [exact E |].
    change (Z.of_nat (length [byte_of 16; byte_of 240]) / (2 * 1)) with 1 in Hl.
    split; lia.
Defined.

Lemma samples_are_normalised_witness :
  exists l r,
    @read_samples R ExactFloat.ops 2 [byte_of 16; byte_of 240] 1 (IZR 127) = Returns (l, r)
    /\ forall v : R, In v l \/ In v r -> (- 1 - 1 / IZR 127 <= v <= 1)%R.
Proof.
  eexists. eexists. split; [reflexivity |].
  apply (samples_are_normalised_by_the_limit [byte_of 16; byte_of 240] 1 127 2);
    reflexivity.
Defined.

Lemma whole_numbers_spec : FLOAT_io_spec SimpleFloatIO.whole_numbers.
Proof. constructor. intros v. reflexivity. Qed.

Lemma Save_writes_witness :
  exists output,
    @Save R SimpleFloatIO.whole_numbers HrtfExamples.sphere1 = Returns output
    /\ uint_at output 4 4 = 44100
    /\ uint_at output 12 4 = 1.
Proof.
  destruct (@Save_writes_what_the_header_says R SimpleFloatIO.whole_numbers
              whole_numbers_spec HrtfExamples.sphere1) as [_ H].
  destruct (H eq_refl) as [v0 [output [Hhd [Hsave [Hread _]]]]].
  exists output. split; [exact Hsave |].
  lazy in Hsave. injection Hsave as <-. split; reflexivity.
Defined.


(** [main] on [folder1]: one vertex and no face. *)
Lemma main_writes_witness :
  exists output obj,
    @main R ExactFloat.ops SimpleFloatIO.whole_numbers R Exact.ops Exact_export
      Examples.libc0 ExactFloat.conv 2 true HrtfExamples.folder1
    = Returns (output, obj)
    /\ uint_at output 12 4 = 1
    /\ fst obj = "test.obj"%string.
Proof.
  destruct (@main R ExactFloat.ops SimpleFloatIO.whole_numbers R Exact.ops Exact_export
              Examples.libc0 ExactFloat.conv 2 true HrtfExamples.folder1)
    as [[output obj] | |] eqn:E; [| discriminate E ..].
  destruct (@main_writes_a_file_that_matches_its_header
              R ExactFloat.ops SimpleFloatIO.whole_numbers whole_numbers_spec
              R Exact.ops Exact_export Examples.libc0 ExactFloat.conv
              (constant_rand_spec 0 32767) 2 true HrtfExamples.folder1 output obj
              ltac:(simpl; lia) E)
    as [sr [hl [fc [_ [_ [_ [_ [_ [_ [_ [H12 [_ [_ [_ [Hobj _]]]]]]]]]]]]]]].
  exists output, obj. split; [reflexivity |]. split; [exact H12 | exact Hobj].
Defined.


(** ** [extractVerticesFromObjFile] *)

Lemma store_at {A : Type} (pre : list A) (y x : A) (post : list A) :
  store (pre ++ y :: post) (Z.of_nat (length pre)) x = Ok (pre ++ x :: post).
Proof.
  unfold store.
  assert (H : (Z.of_nat (length pre) <? 0) = false) by (apply Z.ltb_ge; lia).
  rewrite H. cbn [orb].
  assert (H' : (Z.of_nat (length (pre ++ y :: post)) <=? Z.of_nat (length pre)) = false).
  { apply Z.leb_gt. rewrite length_app. cbn [length]. lia. }
  rewrite H', Nat2Z.id. f_equal.
  rewrite firstn_app, firstn_all, Nat.sub_diag. cbn [firstn]. rewrite app_nil_r.
  f_equal. change (S (length pre)) with (1 + length pre)%nat.
  rewrite <- (skipn_skipn 1 (length pre)).
  rewrite skipn_app, skipn_all, Nat.sub_diag. reflexivity.
Qed.

Lemma lookup_at {A : Type} (pre : list A) (y : A) (post : list A) :
  lookup (pre ++ y :: post) (Z.of_nat (length pre)) = Ok y.
Proof.
  unfold lookup.
  assert (H : (Z.of_nat (length pre) <? 0) = false) by (apply Z.ltb_ge; lia).
  rewrite H, Nat2Z.id, nth_error_app2 by lia. now rewrite Nat.sub_diag.
Qed.

Lemma store_outside {A : Type} (a : list A) (i : Z) (x : A) :
  Z.of_nat (length a) <= i -> store a i x = Fault.
Proof.
  intros H. unfold store.
  assert (H' : (Z.of_nat (length a) <=? i) = true) by (apply Z.leb_le; lia).
  rewrite H'. now rewrite orb_true_r.
Qed.

(** *** Reading the lines *)

Lemma fgets_chars_line (body rest : list ascii) (room : nat) :
  forallb no_newline body = true ->
  (length body < room)%nat ->
  fgets_chars room (body ++ "010"%char :: rest) = (body ++ ["010"%char], rest).
Proof.
  revert room. induction body as [| c body IH]; intros room Hb Hlen.
  - destruct room; [cbn [length] in Hlen; lia |]. reflexivity.
  - cbn [forallb] in Hb. apply andb_prop in Hb. destruct Hb as [Hc Hb].
    destruct room; [cbn [length] in Hlen; lia |].
    cbn [app fgets_chars]. unfold no_newline in Hc.
    destruct (Ascii.eqb c "010"); [discriminate |].
    rewrite IH; [reflexivity | exact Hb | cbn [length] in Hlen; lia].
Qed.

Lemma fgets_chars_last (body : list ascii) (room : nat) :
  forallb no_newline body = true ->
  (length body <= room)%nat ->
  fgets_chars room body = (body, []).
Proof.
  revert room. induction body as [| c body IH]; intros room Hb Hlen.
  - destruct room; reflexivity.
  - cbn [forallb] in Hb. apply andb_prop in Hb. destruct Hb as [Hc Hb].
    destruct room; [cbn [length] in Hlen; lia |].
    cbn [fgets_chars]. unfold no_newline in Hc.
    destruct (Ascii.eqb c "010"); [discriminate |].
    rewrite IH; [reflexivity | exact Hb | cbn [length] in Hlen; lia].
Qed.

Lemma c_str_whole (l : list ascii) :
  forallb no_zero l = true -> c_str l = l.
Proof.
  induction l as [| c l IH]; [reflexivity |].
  cbn [forallb c_str]. intros H. apply andb_prop in H. destruct H as [Hc Hl].
  unfold no_zero in Hc. destruct (Ascii.eqb c "000"); [discriminate |].
  now rewrite IH.
Qed.

Lemma read_line (l rest : list ascii) (fuel : nat) :
  whole_line l ->
  read_lines (S fuel) (l ++ rest) = l :: read_lines fuel rest.
Proof.
  intros [body [-> [Hnl [Hz Hlen]]]].
  rewrite length_app in Hlen. cbn [length] in Hlen.
  cbn [read_lines]. unfold fgets.
  destruct ((body ++ ["010"%char]) ++ rest) as [| c0 l0] eqn:E.
  { destruct body; discriminate. }
  rewrite <- E. rewrite <- app_assoc. cbn [app].
  change (256 - 1)%nat with 255%nat.
  rewrite fgets_chars_line by (assumption || lia).
  rewrite c_str_whole; [reflexivity |].
  rewrite forallb_app, Hz. reflexivity.
Qed.

Lemma read_lines_whole (ls : list (list ascii)) (rest : list ascii) (fuel : nat) :
  Forall whole_line ls ->
  read_lines (length ls + fuel) (concat ls ++ rest) = ls ++ read_lines fuel rest.
Proof.
  intros H. induction H as [| l ls Hl _ IH]; [reflexivity |].
  cbn [concat length Nat.add app]. rewrite <- app_assoc.
  rewrite read_line by exact Hl. now rewrite IH.
Qed.

Lemma read_lines_end (fuel : nat) : read_lines fuel [] = [].
Proof. destruct fuel; reflexivity. Qed.

Lemma whole_line_length (l : list ascii) : whole_line l -> (1 <= length l)%nat.
Proof.
  intros [body [-> _]]. rewrite length_app. cbn [length]. lia.
Qed.

Lemma concat_length_lines (ls : list (list ascii)) :
  Forall whole_line ls -> (length ls <= length (concat ls))%nat.
Proof.
  intros H. induction H as [| l ls Hl _ IH]; [cbn; lia |].
  cbn [concat length]. rewrite length_app. apply whole_line_length in Hl. lia.
Qed.

(** *** One line *)

Section ScanLine.
Context {F : Type} {A : CH_ATOF F}.

Lemma scan_line_step (c x : ascii) (after vert_char : list ascii) (prev : bool)
    (vertID : Z) (v : list (option F)) :
  scan_line (c :: x :: after) vert_char prev vertID v
  = (vert_char' <- (if number_char c
                    then if (length vert_char <? 255)%nat
                         then Ok (vert_char ++ [c])
                         else Fault
                    else Ok vert_char) ;;
     if (prev && negb (number_char c))
        || (match after with [] => true | _ :: _ => false end)
     then
       if vertID + 1 >? 4 then Ok None
       else
         v' <- store v (vertID + 1) (Some (atof vert_char')) ;;
         scan_line (x :: after) [] (number_char c) (vertID + 1) v'
     else scan_line (x :: after) vert_char' (number_char c) vertID v).
Proof. reflexivity. Qed.

Lemma scan_skip (c x y : ascii) (more vert_char : list ascii) (vertID : Z)
    (v : list (option F)) :
  number_char c = false ->
  scan_line (c :: x :: y :: more) vert_char false vertID v
  = scan_line (x :: y :: more) vert_char false vertID v.
Proof.
  intros Hc. rewrite scan_line_step, Hc. reflexivity.
Qed.

(** A number that is followed by a character that is not of a number, and
    by one more character at least. *)
Lemma scan_number (t : list ascii) (sep x : ascii) (more vert_char : list ascii)
    (prev : bool) (vertID : Z) (v : list (option F)) :
  forallb number_char t = true ->
  (prev = true \/ t <> []) ->
  number_char sep = false ->
  (length vert_char + length t <= 255)%nat ->
  vertID + 1 <= 4 ->
  scan_line (t ++ sep :: x :: more) vert_char prev vertID v
  = (v' <- store v (vertID + 1) (Some (atof (vert_char ++ t))) ;;
     scan_line (x :: more) [] false (vertID + 1) v').
Proof.
  revert vert_char prev. induction t as [| c t IH]; intros vert_char prev Ht Hne Hsep Hlen Hid.
  - destruct Hne as [-> | Hne]; [| contradiction].
    cbn [app]. rewrite scan_line_step, Hsep. cbn [bind andb negb orb].
    assert (Hgt : (vertID + 1 >? 4) = false) by (rewrite Z.gtb_ltb; apply Z.ltb_ge; lia).
    rewrite Hgt, app_nil_r. reflexivity.
  - cbn [forallb] in Ht. apply andb_prop in Ht. destruct Ht as [Hc Ht].
    cbn [length] in Hlen.
    cbn [app]. destruct (t ++ sep :: x :: more) as [| y rest] eqn:E.
    { destruct t; discriminate. }
    destruct rest as [| z rest'].
    { destruct t as [| ? [| ? ?]]; discriminate. }
    rewrite scan_line_step, Hc.
    assert (Hroom : (length vert_char <? 255)%nat = true) by (apply Nat.ltb_lt; lia).
    rewrite Hroom. cbn [bind negb]. rewrite andb_false_r. cbn [orb].
    rewrite IH.
    + rewrite <- app_assoc. reflexivity.
    + exact Ht.
    + now left.
    + exact Hsep.
    + rewrite length_app. cbn [length]. lia.
    + exact Hid.
Qed.

(** A number that is followed by the last character of the line. *)
Lemma scan_last_number (t : list ascii) (x : ascii) (vert_char : list ascii)
    (prev : bool) (vertID : Z) (v : list (option F)) :
  forallb number_char t = true ->
  t <> [] ->
  (length vert_char + length t <= 255)%nat ->
  vertID + 1 <= 4 ->
  scan_line (t ++ [x]) vert_char prev vertID v
  = (v' <- store v (vertID + 1) (Some (atof (vert_char ++ t))) ;;
     Ok (Some ([], v'))).
Proof.
  revert vert_char prev. induction t as [| c t IH]; intros vert_char prev Ht Hne Hlen Hid;
    [contradiction |].
  cbn [forallb] in Ht. apply andb_prop in Ht. destruct Ht as [Hc Ht].
  cbn [length] in Hlen.
  assert (Hroom : (length vert_char <? 255)%nat = true) by (apply Nat.ltb_lt; lia).
  assert (Hgt : (vertID + 1 >? 4) = false) by (rewrite Z.gtb_ltb; apply Z.ltb_ge; lia).
  destruct t as [| c' t].
  - cbn [app]. rewrite scan_line_step, Hc, Hroom. cbn [bind]. rewrite orb_true_r, Hgt.
    destruct (store v (vertID + 1) (Some (atof (vert_char ++ [c])))); reflexivity.
  - cbn [app]. destruct (t ++ [x]) as [| y rest] eqn:E.
    { destruct t; discriminate. }
    rewrite scan_line_step, Hc, Hroom. cbn [bind negb]. rewrite andb_false_r. cbn [orb].
    rewrite <- E. change (c' :: t ++ [x]) with ((c' :: t) ++ [x]). rewrite IH.
    + rewrite <- app_assoc. reflexivity.
    + exact Ht.
    + discriminate.
    + rewrite length_app. cbn [length] in *. lia.
    + exact Hid.
Qed.

End ScanLine.

Lemma number_char_plain (c : ascii) :
  number_char c = true -> no_newline c = true /\ no_zero c = true.
Proof.
  destruct c as [[] [] [] [] [] [] [] []]; intros H; try discriminate H;
    split; reflexivity.
Qed.

Lemma number_chars_plain (t : list ascii) :
  forallb number_char t = true ->
  forallb no_newline t = true /\ forallb no_zero t = true.
Proof.
  induction t as [| c t IH]; [now split |].
  cbn [forallb]. intros H. apply andb_prop in H. destruct H as [Hc Ht].
  destruct (number_char_plain c Hc) as [-> ->]. destruct (IH Ht) as [-> ->].
  now split.
Qed.

Lemma number_token_spec (t : list ascii) :
  number_token t = true -> t <> [] /\ forallb number_char t = true.
Proof.
  unfold number_token. intros H. apply andb_prop in H. destruct H as [Hn Ht].
  split; [| exact Ht]. intros ->. discriminate.
Qed.

Lemma vertex_text_eq (a b c : list ascii) :
  vertex_text a b c
  = "v"%char :: " "%char :: a ++ " "%char :: b ++ " "%char :: c ++ ["010"%char].
Proof. reflexivity. Qed.

Lemma vertex_text_whole (a b c : list ascii) :
  forallb number_char a = true -> forallb number_char b = true ->
  forallb number_char c = true ->
  (length (vertex_text a b c) <= 255)%nat ->
  whole_line (vertex_text a b c).
Proof.
  intros Ha Hb Hc Hlen.
  exists ("v"%char :: " "%char :: a ++ " "%char :: b ++ " "%char :: c).
  destruct (number_chars_plain a Ha) as [Ha1 Ha2].
  destruct (number_chars_plain b Hb) as [Hb1 Hb2].
  destruct (number_chars_plain c Hc) as [Hc1 Hc2].
  split; [| split; [| split; [| exact Hlen]]].
  - rewrite vertex_text_eq. cbn [app]. rewrite <- !app_assoc. cbn [app].
    rewrite <- !app_assoc. reflexivity.
  - cbn [forallb]. rewrite forallb_app. cbn [forallb]. rewrite forallb_app.
    cbn [forallb]. rewrite Ha1, Hb1, Hc1. reflexivity.
  - cbn [forallb]. rewrite forallb_app. cbn [forallb]. rewrite forallb_app.
    cbn [forallb]. rewrite Ha2, Hb2, Hc2. reflexivity.
Qed.

Lemma plain_line_spec (l : list ascii) :
  plain_line l = true -> whole_line l /\ vexists l = false.
Proof.
  unfold plain_line. destruct (rev l) as [| last body] eqn:E; [discriminate |].
  intros H. apply andb_prop in H. destruct H as [H Hlen].
  apply andb_prop in H. destruct H as [H Hv].
  apply andb_prop in H. destruct H as [Hlast Hbody].
  apply Ascii.eqb_eq in Hlast. subst last.
  assert (El : l = rev body ++ ["010"%char]).
  { rewrite <- (rev_involutive l), E. reflexivity. }
  split; [| now destruct (vexists l)].
  exists (rev body). split; [exact El |].
  assert (Hall : forall c, In c (rev body) ->
                           no_newline c = true /\ no_zero c = true).
  { intros c Hc. apply in_rev in Hc.
    rewrite forallb_forall in Hbody. specialize (Hbody c Hc).
    apply andb_prop in Hbody. exact Hbody. }
  split; [| split; [| now apply Nat.leb_le]].
  - apply forallb_forall. intros c Hc. apply (Hall c Hc).
  - apply forallb_forall. intros c Hc. apply (Hall c Hc).
Qed.

Lemma line_ok_whole (l : text_line) :
  line_ok l = true -> whole_line (line_text l).
Proof.
  destruct l as [l | a b c]; cbn [line_ok line_text]; intros H.
  - now apply plain_line_spec.
  - apply andb_prop in H. destruct H as [H Hlen].
    apply andb_prop in H. destruct H as [H Hc].
    apply andb_prop in H. destruct H as [Ha Hb].
    apply number_token_spec in Ha, Hb, Hc.
    apply vertex_text_whole; try tauto. now apply Nat.leb_le.
Qed.

Lemma lines_ok_whole (ls : list text_line) :
  forallb line_ok ls = true -> Forall whole_line (map line_text ls).
Proof.
  induction ls as [| l ls IH]; [constructor |].
  cbn [forallb map]. intros H. apply andb_prop in H. destruct H as [Hl Hls].
  constructor; [now apply line_ok_whole | now apply IH].
Qed.

Section ExtractLoop.
Context {F : Type} {A : CH_ATOF F}.

Lemma scan_skip_any (c x : ascii) (after vert_char : list ascii) (vertID : Z)
    (v : list (option F)) :
  number_char c = false ->
  after <> [] ->
  scan_line (c :: x :: after) vert_char false vertID v
  = scan_line (x :: after) vert_char false vertID v.
Proof.
  intros Hc Hne. rewrite scan_line_step, Hc.
  destruct after; [contradiction | reflexivity].
Qed.

(** The first two numbers of a vertex line. *)
Lemma scan_two_numbers (a b : list ascii) (x : ascii) (more : list ascii)
    (u0 u1 u2 : option F) :
  number_token a = true -> number_token b = true ->
  (length a + length b <= 250)%nat ->
  scan_line ("v"%char :: " "%char :: a ++ " "%char :: b ++ " "%char :: x :: more)
            [] false (-1) [u0; u1; u2]
  = scan_line (x :: more) [] false 1 [Some (atof a); Some (atof b); u2].
Proof.
  intros Ha Hb Hlen.
  apply number_token_spec in Ha, Hb. destruct Ha as [Hane Ha], Hb as [Hbne Hb].
  destruct a as [| a0 a']; [contradiction |].
  destruct b as [| b0 b']; [contradiction |].
  rewrite scan_skip_any; [| reflexivity | discriminate].
  change (" "%char :: (a0 :: a') ++ " "%char :: (b0 :: b') ++ " "%char :: x :: more)
    with (" "%char :: a0 :: (a' ++ " "%char :: (b0 :: b') ++ " "%char :: x :: more)).
  rewrite scan_skip_any; [| reflexivity | destruct a'; discriminate].
  change (a0 :: a' ++ " "%char :: (b0 :: b') ++ " "%char :: x :: more)
    with ((a0 :: a') ++ " "%char :: b0 :: (b' ++ " "%char :: x :: more)).
  rewrite scan_number;
    [| exact Ha | right; discriminate | reflexivity | cbn [length] in *; lia | lia].
  change (-1 + 1) with 0. cbn [app].
  change (store [u0; u1; u2] 0 (Some (atof (a0 :: a'))))
    with (Ok [Some (atof (a0 :: a')); u1; u2]).
  cbn [bind].
  change (b0 :: b' ++ " "%char :: x :: more)
    with ((b0 :: b') ++ " "%char :: x :: more).
  rewrite scan_number;
    [| exact Hb | right; discriminate | reflexivity | cbn [length] in *; lia | lia].
  change (0 + 1) with 1. cbn [app].
  reflexivity.
Qed.

(** A vertex line as it is written. *)
Lemma scan_vertex_text (a b c : list ascii) (u0 u1 u2 : option F) :
  number_token a = true -> number_token b = true -> number_token c = true ->
  (length (vertex_text a b c) <= 255)%nat ->
  scan_line (vertex_text a b c) [] false (-1) [u0; u1; u2]
  = Ok (Some ([], [Some (atof a); Some (atof b); Some (atof c)])).
Proof.
  intros Ha Hb Hc Hlen. rewrite vertex_text_eq in *.
  cbn [length] in Hlen. rewrite !length_app in Hlen. cbn [length] in Hlen.
  rewrite !length_app in Hlen. cbn [length] in Hlen.
  rewrite !length_app in Hlen. cbn [length] in Hlen.
  pose proof (number_token_spec c Hc) as [Hcne Hc'].
  destruct c as [| c0 c']; [contradiction |].
  change ((c0 :: c') ++ ["010"%char]) with (c0 :: (c' ++ ["010"%char])).
  rewrite scan_two_numbers by (assumption || lia).
  change (c0 :: c' ++ ["010"%char]) with ((c0 :: c') ++ ["010"%char]).
  rewrite scan_last_number; [| exact Hc' | discriminate | cbn [length] in *; lia | lia].
  reflexivity.
Qed.

Lemma vexists_vertex (l : list ascii) : vexists ("v"%char :: " "%char :: l) = true.
Proof. reflexivity. Qed.

(** The second loop on lines as they are written, followed by [more]
    lines. *)
Lemma extract_loop_whole (ls : list text_line) (more : list (list ascii))
    (done tail : list (list (option F))) :
  forallb line_ok ls = true ->
  extract_loop (map line_text ls ++ more) (Z.of_nat (length done)) []
               (done ++ repeat blank (length (flat_map (@line_vertex F A) ls)) ++ tail)
  = extract_loop more (Z.of_nat (length (done ++ flat_map line_vertex ls))) []
                 (done ++ flat_map line_vertex ls ++ tail).
Proof.
  revert done. induction ls as [| l ls IH]; intros done Hok.
  - cbn [map app flat_map length repeat]. now rewrite app_nil_r.
  - cbn [forallb] in Hok. apply andb_prop in Hok. destruct Hok as [Hl Hls].
    destruct l as [l | a b c]; cbn [map app flat_map line_text line_vertex extract_loop].
    + cbn [line_ok] in Hl. apply plain_line_spec in Hl. destruct Hl as [_ ->].
      apply IH. exact Hls.
    + cbn [line_ok] in Hl.
      apply andb_prop in Hl. destruct Hl as [Hl Hlen].
      apply andb_prop in Hl. destruct Hl as [Hl Hc].
      apply andb_prop in Hl. destruct Hl as [Ha Hb].
      apply Nat.leb_le in Hlen.
      rewrite vertex_text_eq at 1. rewrite vexists_vertex.
      cbn [length repeat app]. rewrite lookup_at. cbn [bind].
      unfold blank at 1. rewrite scan_vertex_text by assumption. cbn [bind].
      rewrite store_at. cbn [bind].
      specialize (IH (done ++ [[Some (atof a); Some (atof b); Some (atof c)]]) Hls).
      rewrite <- !app_assoc in IH. cbn [app] in IH.
      rewrite length_app in IH. cbn [length] in IH.
      replace (Z.of_nat (length done) + 1) with (Z.of_nat (length done + 1)) by lia.
      rewrite IH. reflexivity.
Qed.

Lemma filter_vexists_whole (ls : list text_line) :
  forallb line_ok ls = true ->
  length (filter vexists (map line_text ls)) = length (flat_map (@line_vertex F A) ls).
Proof.
  induction ls as [| l ls IH]; [reflexivity |].
  cbn [forallb]. intros H. apply andb_prop in H. destruct H as [Hl Hls].
  destruct l as [l | a b c]; cbn [map filter flat_map line_text line_vertex].
  - cbn [line_ok] in Hl. apply plain_line_spec in Hl. destruct Hl as [_ ->].
    now apply IH.
  - rewrite vertex_text_eq, vexists_vertex. cbn [length app]. now rewrite IH.
Qed.

(** X27. [extractVerticesFromObjFile] reads back the vertex lines that
    [convhull_3d_export_obj] writes: on a file made of lines ["v a b c"]
    whose three numbers are separated by one space, and of lines without
    ["v "], every line ending with a newline and no longer than 255
    characters, it returns one vertex for each vertex line, in the order of
    the file, with the three coordinates [atof] reads from [a], [b] and
    [c]. *)
Theorem extract_reads_back_the_vertex_lines (obj_filename : string) (ls : list text_line) :
  forallb line_ok ls = true ->
  extractVerticesFromObjFile obj_filename (Some (concat (map line_text ls)))
  = Ok ((obj_filename ++ ".obj")%string,
        Some (flat_map (@line_vertex F A) ls),
        Z.of_nat (length (flat_map (@line_vertex F A) ls))).
Proof.
  intros Hok. unfold extractVerticesFromObjFile. cbv zeta.
  pose proof (lines_ok_whole ls Hok) as Hwhole.
  pose proof (concat_length_lines _ Hwhole) as Hlen.
  assert (Hlines : read_lines (length (concat (map line_text ls)))
                              (concat (map line_text ls))
                   = map line_text ls).
  { replace (length (concat (map line_text ls)))
      with (length (map line_text ls)
            + (length (concat (map line_text ls)) - length (map line_text ls)))%nat
      by lia.
    rewrite <- (app_nil_r (concat (map line_text ls))) at 2.
    rewrite read_lines_whole by exact Hwhole.
    now rewrite read_lines_end, app_nil_r. }
  rewrite Hlines, filter_vexists_whole by exact Hok.
  pose proof (extract_loop_whole ls [] [] [] Hok) as Hloop.
  cbn [app length Z.of_nat] in Hloop. rewrite !app_nil_r in Hloop.
  rewrite Hloop. cbn [extract_loop bind]. reflexivity.
Qed.

End ExtractLoop.

Section ExtractEdges.
Context {F : Type} {A : CH_ATOF F}.

Lemma read_lines_then (ls : list text_line) (rest : list ascii) :
  forallb line_ok ls = true ->
  exists fuel,
    read_lines (length (concat (map line_text ls) ++ rest))
               (concat (map line_text ls) ++ rest)
    = map line_text ls ++ read_lines (fuel + length rest) rest.
Proof.
  intros Hok.
  pose proof (lines_ok_whole ls Hok) as Hwhole.
  pose proof (concat_length_lines _ Hwhole) as Hlen.
  exists (length (concat (map line_text ls)) - length (map line_text ls))%nat.
  rewrite <- read_lines_whole by exact Hwhole.
  f_equal. rewrite length_app. lia.
Qed.

Lemma repeat_blank_split (n k : nat) :
  @repeat (list (option F)) blank (n + S k) = repeat blank n ++ blank :: repeat blank k.
Proof. rewrite repeat_app. reflexivity. Qed.

(** X28. The last character of a line is never looked at.  When the file
    does not end with a newline and its last line is a vertex line, the
    last digit of its third number is lost, and the third coordinate is not
    written at all when that number has one digit. *)
Theorem extract_drops_the_last_character_of_the_file
    (obj_filename : string) (ls : list text_line) (a b c : list ascii) (d : ascii) :
  forallb line_ok ls = true ->
  number_token a = true -> number_token b = true -> number_token (c ++ [d]) = true ->
  (length a + length b + length c <= 250)%nat ->
  extractVerticesFromObjFile obj_filename
    (Some (concat (map line_text ls)
           ++ "v"%char :: " "%char :: a ++ " "%char :: b ++ " "%char :: c ++ [d]))
  = Ok ((obj_filename ++ ".obj")%string,
        Some (flat_map (@line_vertex F A) ls
              ++ [[Some (atof a); Some (atof b);
                   match c with
                   | [] => None
                   | _ :: _ => Some (atof c)
                   end]]),
        Z.of_nat (length (flat_map (@line_vertex F A) ls)) + 1).
Proof.
  intros Hok Ha Hb Hcd Hlen.
  set (line := "v"%char :: " "%char :: a ++ " "%char :: b ++ " "%char :: c ++ [d]).
  pose proof (number_token_spec a Ha) as [_ Ha'].
  pose proof (number_token_spec b Hb) as [_ Hb'].
  pose proof (number_token_spec _ Hcd) as [_ Hcd'].
  destruct (number_chars_plain a Ha') as [Ha1 Ha2].
  destruct (number_chars_plain b Hb') as [Hb1 Hb2].
  destruct (number_chars_plain _ Hcd') as [Hc1 Hc2].
  assert (Hnl : forallb no_newline line = true).
  { unfold line. cbn [forallb]. rewrite forallb_app. cbn [forallb]. rewrite forallb_app.
    cbn [forallb]. rewrite Ha1, Hb1, Hc1. reflexivity. }
  assert (Hz : forallb no_zero line = true).
  { unfold line. cbn [forallb]. rewrite forallb_app. cbn [forallb]. rewrite forallb_app.
    cbn [forallb]. rewrite Ha2, Hb2, Hc2. reflexivity. }
  assert (Hll : (length line = length a + length b + length c + 5)%nat).
  { unfold line. cbn [length]. rewrite length_app. cbn [length]. rewrite length_app.
    cbn [length]. rewrite length_app. cbn [length]. lia. }
  assert (Hread : forall fuel, read_lines (fuel + length line) line = [line]).
  { intros fuel. rewrite Hll.
    replace (fuel + (length a + length b + length c + 5))%nat
      with (S (fuel + (length a + length b + length c + 4)))%nat by lia.
    cbn [read_lines]. unfold fgets. unfold line at 1. fold line.
    change (256 - 1)%nat with 255%nat.
    rewrite fgets_chars_last by (assumption || lia).
    now rewrite c_str_whole, read_lines_end by assumption. }
  unfold extractVerticesFromObjFile. cbv zeta.
  destruct (read_lines_then ls line Hok) as [fuel ->]. rewrite Hread.
  rewrite filter_app, length_app, filter_vexists_whole by exact Hok.
  assert (Hv : vexists line = true) by reflexivity.
  cbn [filter]. rewrite Hv. cbn [length].
  rewrite repeat_blank_split. cbn [repeat].
  pose proof (extract_loop_whole ls [line] [] [blank] Hok) as Hloop.
  cbn [app length Z.of_nat] in Hloop. rewrite Hloop. clear Hloop.
  cbn [extract_loop]. rewrite Hv, lookup_at. cbn [bind].
  assert (Hscan : scan_line line [] false (-1) (@blank F)
                  = Ok (Some ([], [Some (atof a); Some (atof b);
                                   match c with
                                   | [] => None
                                   | _ :: _ => Some (atof c)
                                   end]))).
  { unfold line, blank. destruct c as [| c0 c'].
    - cbn [app]. rewrite scan_two_numbers by (assumption || lia). reflexivity.
    - change ((c0 :: c') ++ [d]) with (c0 :: (c' ++ [d])).
      rewrite scan_two_numbers by (assumption || (cbn [length] in Hlen; lia)).
      change (c0 :: c' ++ [d]) with ((c0 :: c') ++ [d]).
      cbn [forallb] in Hcd'. rewrite forallb_app in Hcd'.
      change (forallb number_char (c0 :: c') && forallb number_char [d] = true) in Hcd'.
      apply andb_prop in Hcd'. destruct Hcd' as [Hc' _].
      rewrite scan_last_number;
        [| exact Hc' | discriminate | cbn [length] in *; lia | lia].
      reflexivity. }
  rewrite Hscan. cbn [bind]. rewrite store_at. cbn [bind extract_loop].
  f_equal. f_equal. lia.
Qed.

(** X29. The test [vertID>4] comes after [v[3]] has been written: on a
    vertex line of four numbers the function does not report a file that is
    not valid, it stores the fourth number outside the three coordinates of
    the vertex. *)
Theorem extract_writes_a_fourth_number_outside_the_vertex
    (obj_filename : string) (ls : list text_line) (a b c d rest : list ascii) :
  forallb line_ok ls = true ->
  number_token a = true -> number_token b = true -> number_token c = true ->
  number_token d = true ->
  (length a + length b + length c + length d <= 249)%nat ->
  @extractVerticesFromObjFile F A obj_filename
    (Some (concat (map line_text ls)
           ++ ("v"%char :: " "%char :: a ++ " "%char :: b ++ " "%char :: c
               ++ " "%char :: d ++ ["010"%char])
           ++ rest))
  = Fault.
Proof.
  intros Hok Ha Hb Hc Hd Hlen.
  set (line := "v"%char :: " "%char :: a ++ " "%char :: b ++ " "%char :: c
               ++ " "%char :: d ++ ["010"%char]).
  pose proof (number_token_spec a Ha) as [_ Ha'].
  pose proof (number_token_spec b Hb) as [_ Hb'].
  pose proof (number_token_spec c Hc) as [Hcne Hc'].
  pose proof (number_token_spec d Hd) as [Hdne Hd'].
  destruct (number_chars_plain a Ha') as [Ha1 Ha2].
  destruct (number_chars_plain b Hb') as [Hb1 Hb2].
  destruct (number_chars_plain c Hc') as [Hc1 Hc2].
  destruct (number_chars_plain d Hd') as [Hd1 Hd2].
  assert (Hwhole : whole_line line).
  { exists ("v"%char :: " "%char :: a ++ " "%char :: b ++ " "%char :: c ++ " "%char :: d).
    split; [| split; [| split]].
    - unfold line. cbn [app]. rewrite <- !app_assoc. cbn [app].
      rewrite <- !app_assoc. cbn [app]. rewrite <- !app_assoc. reflexivity.
    - cbn [forallb]. rewrite forallb_app. cbn [forallb]. rewrite forallb_app.
      cbn [forallb]. rewrite forallb_app. cbn [forallb].
      rewrite Ha1, Hb1, Hc1, Hd1. reflexivity.
    - cbn [forallb]. rewrite forallb_app. cbn [forallb]. rewrite forallb_app.
      cbn [forallb]. rewrite forallb_app. cbn [forallb].
      rewrite Ha2, Hb2, Hc2, Hd2. reflexivity.
    - unfold line. cbn [length]. rewrite length_app. cbn [length]. rewrite length_app.
      cbn [length]. rewrite length_app. cbn [length]. rewrite length_app.
      cbn [length]. lia. }
  unfold extractVerticesFromObjFile. cbv zeta.
  destruct (read_lines_then ls (line ++ rest) Hok) as [fuel ->].
  rewrite length_app.
  replace (fuel + (length line + length rest))%nat
    with (S (fuel + (length line - 1) + length rest))%nat
    by (apply whole_line_length in Hwhole; lia).
  rewrite read_line by exact Hwhole.
  set (others := read_lines _ rest).
  rewrite filter_app, length_app, filter_vexists_whole by exact Hok.
  assert (Hv : vexists line = true) by reflexivity.
  cbn [filter]. rewrite Hv. cbn [length].
  rewrite repeat_blank_split.
  pose proof (extract_loop_whole ls (line :: others) []
                (blank :: repeat blank (length (filter vexists others))) Hok) as Hloop.
  cbn [app length Z.of_nat] in Hloop. rewrite Hloop. clear Hloop.
  cbn [extract_loop]. rewrite Hv, lookup_at. cbn [bind].
  assert (Hscan : scan_line line [] false (-1) (@blank F) = Fault).
  { unfold line, blank.
    destruct c as [| c0 c']; [contradiction |].
    destruct d as [| d0 d']; [contradiction |].
    change ((c0 :: c') ++ " "%char :: (d0 :: d') ++ ["010"%char])
      with (c0 :: (c' ++ " "%char :: (d0 :: d') ++ ["010"%char])).
    rewrite scan_two_numbers by (assumption || (cbn [length] in Hlen; lia)).
    change (c0 :: c' ++ " "%char :: (d0 :: d') ++ ["010"%char])
      with ((c0 :: c') ++ " "%char :: d0 :: (d' ++ ["010"%char])).
    rewrite scan_number;
      [| exact Hc' | right; discriminate | reflexivity | cbn [length] in *; lia | lia].
    change (1 + 1) with 2. cbn [app].
    change (store [Some (atof a); Some (atof b); None] 2 (Some (atof (c0 :: c'))))
      with (Ok [Some (atof a); Some (atof b); Some (atof (c0 :: c'))]).
    cbn [bind].
    change (d0 :: d' ++ ["010"%char]) with ((d0 :: d') ++ ["010"%char]).
    rewrite scan_last_number;
      [| exact Hd' | discriminate | cbn [length] in *; lia | lia].
    rewrite store_outside by (cbn [length]; lia). reflexivity. }
  rewrite Hscan. reflexivity.
Qed.

End ExtractEdges.

(** The three vertices of [triangle_obj] are read back. *)
Lemma extract_reads_back_witness :
  @extractVerticesFromObjFile R ObjExamples.whole_numbers "test"
    (Some (concat (map line_text ObjExamples.triangle_obj)))
  = Ok ("test.obj"%string,
        Some (flat_map (@line_vertex R ObjExamples.whole_numbers) ObjExamples.triangle_obj),
        3).
Proof.
  apply (@extract_reads_back_the_vertex_lines R ObjExamples.whole_numbers "test"
           ObjExamples.triangle_obj).
  reflexivity.
Defined.

(** [triangle_obj] followed by the line "v 1 2 34", without a newline. *)
Lemma extract_drops_the_last_character_witness :
  @extractVerticesFromObjFile R ObjExamples.whole_numbers "test"
    (Some (concat (map line_text ObjExamples.triangle_obj)
           ++ ObjExamples.text "v 1 2 34"))
  = Ok ("test.obj"%string,
        Some (flat_map (@line_vertex R ObjExamples.whole_numbers) ObjExamples.triangle_obj
              ++ [[Some (atof (ObjExamples.text "1")); Some (atof (ObjExamples.text "2"));
                   Some (atof (ObjExamples.text "3"))]]),
        4).
Proof.
  apply (@extract_drops_the_last_character_of_the_file R ObjExamples.whole_numbers "test"
           ObjExamples.triangle_obj (ObjExamples.text "1") (ObjExamples.text "2")
           (ObjExamples.text "3") "4"%char).
  - reflexivity.
  - reflexivity.
  - reflexivity.
  - reflexivity.
  - simpl. lia.
Defined.

(** [triangle_obj] followed by the line "v 1 2 3 4". *)
Lemma extract_writes_a_fourth_number_witness :
  @extractVerticesFromObjFile R ObjExamples.whole_numbers "test"
    (Some (concat (map line_text ObjExamples.triangle_obj)
           ++ (ObjExamples.text "v 1 2 3 4" ++ ["010"%char]) ++ []))
  = Fault.
Proof.
  apply (@extract_writes_a_fourth_number_outside_the_vertex R ObjExamples.whole_numbers
           "test" ObjExamples.triangle_obj (ObjExamples.text "1") (ObjExamples.text "2")
           (ObjExamples.text "3") (ObjExamples.text "4") []).
  - reflexivity.
  - reflexivity.
  - reflexivity.
  - reflexivity.
  - reflexivity.
  - simpl. lia.
Defined.

